(** * credit-insight: row parser, categorizer, analytics engine, bureau client

    A shallow embedding of the analytical core of the service:
    - [CsvParserService] (src/statements/services/csv-parser.service.ts),
    - [InsightsComputationService]
      (src/insights/services/insights-computation.service.ts),
    - [BureauHttpClientService] (bureau/services/bureau-http-client.service.ts),
    together with the properties the specification states about them; and
    of the code around it:
    - the ingestion and the upload of [StatementsService]
      (src/statements/statements.service.ts),
    - [InsightsService] (src/insights/insights.service.ts),
    - the credit check of [BureauService] (src/bureau/bureau.service.ts),
    - the record generators of the two mock bureaus
      (src/mock-bureau/mock-bureau.service.ts and the mock bureau server).

    Conventions.  A JavaScript string is the list of its UTF-16 code units.
    A JavaScript number is an exact rational ([Q]); the values NaN and
    +-Infinity are added only where the code tests for them (the result of
    [parseFloat]).  A raw CSV row is a finite map from column names to
    cells. *)

From Stdlib Require Import ZArith QArith Qround Qabs Qminmax Lia List Bool.
From Stdlib Require Import String Ascii.
From stdpp Require Import gmap list sorting.
Import ListNotations.

Local Open Scope Z_scope.

(** ** JavaScript strings and numbers *)

Module JS.

(** UTF-16 code units. *)
Abbreviation jsstring := (list N).

(** An ASCII literal as a JavaScript string. *)
Definition lit (s : string) : jsstring :=
  List.map N_of_ascii (list_ascii_of_string s).

(** WhiteSpace and LineTerminator code points: what [String.prototype.trim]
    removes and what the regular expression class [\s] matches. *)
Definition isWhiteSpace (c : N) : bool :=
  ((9 <=? c) && (c <=? 13) || (c =? 32) || (c =? 160) || (c =? 5760)
   || (8192 <=? c) && (c <=? 8202) || (c =? 8232) || (c =? 8233)
   || (c =? 8239) || (c =? 8287) || (c =? 12288) || (c =? 65279))%N.

Fixpoint trimStart (s : jsstring) : jsstring :=
  match s with
  | c :: s' => if isWhiteSpace c then trimStart s' else s
  | [] => []
  end.

Definition trimEnd (s : jsstring) : jsstring := rev (trimStart (rev s)).

(** [s.trim()] *)
Definition trim (s : jsstring) : jsstring := trimEnd (trimStart s).

Fixpoint startsWith (s p : jsstring) : bool :=
  match p, s with
  | [], _ => true
  | a :: p', b :: s' => (a =? b)%N && startsWith s' p'
  | _ :: _, [] => false
  end.

(** [s.includes(sub)] *)
Fixpoint includes (s sub : jsstring) : bool :=
  startsWith s sub
  || match s with
     | [] => false
     | _ :: s' => includes s' sub
     end.

(** [a === b] on strings. *)
Definition strictEq (a b : jsstring) : bool := bool_decide (a = b).

(** The numbers [parseFloat] can return. *)
Inductive number : Type :=
| NaN
| Infinity (negative : bool)
| Finite (q : Q).

Definition isNaN (x : number) : bool :=
  match x with NaN => true | _ => false end.

(** [x >= 0] *)
Definition geZero (x : number) : bool :=
  match x with
  | NaN => false
  | Infinity negative => negb negative
  | Finite q => Qle_bool 0 q
  end.

(** [Math.abs(x)] *)
Definition Math_abs (x : number) : number :=
  match x with
  | NaN => NaN
  | Infinity _ => Infinity false
  | Finite q => Finite (Qabs q)
  end.

(** *** parseFloat

    [parseFloat] skips leading white space and converts the longest prefix
    that is a StrDecimalLiteral: an optional sign followed by [Infinity],
    by digits with an optional fraction, or by a fraction; then an optional
    exponent.  Whatever follows that prefix is ignored; without such a
    prefix the result is NaN. *)

Definition isDigit (c : N) : bool := ((48 <=? c) && (c <=? 57))%N.

Fixpoint takeDigits (s : jsstring) : list N * jsstring :=
  match s with
  | c :: s' =>
      if isDigit c
      then let '(ds, rest) := takeDigits s' in ((c - 48)%N :: ds, rest)
      else ([], s)
  | [] => ([], [])
  end.

Definition digitsValue (ds : list N) : Z :=
  fold_left (fun acc d => 10 * acc + Z.of_N d) ds 0.

(** An optional sign: whether it is a minus, and what follows it. *)
Definition takeSign (s : jsstring) : bool * jsstring :=
  match s with
  | c :: s' =>
      if (c =? 45)%N then (true, s')
      else if (c =? 43)%N then (false, s')
      else (false, s)
  | [] => (false, [])
  end.

(** The digits after a decimal point, when there is a point. *)
Definition takeFraction (s : jsstring) : list N * jsstring :=
  match s with
  | c :: s' => if (c =? 46)%N then takeDigits s' else ([], s)
  | [] => ([], [])
  end.

(** ExponentPart: [e] or [E], an optional sign and at least one digit;
    an [e] that is not followed by digits is not part of the literal. *)
Definition takeExponent (s : jsstring) : Z :=
  match s with
  | c :: s' =>
      if ((c =? 101) || (c =? 69))%N then
        let '(negative, s'') := takeSign s' in
        let '(ds, _) := takeDigits s'' in
        match ds with
        | [] => 0
        | _ => if negative then - digitsValue ds else digitsValue ds
        end
      else 0
  | [] => 0
  end.

Definition pow10 (e : Z) : Q :=
  if 0 <=? e then inject_Z (10 ^ e) else (/ inject_Z (10 ^ (- e)))%Q.

Definition unsignedLiteral (s : jsstring) : option Q :=
  let '(ints, s1) := takeDigits s in
  let '(fracs, s2) := takeFraction s1 in
  match ints ++ fracs with
  | [] => None
  | digits =>
      Some (inject_Z (digitsValue digits)
            / inject_Z (10 ^ Z.of_nat (length fracs))
            * pow10 (takeExponent s2))%Q
  end.

Definition parseFloat (s : jsstring) : number :=
  let '(negative, s') := takeSign (trimStart s) in
  if startsWith s' (lit "Infinity") then Infinity negative
  else match unsignedLiteral s' with
       | Some q => Finite (if negative then (- q)%Q else q)
       | None => NaN
       end.

End JS.

Import JS.

(** A call either returns or throws. *)
Inductive outcome (E A : Type) : Type :=
| Returned (a : A)
| Thrown (e : E).
Arguments Returned {E A} a.
Arguments Thrown {E A} e.

(** ** Entities (src/common/entities) *)

Inductive TransactionType : Type := DEBIT | CREDIT.

Inductive TransactionCategory : Type :=
| INCOME | TRANSFER | GROCERIES | ENTERTAINMENT | TRANSPORT | UTILITIES
| HEALTHCARE | SHOPPING | DINING | EDUCATION | INVESTMENT | LOAN_PAYMENT
| FEES_CHARGES | OTHER.

Inductive RiskLevel : Type := LOW | MEDIUM | HIGH.

#[global] Instance TransactionType_eq_dec : EqDecision TransactionType.
Proof. solve_decision. Defined.

#[global] Instance TransactionCategory_eq_dec : EqDecision TransactionCategory.
Proof. solve_decision. Defined.

#[global] Instance RiskLevel_eq_dec : EqDecision RiskLevel.
Proof. solve_decision. Defined.

(** ** The row parser and the categorizer (csv-parser.service.ts) *)

(** A cell of a raw row.  A column that the row does not have reads as
    [undefined], which is the absence of the key in the map. *)
Inductive cell : Type :=
| Null
| Str (s : jsstring).

Abbreviation Row := (gmap jsstring cell).

(** What the parser takes from the JavaScript runtime without defining it:
    Unicode case mapping, the date grammar of the [Date] constructor and
    JSON serialisation.  [Date_getTime s] is [new Date(s).getTime()], with
    [None] for the NaN of an invalid date. *)
Class Host : Type := {
  toLowerCase : jsstring -> jsstring;
  Date_getTime : jsstring -> option Z;
  JSON_stringify : Row -> jsstring
}.

Record CategoryResult : Type := {
  cr_category : TransactionCategory;
  cr_confidence : Q
}.

Record ParsedTransaction : Type := {
  pt_date : Z;
  pt_description : jsstring;
  pt_amount : number;
  pt_balance : number;
  pt_type : TransactionType;
  pt_category : TransactionCategory;
  pt_isIncome : bool;
  pt_categoryConfidence : Q;
  pt_rawData : jsstring
}.

(** The two errors [parseRow] throws, each carrying the offending string
    of its message. *)
Inductive ParseRowError : Type :=
| InvalidDateFormat (dateStr : jsstring)
| InvalidAmountFormat (amountStr : jsstring).

Definition incomeKeywords : list jsstring :=
  List.map lit
    ["salary"; "wage"; "income"; "dividend"; "interest"; "refund"; "deposit";
     "credit transfer"; "payment received"; "cashback"; "bonus";
     "commission"]%string.

(** The keyword table, in the order [Object.entries] enumerates it. *)
Definition categoryKeywords : list (TransactionCategory * list jsstring) :=
  [ (GROCERIES, List.map lit
       ["supermarket"; "grocery"; "food"; "market"; "tesco"; "sainsbury";
        "asda"]%string);
    (ENTERTAINMENT, List.map lit
       ["cinema"; "movie"; "netflix"; "spotify"; "entertainment"; "game";
        "theatre"]%string);
    (TRANSPORT, List.map lit
       ["uber"; "taxi"; "bus"; "train"; "fuel"; "petrol"; "parking";
        "transport"]%string);
    (UTILITIES, List.map lit
       ["electric"; "gas"; "water"; "internet"; "phone"; "utility";
        "council tax"]%string);
    (HEALTHCARE, List.map lit
       ["pharmacy"; "doctor"; "hospital"; "health"; "medical";
        "dental"]%string);
    (SHOPPING, List.map lit
       ["amazon"; "shop"; "store"; "retail"; "purchase"; "online"]%string);
    (DINING, List.map lit
       ["restaurant"; "cafe"; "takeaway"; "mcdonald"; "kfc"; "dining";
        "food delivery"]%string);
    (EDUCATION, List.map lit
       ["school"; "university"; "course"; "education"; "tuition";
        "books"]%string);
    (INVESTMENT, List.map lit
       ["investment"; "stocks"; "shares"; "trading"; "crypto";
        "fund"]%string);
    (LOAN_PAYMENT, List.map lit
       ["loan"; "mortgage"; "credit card"; "repayment";
        "installment"]%string);
    (FEES_CHARGES, List.map lit
       ["fee"; "charge"; "penalty"; "overdraft"; "commission";
        "service charge"]%string) ].

Definition dateFields : list jsstring :=
  List.map lit
    ["date"; "Date"; "DATE"; "transaction_date"; "TransactionDate"]%string.

Definition descriptionFields : list jsstring :=
  List.map lit
    ["description"; "Description"; "DESCRIPTION"; "memo"; "Memo"; "details";
     "Details"]%string.

Definition amountFields : list jsstring :=
  List.map lit ["amount"; "Amount"; "AMOUNT"; "value"; "Value"]%string.

Definition balanceFields : list jsstring :=
  List.map lit
    ["balance"; "Balance"; "BALANCE"; "running_balance";
     "RunningBalance"]%string.

(** [row[field] !== undefined && row[field] !== null && row[field] !== ''] *)
Definition usable (c : option cell) : option jsstring :=
  match c with
  | Some (Str ((_ :: _) as s)) => Some s
  | _ => None
  end.

Fixpoint getFieldValue (row : Row) (possibleFields : list jsstring)
  : option jsstring :=
  match possibleFields with
  | field :: rest =>
      match usable (row !! field) with
      | Some s => Some (trim s)
      | None => getFieldValue row rest
      end
  | [] => None
  end.

(** [s.replace(/[£$€,\s]/g, '')] *)
Definition isStripped (c : N) : bool :=
  ((c =? 163) || (c =? 36) || (c =? 8364) || (c =? 44))%N || isWhiteSpace c.

Definition stripCurrency (s : jsstring) : jsstring :=
  List.filter (fun c => negb (isStripped c)) s.

Section Parser.

Context `{Host}.

(** The inner loop of [categorizeTransaction]: the keywords of one
    category, in order. *)
Fixpoint matchKeywords (lowerDescription : jsstring)
  (category : TransactionCategory) (keywords : list jsstring)
  : option CategoryResult :=
  match keywords with
  | keyword :: rest =>
      if includes lowerDescription (toLowerCase keyword)
      then Some {| cr_category := category;
                   cr_confidence :=
                     if strictEq lowerDescription (toLowerCase keyword)
                     then 1 else 8 # 10 |}
      else matchKeywords lowerDescription category rest
  | [] => None
  end.

(** The outer loop: the categories, in table order. *)
Fixpoint matchCategories (lowerDescription : jsstring)
  (entries : list (TransactionCategory * list jsstring))
  : option CategoryResult :=
  match entries with
  | (category, keywords) :: rest =>
      match matchKeywords lowerDescription category keywords with
      | Some r => Some r
      | None => matchCategories lowerDescription rest
      end
  | [] => None
  end.

Definition categorizeTransaction (description : jsstring) : CategoryResult :=
  let lowerDescription := toLowerCase description in
  match matchCategories lowerDescription categoryKeywords with
  | Some r => r
  | None => {| cr_category := OTHER; cr_confidence := 1 # 10 |}
  end.

Definition isIncomeTransaction (description : jsstring) : bool :=
  let lowerDescription := toLowerCase description in
  existsb (fun keyword => includes lowerDescription (toLowerCase keyword))
    incomeKeywords.

(** The balance is lenient: anything that does not parse is 0. *)
Definition parseBalance (balanceStr : option jsstring) : number :=
  match balanceStr with
  | Some ((_ :: _) as balanceStr) =>
      let balance := parseFloat (stripCurrency balanceStr) in
      if isNaN balance then Finite 0 else balance
  | _ => Finite 0
  end.

Definition parseRow (row : Row) (rowNumber : nat)
  : outcome ParseRowError (option ParsedTransaction) :=
  let dateStr := getFieldValue row dateFields in
  let description := getFieldValue row descriptionFields in
  let amountStr := getFieldValue row amountFields in
  let balanceStr := getFieldValue row balanceFields in
  match dateStr, description, amountStr with
  | Some ((_ :: _) as dateStr), Some ((_ :: _) as description),
    Some ((_ :: _) as amountStr) =>
      match Date_getTime dateStr with
      | None => Thrown (InvalidDateFormat dateStr)
      | Some date =>
          let cleanAmount := stripCurrency amountStr in
          let amount := parseFloat cleanAmount in
          if isNaN amount then Thrown (InvalidAmountFormat amountStr)
          else
            let balance := parseBalance balanceStr in
            let type := if geZero amount then CREDIT else DEBIT in
            let categoryResult := categorizeTransaction description in
            let isIncome :=
              bool_decide (type = CREDIT) && isIncomeTransaction description in
            Returned (Some {|
              pt_date := date;
              pt_description := trim description;
              pt_amount := Math_abs amount;
              pt_balance := balance;
              pt_type := type;
              pt_category := cr_category categoryResult;
              pt_isIncome := isIncome;
              pt_categoryConfidence := cr_confidence categoryResult;
              pt_rawData := JSON_stringify row |})
      end
  | _, _, _ => Returned None
  end.

(** *** The batch loop of [parseCSV] and [processStatementFromBuffer] *)

Inductive RowFailure : Type :=
| InvalidDataFormat
| Message (e : ParseRowError).

Record ParseResult : Type := {
  transactions : list ParsedTransaction;
  totalRows : nat;
  successfulRows : nat;
  failedRows : nat;
  errors : list (nat * RowFailure)
}.

(** The ['data'] handler: one row. *)
Definition onData (acc : ParseResult) (row : Row) : ParseResult :=
  let totalRows := S (totalRows acc) in
  match parseRow row totalRows with
  | Returned (Some transaction) =>
      {| transactions := transactions acc ++ [transaction];
         totalRows := totalRows;
         successfulRows := S (successfulRows acc);
         failedRows := failedRows acc;
         errors := errors acc |}
  | Returned None =>
      {| transactions := transactions acc;
         totalRows := totalRows;
         successfulRows := successfulRows acc;
         failedRows := S (failedRows acc);
         errors := errors acc ++ [(totalRows, InvalidDataFormat)] |}
  | Thrown e =>
      {| transactions := transactions acc;
         totalRows := totalRows;
         successfulRows := successfulRows acc;
         failedRows := S (failedRows acc);
         errors := errors acc ++ [(totalRows, Message e)] |}
  end.

Definition parseCSV (rows : list Row) : ParseResult :=
  fold_left onData rows
    {| transactions := []; totalRows := 0%nat; successfulRows := 0%nat;
       failedRows := 0%nat; errors := [] |}.

End Parser.

(** *** A concrete host for running the parser

    Case mapping restricted to ASCII letters, the date grammar
    restricted to the calendar form [YYYY-MM-DD], read as midnight UTC,
    and the raw data left empty.  The theorems below hold for every host;
    this one evaluates examples. *)

Definition asciiLower (s : jsstring) : jsstring :=
  List.map
    (fun c => if ((65 <=? c) && (c <=? 90))%N then (c + 32)%N else c) s.

(** Days between 1970-01-01 and the given civil date. *)
Definition daysFromCivil (y m d : Z) : Z :=
  let y' := if m <=? 2 then y - 1 else y in
  let era := y' / 400 in
  let yoe := y' - era * 400 in
  let doy := (153 * (if 2 <? m then m - 3 else m + 9) + 2) / 5 + d - 1 in
  let doe := yoe * 365 + yoe / 4 - yoe / 100 + doy in
  era * 146097 + doe - 719468.

Definition isoDate (s : jsstring) : option Z :=
  match s with
  | [y1; y2; y3; y4; 45%N; m1; m2; 45%N; d1; d2] =>
      if forallb isDigit [y1; y2; y3; y4; m1; m2; d1; d2] then
        let value cs := digitsValue (List.map (fun c => (c - 48)%N) cs) in
        let y := value [y1; y2; y3; y4] in
        let m := value [m1; m2] in
        let d := value [d1; d2] in
        if (1 <=? m) && (m <=? 12) && (1 <=? d) && (d <=? 31)
        then Some (daysFromCivil y m d * 86400000)
        else None
      else None
  | _ => None
  end.

Definition asciiHost : Host :=
  {| toLowerCase := asciiLower;
     Date_getTime := isoDate;
     JSON_stringify := fun _ => [] |}.

(** Row literals for the examples. *)
Definition mkRow (cells : list (string * string)) : Row :=
  list_to_map (List.map (fun kv => (lit kv.1, Str (lit kv.2))) cells).

(** ** The analytics engine (insights-computation.service.ts) *)

(** A stored transaction.  [amount] and [balance] are [decimal(15,2)]
    columns and [categoryConfidence] is [decimal(3,2)]: each holds a whole
    number of hundredths, which is what the field records here.  [date]
    is [date.getTime()]. *)
Record Transaction : Type := {
  date : Z;
  description : jsstring;
  amount : Z;
  balance : Z;
  type : TransactionType;
  category : TransactionCategory;
  isIncome : bool;
  categoryConfidence : Z;
  rawData : jsstring;
  statementId : jsstring
}.

(** The unary plus of [+t.amount]: the number a decimal column value
    denotes. *)
Definition num (hundredths : Z) : Q := hundredths # 100.

(** The only use the engine makes of the repository. *)
Record Repository : Type := {
  find : jsstring -> list Transaction
}.

Inductive RiskFlag : Type :=
| OverdraftIncidents (overdraftCount : nat)
| BouncedPayments (bouncedPaymentCount : nat)
| HighFees (totalFees : Q)
| LowAverageDailyBalance
| VolatileSpending.

Record ComputedInsights : Type := {
  avgMonthlyIncome : Q;
  totalIncome : Q;
  incomeTransactionCount : nat;
  totalInflow : Q;
  totalOutflow : Q;
  netCashFlow : Q;
  groceriesSpend : Q;
  entertainmentSpend : Q;
  transportSpend : Q;
  utilitiesSpend : Q;
  healthcareSpend : Q;
  shoppingSpend : Q;
  diningSpend : Q;
  otherSpend : Q;
  overdraftCount : nat;
  bouncedPaymentCount : nat;
  avgDailyBalance : Q;
  minBalance : Q;
  maxBalance : Q;
  riskLevel : RiskLevel;
  riskFlags : list RiskFlag;
  parsingSuccessRate : Q;
  totalTransactions : nat;
  successfulTransactions : nat;
  failedTransactions : nat
}.

Inductive InsightsError : Type :=
| NoTransactionsFound.

Local Open Scope Q_scope.

Definition Qlt_bool (x y : Q) : bool := negb (Qle_bool y x).

(** [Math.round]: the nearest integer, halves towards plus infinity. *)
Definition Math_round (x : Q) : Z := Qfloor (x + (1 # 2)).

(** [x || 0] *)
Definition orZero (x : Q) : Q := if Qeq_bool x 0 then 0 else x.

(** [Math.round(x * 100) / 100 || 0] *)
Definition round2 (x : Q) : Q :=
  orZero (inject_Z (Math_round (x * 100)) / 100).

(** [Math.round(x * 10000) / 10000 || 0] *)
Definition round4 (x : Q) : Q :=
  orZero (inject_Z (Math_round (x * 10000)) / 10000).

(** [Math.min(...xs)] and [Math.max(...xs)] of a list that is not empty
    (the engine never takes them of an empty one). *)
Definition Math_min (xs : list Q) : Q :=
  match xs with
  | x :: xs' => fold_left Qmin xs' x
  | [] => 0
  end.

Definition Math_max (xs : list Q) : Q :=
  match xs with
  | x :: xs' => fold_left Qmax xs' x
  | [] => 0
  end.

(** [ts.reduce((sum, t) => +sum + +t.amount, 0)] *)
Definition sumAmounts (ts : list Transaction) : Q :=
  fold_left (fun sum t => sum + num (amount t)) ts 0.

Definition isCredit (t : Transaction) : bool := bool_decide (type t = CREDIT).
Definition isDebit (t : Transaction) : bool := bool_decide (type t = DEBIT).

Record IncomeAnalysis : Type := {
  ia_avgMonthlyIncome : Q;
  ia_totalIncome : Q;
  ia_incomeTransactionCount : nat
}.

Definition computeIncomeAnalysis (transactions : list Transaction)
  : IncomeAnalysis :=
  let incomeTransactions := List.filter isCredit transactions in
  let totalIncome := sumAmounts incomeTransactions in
  let periodStart :=
    Math_min (List.map (fun t => inject_Z (date t)) transactions) in
  let periodEnd :=
    Math_max (List.map (fun t => inject_Z (date t)) transactions) in
  let periodMonths :=
    Qmax 1 ((periodEnd - periodStart) / inject_Z (30 * 24 * 60 * 60 * 1000)) in
  let avgMonthlyIncome := totalIncome / periodMonths in
  {| ia_avgMonthlyIncome := round2 avgMonthlyIncome;
     ia_totalIncome := round2 totalIncome;
     ia_incomeTransactionCount := length incomeTransactions |}.

Record CashFlowAnalysis : Type := {
  cf_totalInflow : Q;
  cf_totalOutflow : Q;
  cf_netCashFlow : Q
}.

Definition computeCashFlowAnalysis (transactions : list Transaction)
  : CashFlowAnalysis :=
  let creditTransactions := List.filter isCredit transactions in
  let debitTransactions := List.filter isDebit transactions in
  let totalInflow := sumAmounts creditTransactions in
  let totalOutflow := sumAmounts debitTransactions in
  let netCashFlow := totalInflow - totalOutflow in
  {| cf_totalInflow := round2 totalInflow;
     cf_totalOutflow := round2 totalOutflow;
     cf_netCashFlow := round2 netCashFlow |}.

(** The [buckets] object of [computeSpendingBuckets]. *)
Record Buckets : Type := {
  b_groceriesSpend : Q;
  b_entertainmentSpend : Q;
  b_transportSpend : Q;
  b_utilitiesSpend : Q;
  b_healthcareSpend : Q;
  b_shoppingSpend : Q;
  b_diningSpend : Q;
  b_otherSpend : Q
}.

Definition emptyBuckets : Buckets :=
  {| b_groceriesSpend := 0; b_entertainmentSpend := 0; b_transportSpend := 0;
     b_utilitiesSpend := 0; b_healthcareSpend := 0; b_shoppingSpend := 0;
     b_diningSpend := 0; b_otherSpend := 0 |}.

(** The body of the [forEach]: the [switch] on the category. *)
Definition addToBucket (buckets : Buckets) (transaction : Transaction)
  : Buckets :=
  let amount := num (amount transaction) in
  let '{| b_groceriesSpend := g; b_entertainmentSpend := e;
          b_transportSpend := t; b_utilitiesSpend := u;
          b_healthcareSpend := h; b_shoppingSpend := s;
          b_diningSpend := d; b_otherSpend := o |} := buckets in
  match category transaction with
  | GROCERIES => Build_Buckets (g + amount) e t u h s d o
  | ENTERTAINMENT => Build_Buckets g (e + amount) t u h s d o
  | TRANSPORT => Build_Buckets g e (t + amount) u h s d o
  | UTILITIES => Build_Buckets g e t (u + amount) h s d o
  | HEALTHCARE => Build_Buckets g e t u (h + amount) s d o
  | SHOPPING => Build_Buckets g e t u h (s + amount) d o
  | DINING => Build_Buckets g e t u h s (d + amount) o
  | _ => Build_Buckets g e t u h s d (o + amount)
  end.

(** The buckets before the final rounding pass. *)
Definition accumulateBuckets (transactions : list Transaction) : Buckets :=
  let debitTransactions := List.filter isDebit transactions in
  fold_left addToBucket debitTransactions emptyBuckets.

Definition roundBuckets (b : Buckets) : Buckets :=
  {| b_groceriesSpend := round2 (b_groceriesSpend b);
     b_entertainmentSpend := round2 (b_entertainmentSpend b);
     b_transportSpend := round2 (b_transportSpend b);
     b_utilitiesSpend := round2 (b_utilitiesSpend b);
     b_healthcareSpend := round2 (b_healthcareSpend b);
     b_shoppingSpend := round2 (b_shoppingSpend b);
     b_diningSpend := round2 (b_diningSpend b);
     b_otherSpend := round2 (b_otherSpend b) |}.

Definition computeSpendingBuckets (transactions : list Transaction) : Buckets :=
  roundBuckets (accumulateBuckets transactions).

Record RiskAnalysis : Type := {
  ra_overdraftCount : nat;
  ra_bouncedPaymentCount : nat;
  ra_avgDailyBalance : Q;
  ra_minBalance : Q;
  ra_maxBalance : Q;
  ra_riskLevel : RiskLevel;
  ra_riskFlags : list RiskFlag
}.

(** [transactions.map((t) => t.balance)] *)
Definition balanceSeries (transactions : list Transaction) : list Q :=
  List.map (fun t => num (balance t)) transactions.

(** [balances.reduce((sum, b) => +sum + +b, 0) / balances.length] *)
Definition meanOf (xs : list Q) : Q :=
  fold_left Qplus xs 0 / inject_Z (Z.of_nat (length xs)).

(** [balances.filter((b) => b < 0).length] *)
Definition countOverdrafts (balances : list Q) : nat :=
  length (List.filter (fun b => Qlt_bool b 0) balances).

(** The condition of the bounced-payment loop on an adjacent pair. *)
Definition looksBounced (current next : Transaction) : bool :=
  bool_decide (type current = DEBIT)
  && Qlt_bool 100 (num (amount current))
  && Qlt_bool (num (balance current)) 0
  && bool_decide (category next = FEES_CHARGES).

(** [for (let i = 0; i < transactions.length - 1; i++)] over the pairs
    [(transactions[i], transactions[i + 1])]. *)
Fixpoint countBouncedPayments (transactions : list Transaction) : nat :=
  match transactions with
  | current :: ((next :: _) as rest) =>
      ((if looksBounced current next then 1 else 0)
       + countBouncedPayments rest)%nat
  | _ => 0%nat
  end.

Definition feesTotal (transactions : list Transaction) : Q :=
  let feeTransactions :=
    List.filter (fun t => bool_decide (category t = FEES_CHARGES))
      transactions in
  sumAmounts feeTransactions.

(** The volatile-spending check. *)
Definition volatileSpending (transactions : list Transaction) : bool :=
  let debitAmounts :=
    List.map (fun t => num (amount t)) (List.filter isDebit transactions) in
  if (0 <? length debitAmounts)%nat then
    let avgSpend := meanOf debitAmounts in
    let largeTransactions :=
      length (List.filter (fun a => Qlt_bool (avgSpend * 3) a) debitAmounts) in
    Qlt_bool (inject_Z (Z.of_nat (length debitAmounts)) * (1 # 10))
             (inject_Z (Z.of_nat largeTransactions))
  else false.

(** The two [if] tiers that close [computeRiskAnalysis]. *)
Definition overallRiskLevel (overdraftCount bouncedPaymentCount : nat)
  (avgDailyBalance totalFees : Q) : RiskLevel :=
  if (5 <? overdraftCount)%nat || (2 <? bouncedPaymentCount)%nat
     || Qlt_bool avgDailyBalance 50
  then HIGH
  else if (2 <? overdraftCount)%nat || (0 <? bouncedPaymentCount)%nat
          || Qlt_bool avgDailyBalance 200 || Qlt_bool 50 totalFees
  then MEDIUM
  else LOW.

Definition computeRiskAnalysis (transactions : list Transaction)
  : RiskAnalysis :=
  let balances := balanceSeries transactions in
  let minBalance := Math_min balances in
  let maxBalance := Math_max balances in
  let avgDailyBalance := meanOf balances in
  let overdraftCount := countOverdrafts balances in
  let bouncedPaymentCount := countBouncedPayments transactions in
  let totalFees := feesTotal transactions in
  let riskFlags :=
    (if (0 <? overdraftCount)%nat
     then [OverdraftIncidents overdraftCount] else [])
    ++ (if (0 <? bouncedPaymentCount)%nat
        then [BouncedPayments bouncedPaymentCount] else [])
    ++ (if Qlt_bool 100 totalFees then [HighFees totalFees] else [])
    ++ (if Qlt_bool avgDailyBalance 100 then [LowAverageDailyBalance] else [])
    ++ (if volatileSpending transactions then [VolatileSpending] else []) in
  let riskLevel :=
    overallRiskLevel overdraftCount bouncedPaymentCount avgDailyBalance
      totalFees in
  {| ra_overdraftCount := overdraftCount;
     ra_bouncedPaymentCount := bouncedPaymentCount;
     ra_avgDailyBalance := round2 avgDailyBalance;
     ra_minBalance := round2 minBalance;
     ra_maxBalance := round2 maxBalance;
     ra_riskLevel := riskLevel;
     ra_riskFlags := riskFlags |}.

Record ParsingStats : Type := {
  ps_parsingSuccessRate : Q;
  ps_totalTransactions : nat;
  ps_successfulTransactions : nat;
  ps_failedTransactions : nat
}.

(** The statistics are taken from the stored transactions alone: every
    stored transaction counts as parsed, and no failure is counted. *)
Definition computeParsingStats (transactions : list Transaction)
  : ParsingStats :=
  let totalTransactions := length transactions in
  let successfulTransactions := length transactions in
  let failedTransactions := 0%nat in
  let parsingSuccessRate :=
    if (0 <? totalTransactions)%nat
    then inject_Z (Z.of_nat successfulTransactions)
         / inject_Z (Z.of_nat totalTransactions)
    else 0 in
  {| ps_parsingSuccessRate := round4 parsingSuccessRate;
     ps_totalTransactions := totalTransactions;
     ps_successfulTransactions := successfulTransactions;
     ps_failedTransactions := failedTransactions |}.

Definition computeInsights (transactionRepository : Repository)
  (statementId : jsstring) : outcome InsightsError ComputedInsights :=
  let transactions := find transactionRepository statementId in
  match transactions with
  | [] => Thrown NoTransactionsFound
  | _ :: _ =>
      let incomeAnalysis := computeIncomeAnalysis transactions in
      let cashFlowAnalysis := computeCashFlowAnalysis transactions in
      let spendingBuckets := computeSpendingBuckets transactions in
      let riskAnalysis := computeRiskAnalysis transactions in
      let parsingStats := computeParsingStats transactions in
      Returned {|
        avgMonthlyIncome := ia_avgMonthlyIncome incomeAnalysis;
        totalIncome := ia_totalIncome incomeAnalysis;
        incomeTransactionCount := ia_incomeTransactionCount incomeAnalysis;
        totalInflow := cf_totalInflow cashFlowAnalysis;
        totalOutflow := cf_totalOutflow cashFlowAnalysis;
        netCashFlow := cf_netCashFlow cashFlowAnalysis;
        groceriesSpend := b_groceriesSpend spendingBuckets;
        entertainmentSpend := b_entertainmentSpend spendingBuckets;
        transportSpend := b_transportSpend spendingBuckets;
        utilitiesSpend := b_utilitiesSpend spendingBuckets;
        healthcareSpend := b_healthcareSpend spendingBuckets;
        shoppingSpend := b_shoppingSpend spendingBuckets;
        diningSpend := b_diningSpend spendingBuckets;
        otherSpend := b_otherSpend spendingBuckets;
        overdraftCount := ra_overdraftCount riskAnalysis;
        bouncedPaymentCount := ra_bouncedPaymentCount riskAnalysis;
        avgDailyBalance := ra_avgDailyBalance riskAnalysis;
        minBalance := ra_minBalance riskAnalysis;
        maxBalance := ra_maxBalance riskAnalysis;
        riskLevel := ra_riskLevel riskAnalysis;
        riskFlags := ra_riskFlags riskAnalysis;
        parsingSuccessRate := ps_parsingSuccessRate parsingStats;
        totalTransactions := ps_totalTransactions parsingStats;
        successfulTransactions := ps_successfulTransactions parsingStats;
        failedTransactions := ps_failedTransactions parsingStats |}
  end.

(** ** Ingestion of a statement (statements.service.ts)

    [processStatementFromBuffer] runs the batch loop over the rows of the
    uploaded file, saves the parsed transactions in chunks and records
    the counts on the statement.  Here it takes the transactions table
    and returns it with what it resolves to; the updates of the statement
    row and the background start of the insights are left out. *)

Inductive StatementStatus : Type := UPLOADED | PROCESSING | PROCESSED | FAILED.

Record ProcessingResult : Type := {
  pr_status : StatementStatus;
  pr_transactionCount : nat;
  pr_successfulTransactions : nat;
  pr_failedTransactions : nat
}.

(** Writing a number into a [decimal(15,2)] column: rounded to hundredths,
    halves away from zero; NaN, the infinities and values that do not fit
    the column make the insert fail.  This is the behaviour of the
    database behind [transactionRepository.save], which the engine reads
    back through [find]. *)
Definition toHundredths (x : number) : option Z :=
  match x with
  | Finite q =>
      let h := if Qle_bool 0 q then Qfloor (q * 100 + (1 # 2))
               else (- Qfloor (- q * 100 + (1 # 2)))%Z in
      if bool_decide (Z.abs h < 10 ^ 15)%Z then Some h else None
  | _ => None
  end.

(** One row of [transactionRepository.save]: [{ ...transaction,
    statementId }] written into the [transactions] table. *)
Definition toEntity (sid : jsstring) (p : ParsedTransaction)
  : option Transaction :=
  match toHundredths (pt_amount p), toHundredths (pt_balance p) with
  | Some a, Some b =>
      Some {| date := pt_date p;
              description := pt_description p;
              amount := a;
              balance := b;
              type := pt_type p;
              category := pt_category p;
              isIncome := pt_isIncome p;
              categoryConfidence :=
                Qfloor (pt_categoryConfidence p * 100 + (1 # 2));
              rawData := pt_rawData p;
              statementId := sid |}
  | _, _ => None
  end.

(** [save(chunk)]: all rows of the chunk or none. *)
Fixpoint saveChunk (sid : jsstring) (chunk : list ParsedTransaction)
  : option (list Transaction) :=
  match chunk with
  | p :: chunk' =>
      match toEntity sid p, saveChunk sid chunk' with
      | Some t, Some ts => Some (t :: ts)
      | _, _ => None
      end
  | [] => Some []
  end.

(** The chunk loop: [for (i = 0; i < transactions.length; i += chunkSize)].
    It returns the table after the loop and whether every chunk was
    saved.  [fuel] bounds the number of chunks; [None] is a loop that
    was cut short, which [saveInChunks_fuel] excludes. *)
Fixpoint saveInChunks (fuel : nat) (chunkSize : nat) (sid : jsstring)
  (transactions : list ParsedTransaction) (table : list Transaction)
  : option (bool * list Transaction) :=
  match transactions with
  | [] => Some (true, table)
  | _ :: _ =>
      match fuel with
      | O => None
      | S fuel' =>
          match saveChunk sid (take chunkSize transactions) with
          | Some stored =>
              saveInChunks fuel' chunkSize sid (drop chunkSize transactions)
                (table ++ stored)
          | None => Some (false, table)
          end
      end
  end.

Definition dateOrder (t1 t2 : Transaction) : Prop := (date t1 <= date t2)%Z.

#[global] Instance dateOrder_dec t1 t2 : Decision (dateOrder t1 t2).
Proof. unfold dateOrder. apply _. Defined.

(** [find({ where: { statementId }, order: { date: 'ASC' } })] over the
    rows of the table. *)
Definition repositoryOf (table : list Transaction) : Repository :=
  {| find := fun sid =>
       merge_sort dateOrder
         (List.filter (fun t => bool_decide (statementId t = sid)) table) |}.

Section Ingestion.

Context `{Host}.

Definition processStatementFromBuffer (table : list Transaction)
  (sid : jsstring) (rows : list Row)
  : ProcessingResult * list Transaction :=
  let result := parseCSV rows in
  let failed :=
    {| pr_status := FAILED; pr_transactionCount := 0;
       pr_successfulTransactions := 0; pr_failedTransactions := 0 |} in
  match transactions result with
  | [] => (failed, table)
  | _ :: _ =>
      match saveInChunks (length (transactions result)) 1000 sid
              (transactions result) table with
      | Some (true, table') =>
          ({| pr_status := PROCESSED;
              pr_transactionCount := totalRows result;
              pr_successfulTransactions := successfulRows result;
              pr_failedTransactions := failedRows result |}, table')
      | Some (false, table') => (failed, table')
      | None => (failed, table)
      end
  end.

End Ingestion.

(** ** The bureau client (bureau-http-client.service.ts) *)

Record BureauApiRequest : Type := {
  email : jsstring;
  user_id : option jsstring;
  additional_data : option jsstring
}.

Record BureauData : Type := {
  score : Z;
  risk_band : jsstring;
  enquiries_6m : Z;
  defaults : Z;
  open_loans : Z;
  trade_lines : Z;
  reference_id : jsstring;
  timestamp : jsstring
}.

Record BureauApiResponse : Type := {
  api_status : jsstring;
  api_data : option BureauData;
  request_id : jsstring;
  processing_time_ms : Z
}.

(** The body of an error response, as far as [extractErrorMessage] reads
    it. *)
Record ErrorBody : Type := {
  body_error : option jsstring;
  body_message : option jsstring
}.

Record AxiosError : Type := {
  response_status : option Z;
  response_statusText : jsstring;
  response_data : option ErrorBody;
  code : option jsstring;
  message : jsstring
}.

(** What one POST to the bureau comes to: a response, an [AxiosError], or
    another rejection (the [timeout] operator's error, for one). *)
Inductive HttpOutcome : Type :=
| Resolved (status : Z) (body : BureauApiResponse)
| RejectedAxios (error : AxiosError)
| RejectedOther (message : option jsstring).

(** The messages of the client; the template strings keep their
    arguments. *)
Inductive ErrorMessage : Type :=
| Text (s : jsstring)
| HttpStatus (status : Z) (statusText : jsstring)
| FailedAfterRetries (maxRetries : nat) (lastError : ErrorMessage).

Record BureauRequestResult : Type := {
  success : bool;
  data : option BureauApiResponse;
  error : option ErrorMessage;
  httpStatusCode : Z;
  responseTime : Q;
  retryCount : nat;
  bureauReferenceId : option jsstring
}.

(** [{ ...result, retryCount }] *)
Definition withRetryCount (result : BureauRequestResult) (retryCount : nat)
  : BureauRequestResult :=
  {| success := success result;
     data := data result;
     error := error result;
     httpStatusCode := httpStatusCode result;
     responseTime := responseTime result;
     retryCount := retryCount;
     bureauReferenceId := bureauReferenceId result |}.

(** A string in a condition: the empty string is falsy. *)
Definition truthy (s : option jsstring) : option jsstring :=
  match s with
  | Some ((_ :: _) as s) => Some s
  | _ => None
  end.

Definition extractErrorMessage (error : AxiosError) : ErrorMessage :=
  let fromBody :=
    match response_data error with
    | Some body =>
        match truthy (body_error body), truthy (body_message body) with
        | Some e, _ => Some (Text e)
        | None, Some m => Some (Text m)
        | None, None => None
        end
    | None => None
    end in
  match fromBody with
  | Some m => m
  | None =>
      match response_status error with
      | Some 400%Z => Text (lit "Bad request - invalid data provided")
      | Some 401%Z => Text (lit "Unauthorized - invalid API key")
      | Some 403%Z => Text (lit "Forbidden - access denied")
      | Some 404%Z => Text (lit "Service not found")
      | Some 429%Z => Text (lit "Rate limit exceeded")
      | Some 500%Z => Text (lit "Bureau service internal error")
      | Some 502%Z => Text (lit "Bureau service unavailable")
      | Some 503%Z => Text (lit "Bureau service temporarily unavailable")
      | Some 504%Z => Text (lit "Bureau service timeout")
      | Some 0%Z | None =>
          if bool_decide (code error = Some (lit "ECONNREFUSED"))
          then Text (lit "Bureau service connection refused")
          else if bool_decide (code error = Some (lit "ENOTFOUND"))
          then Text (lit "Bureau service not found")
          else if bool_decide (code error = Some (lit "ETIMEDOUT"))
          then Text (lit "Bureau service request timeout")
          else match message error with
               | [] => Text (lit "Unknown bureau service error")
               | m => Text m
               end
      | Some status => HttpStatus status (response_statusText error)
      end
  end.

Definition isRetryableError (statusCode : Z) : bool :=
  bool_decide (statusCode ∈ [0; 429; 500; 502; 503; 504]%Z).

(** *** The world the client runs in

    The client reads the clock, sleeps, draws random numbers and posts
    requests.  The network, the clock and the random source are oracles
    indexed by the number of calls made so far; the world counts the
    calls and keeps the delays slept. *)

Record Oracle : Type := {
  post : nat -> HttpOutcome;
  latency : nat -> Q;
  random : nat -> Q
}.

Record World : Type := {
  now : Q;
  posts : nat;
  draws : nat;
  slept : list Q
}.

Definition M (A : Type) : Type := World -> A * World.

#[global] Instance M_ret : MRet M := fun A a w => (a, w).
#[global] Instance M_bind : MBind M :=
  fun A B f m w => let '(a, w') := m w in f a w'.

Definition Date_now : M Q := fun w => (now w, w).

Definition sleep (ms : Q) : M unit := fun w =>
  (tt, {| now := now w + ms; posts := posts w; draws := draws w;
          slept := slept w ++ [ms] |}).

Section Client.

Context (oracle : Oracle).
Context (maxRetries : nat) (retryDelayMs : Q).

Definition Math_random : M Q := fun w =>
  (random oracle (draws w),
   {| now := now w; posts := posts w; draws := S (draws w);
      slept := slept w |}).

Definition httpPost (request : BureauApiRequest) : M HttpOutcome := fun w =>
  (post oracle (posts w),
   {| now := now w + latency oracle (posts w); posts := S (posts w);
      draws := draws w; slept := slept w |}).

Definition calculateBackoffDelay (attempt : nat) : M Q :=
  let baseDelay := retryDelayMs in
  let exponentialDelay :=
    baseDelay * inject_Z (2 ^ Z.of_nat (attempt - 1)) in
  r ← Math_random;
  let jitter := r * (3 # 10) * exponentialDelay in
  mret (Qmin (exponentialDelay + jitter) 30000).

(** [makeRequest] catches every rejection of the POST, so it always
    returns a result. *)
Definition makeRequest (request : BureauApiRequest) (startTime : Q)
  : M BureauRequestResult :=
  o ← httpPost request;
  t ← Date_now;
  let responseTime := t - startTime in
  match o with
  | Resolved status body =>
      mret {| success := true;
              data := Some body;
              error := None;
              httpStatusCode := status;
              responseTime := responseTime;
              retryCount := 0;
              bureauReferenceId := reference_id <$> api_data body |}
  | RejectedAxios e =>
      mret {| success := false;
              data := None;
              error := Some (extractErrorMessage e);
              httpStatusCode := default 0%Z (response_status e);
              responseTime := responseTime;
              retryCount := 0;
              bureauReferenceId := None |}
  | RejectedOther m =>
      mret {| success := false;
              data := None;
              error := Some (Text (default (lit "Unknown network error") m));
              httpStatusCode := 0;
              responseTime := responseTime;
              retryCount := 0;
              bureauReferenceId := None |}
  end.

(** [result.error || 'Unknown error'] *)
Definition orUnknownError (e : option ErrorMessage) : ErrorMessage :=
  match e with
  | None | Some (Text []) => Text (lit "Unknown error")
  | Some m => m
  end.

(** The local variables of [checkCredit] that the loop updates. *)
Record Locals : Type := {
  l_retryCount : nat;
  l_lastError : ErrorMessage;
  l_httpStatusCode : Z
}.

(** The head of the loop body, [if (attempt > 0) { retryCount++; ... }]:
    the back-off before a retry.  It returns the retry count. *)
Definition backOff (attempt retryCount : nat) : M nat :=
  if (0 <? attempt)%nat then
    backoffDelay ← calculateBackoffDelay attempt;
    sleep backoffDelay;;
    mret (S retryCount)
  else mret retryCount.

(** The [for] loop from [attempt] on, [remaining] being the number of
    iterations left, [maxRetries + 1 - attempt].  [Some] is a [return]
    from inside the loop, [None] the loop running to its end.  The
    [catch] of the loop body has nothing to catch, [makeRequest] having
    caught every rejection itself. *)
Fixpoint attempts (remaining attempt : nat) (request : BureauApiRequest)
  (startTime : Q) (locals : Locals)
  : M (option BureauRequestResult * Locals) :=
  match remaining with
  | O => mret (None, locals)
  | S remaining' =>
      retryCount ← backOff attempt (l_retryCount locals);
      result ← makeRequest request startTime;
      if success result then
        mret (Some (withRetryCount result retryCount), locals)
      else if negb (isRetryableError (httpStatusCode result)) then
        mret (Some (withRetryCount result retryCount), locals)
      else
        attempts remaining' (S attempt) request startTime
          {| l_retryCount := retryCount;
             l_lastError := orUnknownError (error result);
             l_httpStatusCode := httpStatusCode result |}
  end.

Definition checkCredit (request : BureauApiRequest) : M BureauRequestResult :=
  startTime ← Date_now;
  '(returned, locals) ←
    attempts (S maxRetries) 0 request startTime
      {| l_retryCount := 0; l_lastError := Text []; l_httpStatusCode := 0 |};
  match returned with
  | Some result => mret result
  | None =>
      t ← Date_now;
      let responseTime := t - startTime in
      mret {| success := false;
              data := None;
              error :=
                Some (FailedAfterRetries maxRetries (l_lastError locals));
              httpStatusCode := l_httpStatusCode locals;
              responseTime := responseTime;
              retryCount := l_retryCount locals;
              bureauReferenceId := None |}
  end.

End Client.

(** * Vocabulary of the properties

    Sample data, and the notions of the specification that the code has
    no name for. *)

(** A column the lookup passes over: absent, null or empty. *)
Definition Unusable (row : Row) (field : jsstring) : Prop :=
  row !! field = None \/ row !! field = Some Null
  \/ row !! field = Some (Str []).

(** A resolved string that the guard of [parseRow] lets through. *)
Definition resolved (v : option jsstring) : Prop :=
  exists s, v = Some s /\ s <> [].

Definition paddedRow : Row :=
  mkRow [("date", " 2025-01-01"); ("description", "Grocery Store");
         ("amount", "-120.50")]%string.

Definition secondAliasRow : Row :=
  <[lit "date" := Str []]>
    (mkRow [("Date", "2025-01-02 "); ("memo", "Grocery Store");
            ("value", "-120.50")]%string).


(** The value of a signed decimal. *)
Definition decimalValue (s : jsstring) : Q :=
  let '(negative, s') := takeSign s in
  let '(ints, s1) := takeDigits s' in
  let '(fracs, _) := takeFraction s1 in
  let magnitude :=
    inject_Z (digitsValue (ints ++ fracs))
    / inject_Z (10 ^ Z.of_nat (length fracs)) in
  if negative then - magnitude else magnitude.


Definition groceryRow : Row :=
  mkRow [("date", "2025-01-02"); ("description", "Grocery Store");
         ("amount", "-120.50")]%string.


(** The keyword occurs in the lower-cased description. *)
Definition hits `{Host} (lowerDescription keyword : jsstring) : bool :=
  includes lowerDescription (toLowerCase keyword).

(** No keyword of the entry occurs in it. *)
Definition missesEntry `{Host} (lowerDescription : jsstring)
  (entry : TransactionCategory * list jsstring) : Prop :=
  Forall (fun keyword => hits lowerDescription keyword = false) entry.2.

(** The sum of a list of numbers, as mathematics writes it. *)
Definition Qsum (xs : list Q) : Q := foldr Qplus 0 xs.


(** The amounts of a list, added up as hundredths. *)
Definition totalHundredths (ts : list Transaction) : Z :=
  foldr (fun t s => (amount t + s)%Z) 0%Z ts.

Definition emptyRepository : Repository := {| find := fun _ => [] |}.

(** A stored transaction of the examples: amounts in hundredths. *)
Definition stored (day : Z) (direction : TransactionType)
  (cat : TransactionCategory) (amountHundredths balanceHundredths : Z)
  : Transaction :=
  {| date := day * 86400000;
     description := [];
     amount := amountHundredths;
     balance := balanceHundredths;
     type := direction;
     category := cat;
     isIncome := false;
     categoryConfidence := 10;
     rawData := [];
     statementId := lit "statement-1" |}.

Definition salaryAndRent : Repository :=
  {| find := fun _ =>
       [stored 20089 CREDIT OTHER 500000 500000;
        stored 20090 DEBIT OTHER 100000 400000] |}.

Definition borderlineBalances : Repository :=
  {| find := fun _ =>
       [stored 20089 DEBIT OTHER 2000 4999;
        stored 20090 CREDIT OTHER 1 5000;
        stored 20091 CREDIT OTHER 0 5000] |}.

(** The eight buckets by name. *)
Inductive Bucket : Type :=
| Groceries | Entertainment | Transport | Utilities | Healthcare | Shopping
| Dining | Other.

#[global] Instance Bucket_eq_dec : EqDecision Bucket.
Proof. solve_decision. Defined.



Definition bucketsTotal (b : Buckets) : Q :=
  b_groceriesSpend b + b_entertainmentSpend b + b_transportSpend b
  + b_utilitiesSpend b + b_healthcareSpend b + b_shoppingSpend b
  + b_diningSpend b + b_otherSpend b.

Definition tuitionAndGroceries : list Transaction :=
  [stored 20089 DEBIT EDUCATION 90000 100000;
   stored 20090 DEBIT GROCERIES 12050 87950;
   stored 20091 DEBIT FEES_CHARGES 1500 86450;
   stored 20092 CREDIT OTHER 500000 586450].

(** The counts the batch loop maintains. *)
Definition countsConsistent (r : ParseResult) : Prop :=
  successfulRows r = length (transactions r)
  /\ failedRows r = length (errors r)
  /\ totalRows r = (successfulRows r + failedRows r)%nat.

Definition missingDateRow : Row :=
  mkRow [("description", "Coffee"); ("amount", "-3.20")]%string.

Definition twoRowFile : list Row := [groceryRow; missingDateRow].

(** The status code [makeRequest] reports for an outcome of the POST. *)
Definition outcomeStatus (o : HttpOutcome) : Z :=
  match o with
  | Resolved status _ => status
  | RejectedAxios e => default 0%Z (response_status e)
  | RejectedOther _ => 0%Z
  end.

Definition succeeded (o : HttpOutcome) : bool :=
  match o with
  | Resolved _ _ => true
  | _ => false
  end.

(** A failure after which the loop goes on. *)
Definition retried (o : HttpOutcome) : Prop :=
  succeeded o = false /\ isRetryableError (outcomeStatus o) = true.

(** The transient failures of the specification: no status, or one of
    429, 500, 502, 503, 504. *)
Definition transientFailure (o : HttpOutcome) : Prop :=
  match o with
  | Resolved _ _ => False
  | RejectedAxios e =>
      response_status e = None
      \/ exists status : Z,
           response_status e = Some status
           /\ status ∈ [429; 500; 502; 503; 504]%Z
  | RejectedOther _ => True
  end.

(** The permanent failures of the specification: 400, 401, 403, 404. *)
Definition permanentFailure (o : HttpOutcome) (status : Z) : Prop :=
  exists e : AxiosError,
    o = RejectedAxios e /\ response_status e = Some status
    /\ status ∈ [400; 401; 403; 404]%Z.

(** One iteration of the loop: the retry count after the optional
    back-off, the result of the request, and the world after both. *)
Definition iteration (oracle : Oracle) (retryDelayMs : Q) (attempt : nat)
  (request : BureauApiRequest)
  (startTime : Q) (locals : Locals) (w : World)
  : nat * BureauRequestResult * World :=
  let '(retryCount, w1) :=
    backOff oracle retryDelayMs attempt (l_retryCount locals) w in
  let '(result, w2) := makeRequest oracle request startTime w1 in
  (retryCount, result, w2).

Definition initialLocals : Locals :=
  {| l_retryCount := 0; l_lastError := Text []; l_httpStatusCode := 0 |}.

(** The number of requests a run has posted. *)
Definition attemptsMade (before after : World) : nat :=
  (posts after - posts before)%nat.

Definition sampleRequest : BureauApiRequest :=
  {| email := lit "test@example.com";
     user_id := Some (lit "user-123");
     additional_data := None |}.

Definition sampleResponse : BureauApiResponse :=
  {| api_status := lit "success";
     api_data := None;
     request_id := lit "req-1";
     processing_time_ms := 12 |}.

Definition statusError (status : Z) : AxiosError :=
  {| response_status := Some status;
     response_statusText := [];
     response_data := None;
     code := None;
     message := lit "Request failed" |}.

(** Three internal errors, then a response. *)
Definition threeFailures : Oracle :=
  {| post := fun n =>
       if (n <? 3)%nat then RejectedAxios (statusError 500)
       else Resolved 200 sampleResponse;
     latency := fun _ => 20;
     random := fun _ => 1 # 2 |}.

Definition freshWorld : World :=
  {| now := 0; posts := 0; draws := 0; slept := [] |}.

(** A time-out of the gateway, then an unknown route. *)
Definition retryThenNotFound : Oracle :=
  {| post := fun n =>
       match n with
       | O => RejectedAxios (statusError 504)
       | _ => RejectedAxios (statusError 404)
       end;
     latency := fun _ => 20;
     random := fun _ => 0 |}.

Definition badRequest : Oracle :=
  {| post := fun _ => RejectedAxios (statusError 400);
     latency := fun _ => 20;
     random := fun _ => 0 |}.

(** ** Header validation (csv-parser.service.ts)

    [validateCSVFormat] looks at the header row only.  The stream either
    announces the headers, fails before it does, or ends without either,
    in which case the promise is never settled. *)

Inductive HeaderEvent : Type :=
| Headers (headers : list jsstring)
| StreamError
| NoEvent.

(** [/pattern/i.test(h)] for a pattern of lower-case ASCII letters.
    Without the [u] flag a character outside ASCII never matches an ASCII
    one, so ignoring case is ignoring the case of ASCII letters. *)
Definition testIgnoreCase (pattern h : jsstring) : bool :=
  includes (asciiLower h) pattern.

Definition validateCSVFormat (event : HeaderEvent) : option bool :=
  match event with
  | Headers headers =>
      let hasDate := existsb (testIgnoreCase (lit "date")) headers in
      let hasDescription :=
        existsb (fun h => testIgnoreCase (lit "description") h
                          || testIgnoreCase (lit "memo") h
                          || testIgnoreCase (lit "details") h) headers in
      let hasAmount :=
        existsb (fun h => testIgnoreCase (lit "amount") h
                          || testIgnoreCase (lit "value") h) headers in
      Some (hasDate && hasDescription && hasAmount)
  | StreamError => Some false
  | NoEvent => None
  end.

(** The entry a row leaves in the error list, if it leaves one. *)
Definition rowFailure {A : Type} (o : outcome ParseRowError (option A))
  : option RowFailure :=
  match o with
  | Returned (Some _) => None
  | Returned None => Some InvalidDataFormat
  | Thrown e => Some (Message e)
  end.

(** The result of a batch followed by the result of another one, the row
    numbers of the second moved behind the first. *)
Definition appendResults (r1 r2 : ParseResult) : ParseResult :=
  {| transactions := transactions r1 ++ transactions r2;
     totalRows := (totalRows r1 + totalRows r2)%nat;
     successfulRows := (successfulRows r1 + successfulRows r2)%nat;
     failedRows := (failedRows r1 + failedRows r2)%nat;
     errors :=
       errors r1
       ++ List.map (fun e => ((totalRows r1 + e.1)%nat, e.2)) (errors r2) |}.


(** The result of a batch of no rows. *)
Definition emptyResult : ParseResult :=
  {| transactions := []; totalRows := 0%nat; successfulRows := 0%nat;
     failedRows := 0%nat; errors := [] |}.

(** The transaction a row contributes to the batch, if it contributes
    one. *)
Definition parsedOf `{Host} (row : Row) : option ParsedTransaction :=
  match parseRow row 1 with
  | Returned (Some t) => Some t
  | _ => None
  end.


(** A whole number of hundredths. *)
Definition wholeHundredths (x : Q) : Prop := exists z : Z, x == num z.



(** The monetary fields of the insights. *)
Definition monetaryFields (ins : ComputedInsights) : list Q :=
  [avgMonthlyIncome ins; totalIncome ins; totalInflow ins; totalOutflow ins;
   netCashFlow ins; groceriesSpend ins; entertainmentSpend ins;
   transportSpend ins; utilitiesSpend ins; healthcareSpend ins;
   shoppingSpend ins; diningSpend ins; otherSpend ins; avgDailyBalance ins;
   minBalance ins; maxBalance ins].


(** Three monthly salaries of 5000.00, on the first of January, February
    and March 2025. *)
Definition threeSalaries : Repository :=
  {| find := fun _ =>
       [stored 20089 CREDIT OTHER 500000 500000;
        stored 20120 CREDIT OTHER 500000 1000000;
        stored 20148 CREDIT OTHER 500000 1500000] |}.

(** A payment of 150.00 that overdraws the account by 20.00, followed by
    a charge of 25.00. *)
Definition overdrawnAccount : Repository :=
  {| find := fun _ =>
       [stored 20089 CREDIT OTHER 13000 13000;
        stored 20090 DEBIT OTHER 15000 (-2000);
        stored 20091 DEBIT FEES_CHARGES 2500 (-4500)] |}.

(** The flags that do not bear on the risk level of a statement rated
    LOW: overdraft incidents, of which a LOW statement has at most two,
    and volatile spending. *)
Definition minorFlag (flag : RiskFlag) : Prop :=
  match flag with
  | OverdraftIncidents n => (n <= 2)%nat
  | VolatileSpending => True
  | _ => False
  end.

(** The message [makeRequest] reports for an outcome of the POST. *)
Definition outcomeError (o : HttpOutcome) : option ErrorMessage :=
  match o with
  | Resolved _ _ => None
  | RejectedAxios e => Some (extractErrorMessage e)
  | RejectedOther m => Some (Text (default (lit "Unknown network error") m))
  end.

(** A result carries either the response or an error of the request
    itself, never both. *)
Definition requestResult (r : BureauRequestResult) : Prop :=
  if success r then is_Some (data r) /\ error r = None
  else data r = None /\ bureauReferenceId r = None
       /\ exists m : ErrorMessage,
            error r = Some m
            /\ forall (n : nat) (last : ErrorMessage),
                 m <> FailedAfterRetries n last.

(** The cap of [calculateBackoffDelay]. *)
Definition maxDelay : Q := 30000.

(** A bureau that is unavailable at every attempt. *)
Definition alwaysUnavailable : Oracle :=
  {| post := fun _ => RejectedAxios (statusError 503);
     latency := fun _ => 20;
     random := fun _ => 1 # 2 |}.

(** The delay before the jitter is added: [baseDelay * 2^(attempt - 1)]. *)
Definition exponentialDelay (retryDelayMs : Q) (attempt : nat) : Q :=
  retryDelayMs * inject_Z (2 ^ Z.of_nat (attempt - 1)).

(** * The services around the parser and the engine

    [StatementsService] and [InsightsService] work on three tables.  A
    table is the list of its rows in the order they were inserted;
    [findOne] returns the first row that meets its condition.  Primary
    keys come from a generator of unique identifiers, [uuid], indexed by
    the number of keys generated so far.  Decimal columns are read back
    as the numbers they hold, and the creation and update timestamps of
    the rows are left out. *)

Inductive HttpException : Type :=
| NotFoundException (message : jsstring)
| BadRequestException (message : jsstring).

Record Statement : Type := {
  st_id : jsstring;
  st_filename : jsstring;
  st_fileSize : Z;
  st_status : StatementStatus;
  st_transactionCount : nat;
  st_successfulTransactions : nat;
  st_failedTransactions : nat;
  st_userId : jsstring
}.

(** An insight row: its key, its statement, and the columns that
    [{ statementId, ...computedInsights }] fills. *)
Record Insight : Type := {
  in_id : jsstring;
  in_statementId : jsstring;
  in_computed : ComputedInsights
}.

Record Database : Type := {
  statementTable : list Statement;
  transactionTable : list Transaction;
  insightTable : list Insight;
  generated : nat
}.

#[global] Instance StatementStatus_eq_dec : EqDecision StatementStatus.
Proof. solve_decision. Defined.

(** [error.message] of the error that [computeInsights] throws. *)
Definition errorMessage (e : InsightsError) : jsstring :=
  match e with
  | NoTransactionsFound => lit "No transactions found for statement"
  end.

(** [s.endsWith(suffix)] *)
Definition endsWith (s suffix : jsstring) : bool :=
  startsWith (rev s) (rev suffix).

(** ** insights.service.ts *)

Module InsightsService.

Record InsightsResponseDto : Type := {
  id : jsstring;
  statementId : jsstring;
  incomeAnalysis : IncomeAnalysis;
  cashFlowAnalysis : CashFlowAnalysis;
  spendingBuckets : Buckets;
  riskAnalysis : RiskAnalysis;
  parsingStats : ParsingStats
}.

Definition mapToResponseDto (insight : Insight) : InsightsResponseDto :=
  let c := in_computed insight in
  {| id := in_id insight;
     statementId := in_statementId insight;
     incomeAnalysis :=
       {| ia_avgMonthlyIncome := avgMonthlyIncome c;
          ia_totalIncome := totalIncome c;
          ia_incomeTransactionCount := incomeTransactionCount c |};
     cashFlowAnalysis :=
       {| cf_totalInflow := totalInflow c;
          cf_totalOutflow := totalOutflow c;
          cf_netCashFlow := netCashFlow c |};
     spendingBuckets :=
       {| b_groceriesSpend := groceriesSpend c;
          b_entertainmentSpend := entertainmentSpend c;
          b_transportSpend := transportSpend c;
          b_utilitiesSpend := utilitiesSpend c;
          b_healthcareSpend := healthcareSpend c;
          b_shoppingSpend := shoppingSpend c;
          b_diningSpend := diningSpend c;
          b_otherSpend := otherSpend c |};
     riskAnalysis :=
       {| ra_overdraftCount := overdraftCount c;
          ra_bouncedPaymentCount := bouncedPaymentCount c;
          ra_avgDailyBalance := avgDailyBalance c;
          ra_minBalance := minBalance c;
          ra_maxBalance := maxBalance c;
          ra_riskLevel := riskLevel c;
          ra_riskFlags := riskFlags c |};
     parsingStats :=
       {| ps_parsingSuccessRate := parsingSuccessRate c;
          ps_totalTransactions := totalTransactions c;
          ps_successfulTransactions := successfulTransactions c;
          ps_failedTransactions := failedTransactions c |} |}.

(** [statementRepository.findOne({ where: { id: statementId, userId } })] *)
Definition findStatement (db : Database) (statementId userId : jsstring)
  : option Statement :=
  List.find (fun s => bool_decide (st_id s = statementId)
                      && bool_decide (st_userId s = userId))
    (statementTable db).

(** [insightRepository.findOne({ where: { statementId } })] *)
Definition findInsight (db : Database) (statementId : jsstring)
  : option Insight :=
  List.find (fun i => bool_decide (in_statementId i = statementId))
    (insightTable db).

Section Service.

Context (uuid : nat -> jsstring).

(** [insightRepository.save(insight)]: the row gets its key and is
    appended to the table. *)
Definition saveInsight (db : Database) (statementId : jsstring)
  (computedInsights : ComputedInsights) : Insight * Database :=
  let insight :=
    {| in_id := uuid (generated db);
       in_statementId := statementId;
       in_computed := computedInsights |} in
  (insight,
   {| statementTable := statementTable db;
      transactionTable := transactionTable db;
      insightTable := insightTable db ++ [insight];
      generated := S (generated db) |}).

Definition runInsights (db : Database) (statementId userId : jsstring)
  : outcome HttpException InsightsResponseDto * Database :=
  match findStatement db statementId userId with
  | None => (Thrown (NotFoundException (lit "Statement not found")), db)
  | Some statement =>
      if negb (bool_decide (st_status statement = PROCESSED)) then
        (Thrown (BadRequestException
                   (lit "Statement must be processed before computing insights")),
         db)
      else
        match findInsight db statementId with
        | Some insight => (Returned (mapToResponseDto insight), db)
        | None =>
            match computeInsights (repositoryOf (transactionTable db))
                    statementId with
            | Returned computedInsights =>
                let '(savedInsight, db') :=
                  saveInsight db statementId computedInsights in
                (Returned (mapToResponseDto savedInsight), db')
            | Thrown error =>
                (Thrown (BadRequestException
                           (lit "Failed to compute insights: "
                            ++ errorMessage error)), db)
            end
        end
  end.

End Service.

End InsightsService.

(** ** statements.service.ts: the upload *)

Module StatementsService.

(** An uploaded file.  [headerEvent] and [rows] are what the CSV library
    makes of [file.buffer]: the event that settles the header check, and
    the rows it emits. *)
Record File : Type := {
  mimetype : jsstring;
  originalname : jsstring;
  size : Z;
  headerEvent : HeaderEvent;
  rows : list Row
}.

Record UploadResponseDto : Type := {
  id : jsstring;
  filename : jsstring;
  fileSize : Z;
  status : StatementStatus;
  transactionCount : nat;
  successfulTransactions : nat;
  failedTransactions : nat
}.

Definition maxSize : Z := 10 * 1024 * 1024.

Section Service.

Context `{Host} (uuid : nat -> jsstring).

(** [uploadStatement] up to the start of the background computation of
    the insights.  [None] is a call that never returns: the header check
    of a file that yields neither headers nor an error is never settled.
    Every branch of [processStatementFromBuffer] writes into the
    statement row the status it resolves with, and the counts only when
    that is PROCESSED; the counts of a FAILED statement keep their
    default of 0, which is also what the result reports. *)
Definition uploadStatement (db : Database) (file : File) (userId : jsstring)
  : option (outcome HttpException UploadResponseDto * Database) :=
  if negb (includes (mimetype file) (lit "csv"))
     && negb (endsWith (originalname file) (lit ".csv"))
  then Some (Thrown (BadRequestException (lit "Only CSV files are allowed")),
             db)
  else if (maxSize <? size file)%Z
  then Some (Thrown (BadRequestException
                       (lit "File size too large. Maximum 10MB allowed")),
             db)
  else
    match validateCSVFormat (headerEvent file) with
    | None => None
    | Some false =>
        Some (Thrown (BadRequestException
                (lit "Invalid CSV format. Required columns: date, description, amount")),
              db)
    | Some true =>
        let savedId := uuid (generated db) in
        let '(processResult, table) :=
          processStatementFromBuffer (transactionTable db) savedId
            (rows file) in
        let statement :=
          {| st_id := savedId;
             st_filename := originalname file;
             st_fileSize := size file;
             st_status := pr_status processResult;
             st_transactionCount := pr_transactionCount processResult;
             st_successfulTransactions :=
               pr_successfulTransactions processResult;
             st_failedTransactions := pr_failedTransactions processResult;
             st_userId := userId |} in
        Some (Returned
                {| id := savedId;
                   filename := originalname file;
                   fileSize := size file;
                   status := pr_status processResult;
                   transactionCount := pr_transactionCount processResult;
                   successfulTransactions :=
                     pr_successfulTransactions processResult;
                   failedTransactions :=
                     pr_failedTransactions processResult |},
              {| statementTable := statementTable db ++ [statement];
                 transactionTable := table;
                 insightTable := insightTable db;
                 generated := S (generated db) |})
    end.


End Service.

End StatementsService.

(** Sample data of the services. *)
Definition sampleUuid (n : nat) : jsstring := lit "id-" ++ [N.of_nat (48 + n)].

Definition emptyDatabase : Database :=
  {| statementTable := []; transactionTable := []; insightTable := [];
     generated := 0 |}.

Definition sampleFile : StatementsService.File :=
  {| StatementsService.mimetype := lit "text/csv";
     StatementsService.originalname := lit "january.csv";
     StatementsService.size := 64;
     StatementsService.headerEvent :=
       Headers (List.map lit ["date"; "description"; "amount"]%string);
     StatementsService.rows := twoRowFile |}.

(** The database after [sampleFile] has been uploaded by [user-1]. *)
Definition afterUpload : Database :=
  match StatementsService.uploadStatement (H := asciiHost) sampleUuid
          emptyDatabase sampleFile (lit "user-1") with
  | Some (_, db) => db
  | None => emptyDatabase
  end.

(** Two databases that hold the same statements and the same insights. *)
Definition sameInsights (db1 db2 : Database) : Prop :=
  statementTable db1 = statementTable db2
  /\ insightTable db1 = insightTable db2.

(** * The bureau's side

    What the client talks to: the mock bureaus of the repository, which
    derive a credit record from the email address of the request, and
    [mapRiskBand] of [BureauService], which reads the risk band of a
    response. *)

(** ToInt32: the value of a number as a signed 32-bit integer. *)
Definition toInt32 (z : Z) : Z := ((z + 2 ^ 31) mod 2 ^ 32 - 2 ^ 31)%Z.

(** [a << n] and [a & b] on numbers. *)
Definition shiftLeft (a n : Z) : Z := toInt32 (toInt32 a * 2 ^ n)%Z.

Definition bitwiseAnd (a b : Z) : Z := Z.land (toInt32 a) (toInt32 b).

(** [hashEmail] of the mock service, and the [reduce] of
    [generateMockCreditData], which is the same loop:
    [hash = (hash << 5) - hash + char; hash = hash & hash], and
    [Math.abs(hash)] at the end.  The numbers stay far below 2^53, so
    the additions are exact. *)
Definition hashStep (hash : Z) (char : N) : Z :=
  let hash := (shiftLeft hash 5 - hash + Z.of_N char)%Z in
  bitwiseAnd hash hash.

Definition hashEmail (email : jsstring) : Z :=
  Z.abs (fold_left hashStep email 0%Z).

(** The polynomial in 31 that the loop computes, without the wrapping. *)
Definition polynomial31 (email : jsstring) : Z :=
  fold_left (fun a c => (31 * a + Z.of_N c)%Z) email 0%Z.

(** ** mock-bureau.service.ts *)

Module MockBureauService.

Definition riskBands : list jsstring := List.map lit ["A"; "B"; "C"; "D"; "E"]%string.

Definition generateScore (emailHash : Z) : Z :=
  let baseScore := (300 + Z.rem emailHash 550)%Z in
  Z.min 850 (Z.max 300 baseScore).

(** [this.riskBands[index]]; an index outside the array gives
    [undefined]. *)
Definition generateRiskBand (emailHash : Z) : option jsstring :=
  let index := Z.rem emailHash (Z.of_nat (length riskBands)) in
  if (index <? 0)%Z then None else riskBands !! Z.to_nat index.

Definition generateEnquiries (emailHash : Z) : Z := Z.rem emailHash 11.

Definition generateDefaults (emailHash : Z) : Z := Z.rem emailHash 4.

Definition generateOpenLoans (emailHash : Z) : Z := Z.rem emailHash 9.

Definition generateTradeLines (emailHash : Z) : Z := (1 + Z.rem emailHash 15)%Z.

End MockBureauService.

(** ** The mock bureau server *)

Module MockBureauServer.

Section Server.

(** [Date.now()], the decimal form of a number in a template string, and
    [new Date().toISOString()]. *)
Context (now : Z) (numberToString : Z -> jsstring) (isoString : jsstring).

Definition generateMockCreditData (email : jsstring) : BureauData :=
  let seed := hashEmail email in
  let score := (300 + Z.rem seed 551)%Z in
  let riskBand :=
    if (800 <=? score)%Z then lit "excellent"
    else if (740 <=? score)%Z then lit "good"
    else if (670 <=? score)%Z then lit "fair"
    else if (580 <=? score)%Z then lit "poor"
    else lit "very_poor" in
  {| score := score;
     risk_band := riskBand;
     enquiries_6m := Z.rem seed 8;
     defaults := Z.rem seed 4;
     open_loans := Z.rem seed 6;
     trade_lines := (5 + Z.rem seed 16)%Z;
     reference_id :=
       lit "BUREAU_" ++ numberToString now ++ lit "_" ++ numberToString seed;
     timestamp := isoString |}.

End Server.

End MockBureauServer.

(** ** bureau.service.ts *)

Module BureauService.

Inductive RiskBand : Type := EXCELLENT | GOOD | FAIR | POOR | VERY_POOR.

(** The properties that an object literal inherits from
    [Object.prototype]; each is a function or an object, and so truthy. *)
Definition inheritedProperties : list jsstring :=
  List.map lit
    ["constructor"; "hasOwnProperty"; "isPrototypeOf";
     "propertyIsEnumerable"; "toLocaleString"; "toString"; "valueOf";
     "__defineGetter__"; "__defineSetter__"; "__lookupGetter__";
     "__lookupSetter__"; "__proto__"]%string.

Definition mapping : list (jsstring * RiskBand) :=
  [(lit "excellent", EXCELLENT); (lit "good", GOOD); (lit "fair", FAIR);
   (lit "poor", POOR); (lit "very_poor", VERY_POOR)].

(** [mapping[riskBandString] || RiskBand.VERY_POOR].  [None] is the
    lookup of an inherited property, whose value is returned as it is
    and is no risk band. *)
Definition mapRiskBand (riskBandString : jsstring) : option RiskBand :=
  match List.find (fun kv => bool_decide (kv.1 = riskBandString)) mapping with
  | Some kv => Some kv.2
  | None =>
      if bool_decide (riskBandString ∈ inheritedProperties) then None
      else Some VERY_POOR
  end.

#[global] Instance RiskBand_eq_dec : EqDecision RiskBand.
Proof. solve_decision. Defined.

Inductive BureauStatus : Type := PENDING | SUCCESS | FAILED | RETRYING.

#[global] Instance BureauStatus_eq_dec : EqDecision BureauStatus.
Proof. solve_decision. Defined.

(** The messages of the service: the error of the client as
    [result.error] and as it prints in a template string, the message of
    a [TypeError], and the template [`Credit check failed: ${...}`]. *)
Inductive Message : Type :=
| ClientError (error : option ErrorMessage)
| TypeErrorMessage (message : jsstring)
| CreditCheckFailed (cause : Message).

Inductive Exception : Type :=
| NotFoundException (message : jsstring)
| BadRequestException (message : Message).

Record BureauCheckDto : Type := {
  c_email : jsstring;
  c_user_id : option jsstring;
  c_additional_data : option jsstring
}.

(** A row of [bureau_reports]; a nullable column that holds no value is
    [None]. *)
Record BureauReport : Type := {
  br_id : jsstring;
  br_bureauReferenceId : option jsstring;
  br_status : BureauStatus;
  br_score : option Z;
  br_riskBand : option RiskBand;
  br_enquiries6m : option Z;
  br_defaults : option Z;
  br_openLoans : option Z;
  br_tradeLines : option Z;
  br_httpStatusCode : option Z;
  br_responseTime : option Q;
  br_retryCount : nat;
  br_errorMessage : option Message;
  br_userId : jsstring
}.

Record BureauResponseDto : Type := {
  dto_id : jsstring;
  dto_bureauReferenceId : jsstring;
  dto_status : BureauStatus;
  dto_score : Z;
  dto_riskBand : RiskBand;
  dto_enquiries6m : Z;
  dto_defaults : Z;
  dto_openLoans : Z;
  dto_tradeLines : Z;
  dto_httpStatusCode : Z;
  dto_responseTime : Q;
  dto_retryCount : nat;
  dto_errorMessage : option Message
}.

Record Database : Type := {
  users : list jsstring;
  reports : list BureauReport;
  generated : nat
}.

(** [report.errorMessage || undefined]: an empty message is dropped. *)
Definition orUndefined (m : option Message) : option Message :=
  match m with
  | Some (ClientError (Some (Text []))) | Some (TypeErrorMessage []) => None
  | m => m
  end.

Definition mapToResponseDto (report : BureauReport) : BureauResponseDto :=
  {| dto_id := br_id report;
     dto_bureauReferenceId := default [] (br_bureauReferenceId report);
     dto_status := br_status report;
     dto_score := default 0%Z (br_score report);
     dto_riskBand := default VERY_POOR (br_riskBand report);
     dto_enquiries6m := default 0%Z (br_enquiries6m report);
     dto_defaults := default 0%Z (br_defaults report);
     dto_openLoans := default 0%Z (br_openLoans report);
     dto_tradeLines := default 0%Z (br_tradeLines report);
     dto_httpStatusCode := default 0%Z (br_httpStatusCode report);
     dto_responseTime := default 0 (br_responseTime report);
     dto_retryCount := br_retryCount report;
     dto_errorMessage := orUndefined (br_errorMessage report) |}.

(** [bureauReportRepository.findOne({ where: { id } })] and
    [bureauReportRepository.update(id, ...)]. *)
Definition findReport (db : Database) (reportId : jsstring)
  : option BureauReport :=
  List.find (fun r => bool_decide (br_id r = reportId)) (reports db).

Definition updateReport (db : Database) (reportId : jsstring)
  (change : BureauReport -> BureauReport) : Database :=
  {| users := users db;
     reports :=
       List.map (fun r => if bool_decide (br_id r = reportId) then change r
                          else r) (reports db);
     generated := generated db |}.

(** The update of a successful check; a reference that the response
    lacks leaves the column as it is. *)
Definition succeed (result : BureauRequestResult) (body : BureauApiResponse)
  (d : BureauData) (riskBand : RiskBand) (r : BureauReport) : BureauReport :=
  {| br_id := br_id r;
     br_bureauReferenceId :=
       match bureauReferenceId result with
       | Some reference => Some reference
       | None => br_bureauReferenceId r
       end;
     br_status := SUCCESS;
     br_score := Some (score d);
     br_riskBand := Some riskBand;
     br_enquiries6m := Some (enquiries_6m d);
     br_defaults := Some (defaults d);
     br_openLoans := Some (open_loans d);
     br_tradeLines := Some (trade_lines d);
     br_httpStatusCode := Some (httpStatusCode result);
     br_responseTime := Some (responseTime result);
     br_retryCount := retryCount result;
     br_errorMessage := br_errorMessage r;
     br_userId := br_userId r |}.

(** The update of a check that the client reports as failed. *)
Definition fail (result : BureauRequestResult) (r : BureauReport)
  : BureauReport :=
  {| br_id := br_id r;
     br_bureauReferenceId := br_bureauReferenceId r;
     br_status := FAILED;
     br_score := br_score r;
     br_riskBand := br_riskBand r;
     br_enquiries6m := br_enquiries6m r;
     br_defaults := br_defaults r;
     br_openLoans := br_openLoans r;
     br_tradeLines := br_tradeLines r;
     br_httpStatusCode := Some (httpStatusCode result);
     br_responseTime := Some (responseTime result);
     br_retryCount := retryCount result;
     br_errorMessage :=
       match error result with
       | Some e => Some (ClientError (Some e))
       | None => br_errorMessage r
       end;
     br_userId := br_userId r |}.

(** The update of the [catch] block. *)
Definition failWith (message : Message) (r : BureauReport) : BureauReport :=
  {| br_id := br_id r;
     br_bureauReferenceId := br_bureauReferenceId r;
     br_status := FAILED;
     br_score := br_score r;
     br_riskBand := br_riskBand r;
     br_enquiries6m := br_enquiries6m r;
     br_defaults := br_defaults r;
     br_openLoans := br_openLoans r;
     br_tradeLines := br_tradeLines r;
     br_httpStatusCode := br_httpStatusCode r;
     br_responseTime := br_responseTime r;
     br_retryCount := br_retryCount r;
     br_errorMessage := Some message;
     br_userId := br_userId r |}.

(** The [catch] block of [checkCredit]: a report still PENDING is
    marked FAILED with the message of the error; a
    [BadRequestException] is thrown on as it is, any other error
    wrapped in one. *)
Definition catchBlock (db : Database) (reportId : jsstring)
  (message : Message) (isBadRequest : bool)
  : outcome Exception BureauResponseDto * Database :=
  let db' :=
    match findReport db reportId with
    | Some currentReport =>
        if bool_decide (br_status currentReport = PENDING)
        then updateReport db reportId (failWith message)
        else db
    | None => db
    end in
  (Thrown (BadRequestException
             (if isBadRequest then message else CreditCheckFailed message)),
   db').

(** The messages of the two [TypeError]s that the [try] block can
    throw, as the engine of Node words them. *)
Definition undefinedRiskBand : jsstring :=
  lit "Cannot read properties of undefined (reading 'risk_band')".

Definition nullReport : jsstring :=
  lit "Cannot read properties of null (reading 'id')".

Section Service.

Context (uuid : nat -> jsstring).
Context (oracle : Oracle) (maxRetries : nat) (retryDelayMs : Q).

(** [this.bureauHttpClient.checkCredit] *)
Definition bureauHttpClient_checkCredit
  : BureauApiRequest -> M BureauRequestResult :=
  checkCredit oracle maxRetries retryDelayMs.

(** [checkCredit] of the service.  The repositories are taken to
    work.  [None] is the one case that is left out: a response whose
    risk band names an inherited property, for which the update is
    handed a value that is no risk band. *)
Definition checkCredit (db : Database) (bureauCheckDto : BureauCheckDto)
  (userId : jsstring) (w : World)
  : option (outcome Exception BureauResponseDto * Database * World) :=
  if negb (bool_decide (userId ∈ users db)) then
    Some (Thrown (NotFoundException (lit "User not found")), db, w)
  else
    let savedId := uuid (generated db) in
    let bureauReport :=
      {| br_id := savedId; br_bureauReferenceId := None;
         br_status := PENDING; br_score := None; br_riskBand := None;
         br_enquiries6m := None; br_defaults := None; br_openLoans := None;
         br_tradeLines := None; br_httpStatusCode := None;
         br_responseTime := None; br_retryCount := 0;
         br_errorMessage := None; br_userId := userId |} in
    let db1 :=
      {| users := users db; reports := reports db ++ [bureauReport];
         generated := S (generated db) |} in
    let apiRequest :=
      {| email := c_email bureauCheckDto;
         user_id :=
           Some (default userId (truthy (c_user_id bureauCheckDto)));
         additional_data := c_additional_data bureauCheckDto |} in
    let '(result, w') :=
      bureauHttpClient_checkCredit apiRequest w in
    match (if success result then data result else None) with
    | Some body =>
        match api_data body with
        | None =>
            Some (catchBlock db1 savedId (TypeErrorMessage undefinedRiskBand)
                    false, w')
        | Some d =>
            match mapRiskBand (risk_band d) with
            | None => None
            | Some riskBand =>
                let db2 :=
                  updateReport db1 savedId (succeed result body d riskBand) in
                match findReport db2 savedId with
                | Some updatedReport =>
                    Some (Returned (mapToResponseDto updatedReport), db2, w')
                | None =>
                    Some (catchBlock db2 savedId (TypeErrorMessage nullReport)
                            false, w')
                end
            end
        end
    | None =>
        let db2 := updateReport db1 savedId (fail result) in
        Some (catchBlock db2 savedId
                (CreditCheckFailed (ClientError (error result))) true, w')
    end.

End Service.

End BureauService.

(** The band that goes with a score at the mock bureau server. *)
Definition bandOfScore (score : Z) : BureauService.RiskBand :=
  if (800 <=? score)%Z then BureauService.EXCELLENT
  else if (740 <=? score)%Z then BureauService.GOOD
  else if (670 <=? score)%Z then BureauService.FAIR
  else if (580 <=? score)%Z then BureauService.POOR
  else BureauService.VERY_POOR.






(** Three transactions of one day, the overdrawing payment right before
    the charge, and the same three with the salary in between. *)
Definition chargeAfterPayment : Repository :=
  {| find := fun _ =>
       [stored 20089 DEBIT OTHER 150000 (-20000);
        stored 20089 DEBIT FEES_CHARGES 2500 (-22500);
        stored 20089 CREDIT OTHER 300000 277500] |}.

Definition salaryInBetween : Repository :=
  {| find := fun _ =>
       [stored 20089 DEBIT OTHER 150000 (-20000);
        stored 20089 CREDIT OTHER 300000 277500;
        stored 20089 DEBIT FEES_CHARGES 2500 (-22500)] |}.

(** * Properties *)

Example parseFloat_plain :
  match parseFloat (lit "-120.50") with
  | Finite q => (q == - (1205 # 10))%Q
  | _ => False
  end.
Proof. vm_compute. reflexivity. Qed.

Example isoDate_2025 : isoDate (lit "2025-01-01") = Some 1735689600000%Z.
Proof. vm_compute. reflexivity. Qed.

(** ** Field resolution *)

Lemma usable_None (row : Row) (field : jsstring) :
  usable (row !! field) = None <-> Unusable row field.
Proof.
  unfold Unusable. destruct (row !! field) as [[|[|c s]]|]; simpl; split;
    intros Hu; try done; try (by left); try (by right; left);
    try (by right; right).
  destruct Hu as [Hu|[Hu|Hu]]; discriminate.
Qed.

Lemma usable_Some (row : Row) (field v : jsstring) :
  usable (row !! field) = Some v <-> row !! field = Some (Str v) /\ v <> [].
Proof.
  destruct (row !! field) as [[|[|c s]]|]; simpl; split.
  all: try (intros [Heq Hne]); try (intros Heq); try discriminate.
  - injection Heq as <-. done.
  - injection Heq as <-. done.
  - injection Heq as <-. done.
Qed.

Lemma getFieldValue_skip (row : Row) (pre rest : list jsstring) :
  Forall (Unusable row) pre ->
  getFieldValue row (pre ++ rest) = getFieldValue row rest.
Proof.
  induction 1 as [|g pre Hg _ IH]; [done|].
  simpl. apply usable_None in Hg. by rewrite Hg.
Qed.

Lemma getFieldValue_first (row : Row) (pre post : list jsstring)
  (f v : jsstring) :
  Forall (Unusable row) pre ->
  row !! f = Some (Str v) -> v <> [] ->
  getFieldValue row (pre ++ f :: post) = Some (trim v).
Proof.
  intros Hpre Hf Hv. rewrite getFieldValue_skip by done. simpl.
  assert (usable (row !! f) = Some v) as -> by by apply usable_Some.
  done.
Qed.

Lemma getFieldValue_none (row : Row) (fields : list jsstring) :
  Forall (Unusable row) fields <-> getFieldValue row fields = None.
Proof.
  induction fields as [|g fields IH]; simpl.
  - split; [done | constructor].
  - destruct (usable (row !! g)) as [s|] eqn:Hg.
    + split; [|done]. intros Hall. apply Forall_cons_1 in Hall as [Hu _].
      apply usable_None in Hu. congruence.
    + rewrite <- IH. apply usable_None in Hg. split.
      * intros Hall. by apply Forall_cons_1 in Hall as [_ ?].
      * intros Hall. by constructor.
Qed.

Lemma not_resolved (v : option jsstring) :
  ~ resolved v <-> v = None \/ v = Some [].
Proof.
  unfold resolved. destruct v as [[|c s]|]; split; intros Hn.
  - by right.
  - intros (s' & [= <-] & Hne). done.
  - exfalso. apply Hn. by eexists.
  - destruct Hn as [?|?]; discriminate.
  - by left.
  - intros (s' & ? & _). discriminate.
Qed.

Section ParserFacts.

Context `{Host}.

Lemma parseRow_unresolved (row : Row) (rowNumber : nat) :
  ~ resolved (getFieldValue row dateFields)
  \/ ~ resolved (getFieldValue row descriptionFields)
  \/ ~ resolved (getFieldValue row amountFields) ->
  parseRow row rowNumber = Returned None.
Proof.
  unfold parseRow. rewrite !not_resolved.
  intros [[-> | ->] | [[-> | ->] | [-> | ->]]]; try done;
    repeat case_match; done.
Qed.

(** What [parseRow] does once the three required fields are resolved. *)
Lemma parseRow_resolved (row : Row) (rowNumber : nat)
  (dateStr description amountStr : jsstring) :
  getFieldValue row dateFields = Some dateStr -> dateStr <> [] ->
  getFieldValue row descriptionFields = Some description ->
  description <> [] ->
  getFieldValue row amountFields = Some amountStr -> amountStr <> [] ->
  parseRow row rowNumber =
    match Date_getTime dateStr with
    | None => Thrown (InvalidDateFormat dateStr)
    | Some date =>
        let amount := parseFloat (stripCurrency amountStr) in
        if isNaN amount then Thrown (InvalidAmountFormat amountStr)
        else
          let type := if geZero amount then CREDIT else DEBIT in
          Returned (Some {|
            pt_date := date;
            pt_description := trim description;
            pt_amount := Math_abs amount;
            pt_balance := parseBalance (getFieldValue row balanceFields);
            pt_type := type;
            pt_category := cr_category (categorizeTransaction description);
            pt_isIncome :=
              bool_decide (type = CREDIT) && isIncomeTransaction description;
            pt_categoryConfidence :=
              cr_confidence (categorizeTransaction description);
            pt_rawData := JSON_stringify row |})
    end.
Proof.
  intros Hd Hdne Hs Hsne Ha Hane. unfold parseRow. rewrite Hd, Hs, Ha.
  destruct dateStr; [done|]. destruct description; [done|].
  destruct amountStr; [done|]. reflexivity.
Qed.

End ParserFacts.

(** C6 (amended).  For every row and every alias list, [getFieldValue]
    returns the white-space-trimmed value of the first alias column, in
    list order, that is present, non-null and non-empty, and nothing when
    there is no such column; [parseRow] resolves date, description, amount
    and balance through the four fixed alias lists, and returns null,
    without throwing, whenever date, description or amount is not resolved
    (or resolves to the empty string once trimmed). *)
Theorem parseRow_field_resolution `{Host} (row : Row) (rowNumber : nat) :
  (forall (fields pre post : list jsstring) (f v : jsstring),
      fields = pre ++ f :: post ->
      Forall (Unusable row) pre ->
      row !! f = Some (Str v) -> v <> [] ->
      getFieldValue row fields = Some (trim v))
  /\ (forall fields : list jsstring,
         Forall (Unusable row) fields -> getFieldValue row fields = None)
  /\ (~ resolved (getFieldValue row dateFields)
      \/ ~ resolved (getFieldValue row descriptionFields)
      \/ ~ resolved (getFieldValue row amountFields) ->
      parseRow row rowNumber = Returned None)
  /\ (forall t : ParsedTransaction,
         parseRow row rowNumber = Returned (Some t) ->
         exists dateStr description amountStr : jsstring,
           getFieldValue row dateFields = Some dateStr
           /\ Date_getTime dateStr = Some (pt_date t)
           /\ getFieldValue row descriptionFields = Some description
           /\ pt_description t = trim description
           /\ getFieldValue row amountFields = Some amountStr
           /\ pt_amount t = Math_abs (parseFloat (stripCurrency amountStr))
           /\ pt_balance t = parseBalance (getFieldValue row balanceFields)).
Proof.
  split; [|split; [|split]].
  - intros fields pre post f v -> Hpre Hf Hv. by apply getFieldValue_first.
  - intros fields Hall. by apply getFieldValue_none.
  - apply parseRow_unresolved.
  - intros t Ht.
    destruct (getFieldValue row dateFields) as [[|c1 d]|] eqn:Hd;
      try (rewrite parseRow_unresolved in Ht;
           [discriminate | left; apply not_resolved; rewrite Hd; by auto]).
    destruct (getFieldValue row descriptionFields) as [[|c2 s]|] eqn:Hs;
      try (rewrite parseRow_unresolved in Ht;
           [discriminate
           | right; left; apply not_resolved; rewrite Hs; by auto]).
    destruct (getFieldValue row amountFields) as [[|c3 a]|] eqn:Ha;
      try (rewrite parseRow_unresolved in Ht;
           [discriminate
           | right; right; apply not_resolved; rewrite Ha; by auto]).
    rewrite (parseRow_resolved row rowNumber (c1 :: d) (c2 :: s) (c3 :: a))
      in Ht by done.
    destruct (Date_getTime (c1 :: d)) as [date|] eqn:Hdate; [|discriminate].
    cbv zeta in Ht.
    destruct (isNaN (parseFloat (stripCurrency (c3 :: a)))); [discriminate|].
    injection Ht as <-. by exists (c1 :: d), (c2 :: s), (c3 :: a).
Qed.

(** The theorem at [secondAliasRow]: [date] is empty, so [Date] wins, and
    its value comes back trimmed. *)
Lemma parseRow_field_resolution_witness :
  getFieldValue secondAliasRow dateFields = Some (trim (lit "2025-01-02 ")).
Proof.
  apply (proj1 (parseRow_field_resolution (H := asciiHost) secondAliasRow 1)
           dateFields [lit "date"]
           (List.map lit ["DATE"; "transaction_date"; "TransactionDate"]%string)
           (lit "Date") (lit "2025-01-02 ")).
  - reflexivity.
  - constructor; [|constructor]. right; right. vm_compute. reflexivity.
  - vm_compute. reflexivity.
  - discriminate.
Defined.

(** C6, as stated, fails on a padded cell: the [date] column is present,
    non-null and non-empty, yet the field is not resolved to its value
    but to the trimmed one. *)
Lemma getFieldValue_not_raw_value :
  paddedRow !! lit "date" = Some (Str (lit " 2025-01-01"))
  /\ lit " 2025-01-01" <> []
  /\ getFieldValue paddedRow dateFields = Some (lit "2025-01-01")
  /\ getFieldValue paddedRow dateFields <> Some (lit " 2025-01-01").
Proof.
  split; [vm_compute; reflexivity|]. split; [discriminate|].
  split; [vm_compute; reflexivity|]. vm_compute. discriminate.
Qed.

(** A date cell of blanks is present, non-null and non-empty; it
    resolves to the empty string, and the row is skipped, not failed on
    its date. *)
Example parseRow_blank_date :
  parseRow (H := asciiHost)
    (mkRow [("date", "   "); ("description", "Coffee");
            ("amount", "-3.20")]%string) 1
  = Returned None.
Proof. vm_compute. reflexivity. Qed.

(** ** Amount parsing *)









(** Currency symbol and thousands separator are stripped; [Refund]
    contains the keyword [fund]. *)
Example parseRow_refund :
  decimalValue (stripCurrency (lit "-120.50")) == - (1205 # 10)
  /\ parseRow (H := asciiHost)
       (mkRow [("date", "2025-01-02"); ("description", "Refund");
               ("amount", "$1,250.00")]%string) 1
     = Returned (Some {|
         pt_date := 1735776000000;
         pt_description := lit "Refund";
         pt_amount := parseFloat (lit "1250.00");
         pt_balance := Finite 0;
         pt_type := CREDIT;
         pt_category := INVESTMENT;
         pt_isIncome := true;
         pt_categoryConfidence := 8 # 10;
         pt_rawData := [] |}).
Proof. split; vm_compute; reflexivity. Qed.


(** ** The categorizer *)

Section CategorizerFacts.

Context `{Host}.

Lemma matchKeywords_none (l : jsstring) (category : TransactionCategory)
  (keywords : list jsstring) :
  Forall (fun keyword => hits l keyword = false) keywords ->
  matchKeywords l category keywords = None.
Proof.
  induction 1 as [|keyword keywords Hmiss _ IH]; [done|].
  simpl. unfold hits in Hmiss. by rewrite Hmiss.
Qed.

Lemma matchKeywords_first (l : jsstring) (category : TransactionCategory)
  (earlier later : list jsstring) (keyword : jsstring) :
  Forall (fun keyword => hits l keyword = false) earlier ->
  hits l keyword = true ->
  matchKeywords l category (earlier ++ keyword :: later)
  = Some {| cr_category := category;
            cr_confidence :=
              if bool_decide (l = toLowerCase keyword) then 1 else 8 # 10 |}.
Proof.
  intros Hearlier Hhit.
  induction Hearlier as [|k earlier Hmiss _ IH]; simpl.
  - unfold hits in Hhit. by rewrite Hhit.
  - unfold hits in Hmiss. by rewrite Hmiss.
Qed.

Lemma matchCategories_none (l : jsstring)
  (entries : list (TransactionCategory * list jsstring)) :
  Forall (missesEntry l) entries -> matchCategories l entries = None.
Proof.
  induction 1 as [|[category keywords] entries Hmiss _ IH]; [done|].
  simpl. by rewrite matchKeywords_none.
Qed.

Lemma matchCategories_first (l : jsstring)
  (before after : list (TransactionCategory * list jsstring))
  (category : TransactionCategory) (keywords : list jsstring)
  (r : CategoryResult) :
  Forall (missesEntry l) before ->
  matchKeywords l category keywords = Some r ->
  matchCategories l (before ++ (category, keywords) :: after) = Some r.
Proof.
  intros Hbefore Hr.
  induction Hbefore as [|[c ks] before Hmiss _ IH]; simpl.
  - by rewrite Hr.
  - by rewrite matchKeywords_none.
Qed.

(** C7.  [categorizeTransaction] lower-cases the description and scans
    the category table in table order.  At the first category with a
    keyword occurring in the lower-cased description it returns that
    category, with confidence 1.0 when the lower-cased description equals
    the (first) matching keyword of that category and 0.8 otherwise, later
    categories playing no part; when no keyword of any category occurs it
    returns OTHER with confidence 0.1. *)
Theorem categorizeTransaction_first_match (description : jsstring) :
  let lower := toLowerCase description in
  (forall (before after : list (TransactionCategory * list jsstring))
          (category : TransactionCategory)
          (earlier later : list jsstring) (keyword : jsstring),
      categoryKeywords
        = before ++ (category, earlier ++ keyword :: later) :: after ->
      Forall (missesEntry lower) before ->
      Forall (fun k => hits lower k = false) earlier ->
      hits lower keyword = true ->
      categorizeTransaction description
      = {| cr_category := category;
           cr_confidence :=
             if bool_decide (lower = toLowerCase keyword)
             then 1 else 8 # 10 |})
  /\ (Forall (missesEntry lower) categoryKeywords ->
      categorizeTransaction description
      = {| cr_category := OTHER; cr_confidence := 1 # 10 |}).
Proof.
  intros lower. split.
  - intros before after category earlier later keyword Htable Hbefore
      Hearlier Hhit.
    unfold categorizeTransaction. fold lower. rewrite Htable.
    erewrite matchCategories_first; [reflexivity | done |].
    by apply matchKeywords_first.
  - intros Hall. unfold categorizeTransaction. fold lower.
    by rewrite matchCategories_none.
Qed.

End CategorizerFacts.

(** The theorem at "Uber Ride": two categories are passed over, and the
    first keyword of TRANSPORT occurs in the description without being
    all of it. *)
Lemma categorizeTransaction_first_match_witness :
  categorizeTransaction (H := asciiHost) (lit "Uber Ride")
  = {| cr_category := TRANSPORT; cr_confidence := 8 # 10 |}.
Proof.
  apply (proj1 (categorizeTransaction_first_match (H := asciiHost)
                  (lit "Uber Ride"))
           (firstn 2 categoryKeywords) (skipn 3 categoryKeywords)
           TRANSPORT []
           (List.map lit ["taxi"; "bus"; "train"; "fuel"; "petrol"; "parking";
                          "transport"]%string)
           (lit "uber")).
  - reflexivity.
  - repeat constructor.
  - constructor.
  - vm_compute. reflexivity.
Defined.

Example categorize_exact_keyword :
  categorizeTransaction (H := asciiHost) (lit "Netflix")
  = {| cr_category := ENTERTAINMENT; cr_confidence := 1 |}.
Proof. vm_compute. reflexivity. Qed.

Example categorize_no_match :
  categorizeTransaction (H := asciiHost) (lit "Salary Payment")
  = {| cr_category := OTHER; cr_confidence := 1 # 10 |}.
Proof. vm_compute. reflexivity. Qed.

(** Within a category the first matching keyword decides: "service
    charge" is itself a keyword of FEES_CHARGES, but "charge" comes
    earlier in the list and is only a part of the description. *)
Example categorize_earlier_keyword :
  categorizeTransaction (H := asciiHost) (lit "service charge")
  = {| cr_category := FEES_CHARGES; cr_confidence := 8 # 10 |}.
Proof. vm_compute. reflexivity. Qed.

(** ** Arithmetic on hundredths *)

Lemma orZero_eq (x : Q) : orZero x == x.
Proof.
  unfold orZero. destruct (Qeq_bool x 0) eqn:Hx; [|reflexivity].
  apply Qeq_bool_iff in Hx. by rewrite Hx.
Qed.

Lemma num_plus (a b : Z) : num a + num b == num (a + b).
Proof. unfold num, Qeq, Qplus. simpl. lia. Qed.

Lemma num_minus (a b : Z) : num a - num b == num (a - b).
Proof. unfold num, Qeq, Qminus, Qplus, Qopp. simpl. lia. Qed.

Lemma Math_round_Z (z : Z) : Math_round (inject_Z z) = z.
Proof.
  unfold Math_round, Qfloor, inject_Z, Qplus. simpl.
  symmetry. apply (Z.div_unique _ _ z 1); lia.
Qed.

Lemma Math_round_scaled (z : Z) : Math_round (num z * 100) = z.
Proof.
  assert (num z * 100 == inject_Z z) as Heq.
  { unfold num, Qeq, Qmult, inject_Z. simpl. lia. }
  unfold Math_round. rewrite Heq. apply Math_round_Z.
Qed.

(** Rounding to two places leaves a whole number of hundredths alone. *)
Lemma round2_num (z : Z) : round2 (num z) == num z.
Proof.
  unfold round2. rewrite orZero_eq, Math_round_scaled.
  unfold num, Qeq, Qdiv, Qmult, Qinv, inject_Z. simpl. lia.
Qed.

Lemma round2_hundredths (x : Q) (z : Z) : x == num z -> round2 x == x.
Proof.
  intros Hx. unfold round2. rewrite orZero_eq.
  assert (Math_round (x * 100) = z) as ->.
  { unfold Math_round. rewrite Hx. apply Math_round_scaled. }
  rewrite Hx. unfold num, Qeq, Qdiv, Qmult, Qinv, inject_Z. simpl. lia.
Qed.

Lemma sumAmounts_from (ts : list Transaction) (acc : Q) :
  fold_left (fun sum t => sum + num (amount t)) ts acc
  == acc + num (totalHundredths ts).
Proof.
  revert acc. induction ts as [|t ts IH]; intros acc; simpl.
  - unfold num, Qeq, Qplus. simpl. lia.
  - rewrite IH, <- num_plus. ring.
Qed.

Lemma sumAmounts_num (ts : list Transaction) :
  sumAmounts ts == num (totalHundredths ts).
Proof. unfold sumAmounts. rewrite sumAmounts_from. ring. Qed.

Lemma Qsum_num (ts : list Transaction) :
  Qsum (List.map (fun t => num (amount t)) ts) == num (totalHundredths ts).
Proof.
  induction ts as [|t ts IH]; simpl; [reflexivity|].
  by rewrite IH, num_plus.
Qed.

Lemma sumAmounts_Qsum (ts : list Transaction) :
  sumAmounts ts == Qsum (List.map (fun t => num (amount t)) ts).
Proof. by rewrite sumAmounts_num, Qsum_num. Qed.

(** ** The analytics engine *)

Lemma computeInsights_returns (repo : Repository) (sid : jsstring) :
  find repo sid <> [] ->
  computeInsights repo sid
  = Returned {|
      avgMonthlyIncome :=
        ia_avgMonthlyIncome (computeIncomeAnalysis (find repo sid));
      totalIncome := ia_totalIncome (computeIncomeAnalysis (find repo sid));
      incomeTransactionCount :=
        ia_incomeTransactionCount (computeIncomeAnalysis (find repo sid));
      totalInflow := cf_totalInflow (computeCashFlowAnalysis (find repo sid));
      totalOutflow := cf_totalOutflow (computeCashFlowAnalysis (find repo sid));
      netCashFlow := cf_netCashFlow (computeCashFlowAnalysis (find repo sid));
      groceriesSpend :=
        b_groceriesSpend (computeSpendingBuckets (find repo sid));
      entertainmentSpend :=
        b_entertainmentSpend (computeSpendingBuckets (find repo sid));
      transportSpend :=
        b_transportSpend (computeSpendingBuckets (find repo sid));
      utilitiesSpend :=
        b_utilitiesSpend (computeSpendingBuckets (find repo sid));
      healthcareSpend :=
        b_healthcareSpend (computeSpendingBuckets (find repo sid));
      shoppingSpend := b_shoppingSpend (computeSpendingBuckets (find repo sid));
      diningSpend := b_diningSpend (computeSpendingBuckets (find repo sid));
      otherSpend := b_otherSpend (computeSpendingBuckets (find repo sid));
      overdraftCount := ra_overdraftCount (computeRiskAnalysis (find repo sid));
      bouncedPaymentCount :=
        ra_bouncedPaymentCount (computeRiskAnalysis (find repo sid));
      avgDailyBalance :=
        ra_avgDailyBalance (computeRiskAnalysis (find repo sid));
      minBalance := ra_minBalance (computeRiskAnalysis (find repo sid));
      maxBalance := ra_maxBalance (computeRiskAnalysis (find repo sid));
      riskLevel := ra_riskLevel (computeRiskAnalysis (find repo sid));
      riskFlags := ra_riskFlags (computeRiskAnalysis (find repo sid));
      parsingSuccessRate :=
        ps_parsingSuccessRate (computeParsingStats (find repo sid));
      totalTransactions :=
        ps_totalTransactions (computeParsingStats (find repo sid));
      successfulTransactions :=
        ps_successfulTransactions (computeParsingStats (find repo sid));
      failedTransactions :=
        ps_failedTransactions (computeParsingStats (find repo sid)) |}.
Proof.
  intros Hne. unfold computeInsights.
  destruct (find repo sid) as [|t ts]; [done|reflexivity].
Qed.

(** C9.  On an empty transaction sequence [computeInsights] throws its
    no-transactions error; it returns no insights at all, zero-valued or
    other. *)
Theorem computeInsights_empty (repo : Repository) (sid : jsstring) :
  find repo sid = [] ->
  computeInsights repo sid = Thrown NoTransactionsFound
  /\ forall ins : ComputedInsights, computeInsights repo sid <> Returned ins.
Proof.
  intros Hempty. unfold computeInsights. rewrite Hempty. split; [done|].
  intros ins. discriminate.
Qed.

(** The theorem at the repository that holds nothing. *)
Lemma computeInsights_empty_witness :
  computeInsights emptyRepository (lit "statement-1")
  = Thrown NoTransactionsFound
  /\ forall ins : ComputedInsights,
       computeInsights emptyRepository (lit "statement-1") <> Returned ins.
Proof.
  apply (computeInsights_empty emptyRepository (lit "statement-1")).
  reflexivity.
Defined.



Example netCashFlow_salaryAndRent :
  match computeInsights salaryAndRent (lit "statement-1") with
  | Returned ins => netCashFlow ins == 4000
  | Thrown _ => False
  end.
Proof. vm_compute. reflexivity. Qed.

(** *** Risk level *)

Lemma Qlt_bool_spec (x y : Q) : reflect (x < y) (Qlt_bool x y).
Proof.
  unfold Qlt_bool. destruct (Qle_bool y x) eqn:Hle; constructor.
  - apply Qle_bool_iff in Hle. by apply Qle_not_lt.
  - apply Qnot_le_lt. intros Hyx. apply Qle_bool_iff in Hyx. congruence.
Qed.



(** The tiers look at the mean before it is rounded: here the mean is
    49.9966..., the level is HIGH, and the average reported is 50.00. *)
Example riskLevel_of_unrounded_mean :
  match computeInsights borderlineBalances (lit "statement-1") with
  | Returned ins => riskLevel ins = HIGH /\ avgDailyBalance ins == 50
  | Thrown _ => False
  end.
Proof. vm_compute. split; reflexivity. Qed.

(** *** Spend buckets *)





Example spendingBuckets_tuitionAndGroceries :
  let b := accumulateBuckets tuitionAndGroceries in
  b_groceriesSpend b == 1205 # 10 /\ b_otherSpend b == 915
  /\ bucketsTotal b == 10355 # 10.
Proof. vm_compute. repeat split; reflexivity. Qed.

(** *** Parsing statistics *)

Lemma round4_one (x : Q) : x == 1 -> round4 x == 1.
Proof.
  intros Hx. unfold round4. rewrite orZero_eq.
  assert (Math_round (x * 10000) = 10000%Z) as ->.
  { unfold Math_round. rewrite Hx. reflexivity. }
  reflexivity.
Qed.

(** What [computeInsights] reports about parsing: the number of stored
    transactions, twice, no failure and a rate of 1. *)
Lemma parsingStats_count_stored (repo : Repository) (sid : jsstring) :
  find repo sid <> [] ->
  exists ins : ComputedInsights,
    computeInsights repo sid = Returned ins
    /\ totalTransactions ins = length (find repo sid)
    /\ successfulTransactions ins = length (find repo sid)
    /\ failedTransactions ins = 0%nat
    /\ parsingSuccessRate ins == 1.
Proof.
  intros Hne. eexists. split; [by apply computeInsights_returns|].
  simpl. repeat (split; [reflexivity|]).
  destruct (find repo sid) as [|t ts]; [done|].
  apply round4_one. simpl length. cbv beta iota.
  change (0 <? S (length ts))%nat with true. cbv iota.
  apply Qmult_inv_r. unfold Qeq, inject_Z. simpl. lia.
Qed.

Lemma computeParsingStats_nil :
  ps_parsingSuccessRate (computeParsingStats []) == 0.
Proof. vm_compute. reflexivity. Qed.

Section IngestionFacts.

Context `{Host}.

Lemma onData_consistent (acc : ParseResult) (row : Row) :
  countsConsistent acc -> countsConsistent (onData acc row).
Proof.
  unfold countsConsistent, onData. intros (Hs & Hf & Ht).
  destruct (parseRow row (S (totalRows acc))) as [[t|]|e]; simpl;
    rewrite ?length_app; simpl; lia.
Qed.

Lemma fold_onData_consistent (rows : list Row) (acc : ParseResult) :
  countsConsistent acc -> countsConsistent (fold_left onData rows acc).
Proof.
  revert acc. induction rows as [|row rows IH]; intros acc Hacc; [done|].
  simpl. apply IH. by apply onData_consistent.
Qed.

Lemma parseCSV_consistent (rows : list Row) : countsConsistent (parseCSV rows).
Proof. apply fold_onData_consistent. by unfold countsConsistent. Qed.

End IngestionFacts.

Lemma saveChunk_Some (sid : jsstring) (chunk : list ParsedTransaction)
  (saved : list Transaction) :
  saveChunk sid chunk = Some saved ->
  length saved = length chunk
  /\ Forall (fun t => statementId t = sid) saved.
Proof.
  revert saved. induction chunk as [|p chunk IH]; intros saved; simpl.
  - intros [= <-]. by split.
  - destruct (toEntity sid p) as [t|] eqn:Ht; [|done].
    destruct (saveChunk sid chunk) as [ts|]; [|done].
    intros [= <-]. destruct (IH ts eq_refl) as [Hlen Hall].
    split; [simpl; lia|]. constructor; [|done].
    unfold toEntity in Ht.
    destruct (toHundredths (pt_amount p)); [|done].
    destruct (toHundredths (pt_balance p)); [|done].
    by injection Ht as <-.
Qed.

(** Every chunk saved: the table has grown by one row per transaction. *)
Lemma saveInChunks_saved (fuel chunkSize : nat) (sid : jsstring)
  (transactions : list ParsedTransaction) (table table' : list Transaction) :
  saveInChunks fuel chunkSize sid transactions table = Some (true, table') ->
  exists saved : list Transaction,
    table' = table ++ saved
    /\ length saved = length transactions
    /\ Forall (fun t => statementId t = sid) saved.
Proof.
  revert transactions table.
  induction fuel as [|fuel IH]; intros transactions table;
    destruct transactions as [|p ps]; simpl; try done.
  - intros [= <-]. exists []. by rewrite app_nil_r.
  - intros [= <-]. exists []. by rewrite app_nil_r.
  - destruct (saveChunk sid (take chunkSize (p :: ps))) as [s1|] eqn:Hs1;
      [|done].
    intros Hrest. apply IH in Hrest as (s2 & -> & Hlen2 & Hall2).
    apply saveChunk_Some in Hs1 as [Hlen1 Hall1].
    exists (s1 ++ s2). split; [by rewrite app_assoc|]. split.
    + rewrite length_app, Hlen1, Hlen2, <- length_app, take_drop. done.
    + by apply Forall_app.
Qed.

(** The fuel [processStatementFromBuffer] gives the chunk loop is
    enough. *)
Lemma saveInChunks_fuel (fuel chunkSize : nat) (sid : jsstring)
  (transactions : list ParsedTransaction) (table : list Transaction) :
  (0 < chunkSize)%nat -> (length transactions <= fuel)%nat ->
  is_Some (saveInChunks fuel chunkSize sid transactions table).
Proof.
  intros Hsize. revert transactions table.
  induction fuel as [|fuel IH]; intros transactions table Hlen;
    destruct transactions as [|p ps]; simpl in *; try done; try lia.
  destruct (saveChunk sid (take chunkSize (p :: ps))); [|done].
  apply IH. rewrite length_drop. simpl. lia.
Qed.

Lemma find_repositoryOf_length (table saved : list Transaction)
  (sid : jsstring) :
  Forall (fun t => statementId t <> sid) table ->
  Forall (fun t => statementId t = sid) saved ->
  length (find (repositoryOf (table ++ saved)) sid) = length saved.
Proof.
  intros Htable Hsaved. simpl.
  rewrite (Permutation_length (merge_sort_Permutation _ _)).
  rewrite List.filter_app, length_app.
  assert (List.filter (fun t => bool_decide (statementId t = sid)) table = [])
    as ->.
  { induction Htable as [|t table Ht _ IH]; [done|].
    simpl. rewrite bool_decide_false by done. done. }
  assert (List.filter (fun t => bool_decide (statementId t = sid)) saved
          = saved) as ->.
  { induction Hsaved as [|t saved Ht _ IH]; [done|].
    simpl. rewrite bool_decide_true by done. by rewrite IH. }
  done.
Qed.

(** C1 (amended).  For every statement that ingestion has brought to
    PROCESSED, the parsing statistics that [computeInsights] returns count
    the stored transactions, not the rows of the file: total and
    successful transactions both equal the successful row count of the
    ingestion outcome, failed transactions are 0, and the success rate,
    successful over total rounded to 4 places, is therefore 1.  The total
    and failed row counts of the outcome are not reported.  The rate
    defaults to 0 on a total of 0 in [computeParsingStats], a case that
    [computeInsights] does not reach. *)
Theorem parsingStats_of_ingestion `{Host} (table : list Transaction)
  (sid : jsstring) (rows : list Row) (r : ProcessingResult)
  (table' : list Transaction) :
  Forall (fun t => statementId t <> sid) table ->
  processStatementFromBuffer table sid rows = (r, table') ->
  pr_status r = PROCESSED ->
  exists ins : ComputedInsights,
    computeInsights (repositoryOf table') sid = Returned ins
    /\ totalTransactions ins = pr_successfulTransactions r
    /\ successfulTransactions ins = pr_successfulTransactions r
    /\ failedTransactions ins = 0%nat
    /\ parsingSuccessRate ins == 1
    /\ pr_transactionCount r
       = (pr_successfulTransactions r + pr_failedTransactions r)%nat
    /\ ps_parsingSuccessRate (computeParsingStats []) == 0.
Proof.
  intros Hfresh Hrun Hstatus. unfold processStatementFromBuffer in Hrun.
  destruct (parseCSV_consistent rows) as (Hs & _ & Ht).
  destruct (transactions (parseCSV rows)) as [|p ps] eqn:Hps.
  { injection Hrun as <- <-. discriminate. }
  destruct (saveInChunks (length (p :: ps)) 1000 sid (p :: ps) table)
    as [[[] table'']|] eqn:Hsave.
  - injection Hrun as <- <-.
    apply saveInChunks_saved in Hsave as (saved & -> & Hlen & Hsid).
    pose proof (find_repositoryOf_length table saved sid Hfresh Hsid) as Hfind.
    destruct (parsingStats_count_stored (repositoryOf (table ++ saved)) sid)
      as (ins & Hins & Htot & Hsucc & Hfail & Hrate).
    { intros Hnil. rewrite Hnil in Hfind. simpl in *. lia. }
    exists ins. simpl. rewrite Htot, Hsucc, Hfind, Hlen, Hs.
    rewrite Hs in Ht. repeat (split; [done|]). apply computeParsingStats_nil.
  - injection Hrun as <- <-. discriminate.
  - injection Hrun as <- <-. discriminate.
Qed.

(** The theorem at a file of two rows, the second of which has no date. *)
Lemma parsingStats_of_ingestion_witness :
  exists ins : ComputedInsights,
    computeInsights
      (repositoryOf
         (processStatementFromBuffer (H := asciiHost) [] (lit "statement-1")
            twoRowFile).2)
      (lit "statement-1") = Returned ins
    /\ totalTransactions ins = 1%nat
    /\ successfulTransactions ins = 1%nat
    /\ failedTransactions ins = 0%nat
    /\ parsingSuccessRate ins == 1
    /\ 2%nat = (1 + 1)%nat
    /\ ps_parsingSuccessRate (computeParsingStats []) == 0.
Proof.
  apply (parsingStats_of_ingestion (H := asciiHost) [] (lit "statement-1")
           twoRowFile
           (processStatementFromBuffer (H := asciiHost) []
              (lit "statement-1") twoRowFile).1).
  - constructor.
  - vm_compute. reflexivity.
  - vm_compute. reflexivity.
Defined.

(** C1, as stated, fails on that file: ingestion reports 2 rows, 1
    successful and 1 failed, and the insights computed for the statement
    report 1 transaction, 1 successful and none failed. *)
Lemma parsingStats_not_ingestion_counts :
  let run :=
    processStatementFromBuffer (H := asciiHost) [] (lit "statement-1")
      twoRowFile in
  pr_status run.1 = PROCESSED
  /\ pr_transactionCount run.1 = 2%nat
  /\ pr_successfulTransactions run.1 = 1%nat
  /\ pr_failedTransactions run.1 = 1%nat
  /\ exists ins : ComputedInsights,
       computeInsights (repositoryOf run.2) (lit "statement-1") = Returned ins
       /\ totalTransactions ins = 1%nat
       /\ successfulTransactions ins = 1%nat
       /\ failedTransactions ins = 0%nat
       /\ totalTransactions ins <> pr_transactionCount run.1
       /\ failedTransactions ins <> pr_failedTransactions run.1.
Proof.
  repeat (split; [vm_compute; reflexivity|]).
  eexists. split; [vm_compute; reflexivity|].
  repeat (split; [reflexivity|]). split; vm_compute; discriminate.
Qed.

(** ** The bureau client *)

Lemma transientFailure_retried (o : HttpOutcome) :
  transientFailure o -> retried o.
Proof.
  destruct o as [status body|e|m]; simpl; [done| |done].
  intros [Hnone | (status & Hsome & Hin)]; unfold retried; simpl.
  - by rewrite Hnone.
  - rewrite Hsome. simpl. split; [done|].
    apply bool_decide_eq_true.
    rewrite !elem_of_cons, elem_of_nil in Hin.
    rewrite !elem_of_cons, elem_of_nil. tauto.
Qed.

Lemma permanentFailure_stops (o : HttpOutcome) (status : Z) :
  permanentFailure o status ->
  succeeded o = false /\ outcomeStatus o = status
  /\ isRetryableError status = false.
Proof.
  intros (e & -> & Hstatus & Hin). simpl. rewrite Hstatus. simpl.
  split; [done|]. split; [done|].
  apply bool_decide_eq_false.
  rewrite !elem_of_cons, elem_of_nil in Hin.
  rewrite !elem_of_cons, elem_of_nil. lia.
Qed.

Section ClientFacts.

Context (oracle : Oracle) (maxRetries : nat) (retryDelayMs : Q).

Local Ltac run_M :=
  unfold mbind, mret, M_bind, M_ret, Date_now, sleep, Math_random, httpPost
    in *.

Lemma calculateBackoffDelay_posts (attempt : nat) (w : World) :
  posts (calculateBackoffDelay oracle retryDelayMs attempt w).2 = posts w.
Proof. unfold calculateBackoffDelay. run_M. reflexivity. Qed.

Lemma makeRequest_run (request : BureauApiRequest) (startTime : Q)
  (w : World) :
  let run := makeRequest oracle request startTime w in
  posts run.2 = S (posts w)
  /\ success run.1 = succeeded (post oracle (posts w))
  /\ httpStatusCode run.1 = outcomeStatus (post oracle (posts w)).
Proof.
  unfold makeRequest. run_M. simpl.
  destruct (post oracle (posts w)); simpl; done.
Qed.

Lemma backOff_run (attempt retryCount : nat) (w : World) :
  let run := backOff oracle retryDelayMs attempt retryCount w in
  run.1 = (if (0 <? attempt)%nat then S retryCount else retryCount)
  /\ posts run.2 = posts w.
Proof.
  unfold backOff, calculateBackoffDelay.
  destruct (0 <? attempt)%nat; run_M; simpl; done.
Qed.

Lemma iteration_run (attempt : nat) (request : BureauApiRequest)
  (startTime : Q) (locals : Locals) (w : World) :
  l_retryCount locals = pred attempt ->
  let '(retryCount, result, w') :=
    iteration oracle retryDelayMs attempt request startTime locals w in
  retryCount = attempt
  /\ posts w' = S (posts w)
  /\ success result = succeeded (post oracle (posts w))
  /\ httpStatusCode result = outcomeStatus (post oracle (posts w)).
Proof.
  intros Hcount. unfold iteration.
  pose proof (backOff_run attempt (l_retryCount locals) w) as Hback.
  destruct (backOff oracle retryDelayMs attempt (l_retryCount locals) w)
    as [retryCount w1].
  pose proof (makeRequest_run request startTime w1) as Hrun.
  destruct (makeRequest oracle request startTime w1) as [result w'].
  simpl in *. destruct Hback as [Hrc Hp1]. destruct Hrun as (Hp2 & Hs & Hst).
  rewrite Hp1 in Hp2, Hs, Hst. split; [|done].
  rewrite Hrc. destruct attempt; simpl in *; lia.
Qed.

Lemma attempts_unfold (remaining attempt : nat) (request : BureauApiRequest)
  (startTime : Q) (locals : Locals) (w : World) :
  attempts oracle retryDelayMs (S remaining) attempt request startTime locals w
  = let '(retryCount, result, w') :=
      iteration oracle retryDelayMs attempt request startTime locals w in
    if success result then (Some (withRetryCount result retryCount), locals, w')
    else if negb (isRetryableError (httpStatusCode result))
    then (Some (withRetryCount result retryCount), locals, w')
    else attempts oracle retryDelayMs remaining (S attempt) request startTime
           {| l_retryCount := retryCount;
              l_lastError := orUnknownError (error result);
              l_httpStatusCode := httpStatusCode result |} w'.
Proof.
  unfold iteration. simpl. unfold mbind at 1. unfold M_bind at 1.
  destruct (backOff oracle retryDelayMs attempt (l_retryCount locals) w)
    as [retryCount w1].
  unfold mbind at 1. unfold M_bind at 1.
  destruct (makeRequest oracle request startTime w1) as [result w2].
  destruct (success result); [reflexivity|].
  destruct (negb (isRetryableError (httpStatusCode result))); reflexivity.
Qed.

(** The loop stops at the first outcome that is a success or a failure
    it does not retry, [k] iterations after it was entered. *)
Lemma attempts_stops (k : nat) :
  forall (remaining attempt : nat) (request : BureauApiRequest)
         (startTime : Q) (locals : Locals) (w : World),
    (k < remaining)%nat ->
    l_retryCount locals = pred attempt ->
    (forall i : nat, (i < k)%nat -> retried (post oracle (posts w + i))) ->
    succeeded (post oracle (posts w + k)) = true
    \/ isRetryableError (outcomeStatus (post oracle (posts w + k))) = false ->
    exists (r : BureauRequestResult) (locals' : Locals) (w' : World),
      attempts oracle retryDelayMs remaining attempt request startTime locals w
      = (Some r, locals', w')
      /\ success r = succeeded (post oracle (posts w + k))
      /\ httpStatusCode r = outcomeStatus (post oracle (posts w + k))
      /\ retryCount r = (attempt + k)%nat
      /\ posts w' = (posts w + k + 1)%nat.
Proof.
  induction k as [|k IH];
    intros remaining attempt request startTime locals w Hk Hcount Hbefore
      Hstop;
    (destruct remaining as [|remaining]; [lia|]);
    rewrite attempts_unfold;
    pose proof (iteration_run attempt request startTime locals w Hcount)
      as Hrun;
    destruct (iteration oracle retryDelayMs attempt request startTime locals w)
      as [[retryCount result] w1];
    destruct Hrun as (-> & Hposts & Hsuccess & Hstatus).
  - rewrite Nat.add_0_r in *.
    destruct (success result) eqn:Hs.
    + eexists _, _, _. split; [reflexivity|]. simpl.
      repeat split; try congruence; lia.
    + destruct Hstop as [Hstop|Hstop]; [congruence|].
      rewrite Hstatus, Hstop. simpl.
      eexists _, _, _. split; [reflexivity|]. simpl.
      repeat split; try congruence; lia.
  - destruct (Hbefore 0%nat) as [Hfail Hretry]; [lia|].
    rewrite Nat.add_0_r in Hfail, Hretry.
    rewrite Hsuccess, Hfail, Hstatus, Hretry. simpl.
    destruct (IH remaining (S attempt) request startTime
                {| l_retryCount := attempt;
                   l_lastError := orUnknownError (error result);
                   l_httpStatusCode :=
                     outcomeStatus (post oracle (posts w)) |} w1)
      as (r & locals' & w' & Hrun & Hs & Hst & Hrc & Hp).
    + lia.
    + done.
    + intros i Hi. rewrite Hposts.
      replace (S (posts w) + i)%nat with (posts w + S i)%nat by lia.
      apply Hbefore. lia.
    + rewrite Hposts.
      by replace (S (posts w) + k)%nat with (posts w + S k)%nat by lia.
    + exists r, locals', w'. split; [done|].
      rewrite Hposts in Hs, Hst, Hp.
      replace (S (posts w) + k)%nat with (posts w + S k)%nat in Hs, Hst
        by lia.
      repeat split; try done; lia.
Qed.

(** The loop posts at most once per iteration. *)
Lemma attempts_bound (remaining : nat) :
  forall (attempt : nat) (request : BureauApiRequest) (startTime : Q)
         (locals : Locals) (w : World),
    l_retryCount locals = pred attempt ->
    let run :=
      attempts oracle retryDelayMs remaining attempt request startTime
        locals w in
    (posts w <= posts run.2 <= posts w + remaining)%nat.
Proof.
  induction remaining as [|remaining IH];
    intros attempt request startTime locals w Hcount.
  - simpl. lia.
  - cbv zeta. rewrite attempts_unfold.
    pose proof (iteration_run attempt request startTime locals w Hcount)
      as Hrun.
    destruct (iteration oracle retryDelayMs attempt request startTime locals w)
      as [[retryCount result] w1].
    destruct Hrun as (-> & Hposts & _ & _).
    destruct (success result); [simpl; lia|].
    destruct (negb (isRetryableError (httpStatusCode result))); [simpl; lia|].
    specialize (IH (S attempt) request startTime
                  {| l_retryCount := attempt;
                     l_lastError := orUnknownError (error result);
                     l_httpStatusCode := httpStatusCode result |} w1 eq_refl).
    simpl in IH. lia.
Qed.

(** An attempt is followed by another only when it failed in a way the
    loop retries. *)
Lemma attempts_continued (remaining : nat) :
  forall (attempt : nat) (request : BureauApiRequest) (startTime : Q)
         (locals : Locals) (w : World) (i : nat),
    l_retryCount locals = pred attempt ->
    let run :=
      attempts oracle retryDelayMs remaining attempt request startTime
        locals w in
    (posts w + i + 1 < posts run.2)%nat ->
    retried (post oracle (posts w + i)).
Proof.
  induction remaining as [|remaining IH];
    intros attempt request startTime locals w i Hcount.
  - simpl. lia.
  - cbv zeta. rewrite attempts_unfold.
    pose proof (iteration_run attempt request startTime locals w Hcount)
      as Hrun.
    destruct (iteration oracle retryDelayMs attempt request startTime locals w)
      as [[retryCount result] w1].
    destruct Hrun as (-> & Hposts & Hsuccess & Hstatus).
    destruct (success result) eqn:Hs; [simpl; lia|].
    destruct (isRetryableError (httpStatusCode result)) eqn:Hr;
      simpl; [|lia].
    intros Hmade. destruct i as [|i].
    + rewrite Nat.add_0_r. split; congruence.
    + replace (posts w + S i)%nat with (posts w1 + i)%nat by lia.
      eapply (IH (S attempt) request startTime
                {| l_retryCount := attempt;
                   l_lastError := orUnknownError (error result);
                   l_httpStatusCode := httpStatusCode result |} w1 i eq_refl).
      simpl. lia.
Qed.

Lemma checkCredit_unfold (request : BureauApiRequest) (w : World) :
  checkCredit oracle maxRetries retryDelayMs request w
  = let '(returned, locals, w') :=
      attempts oracle retryDelayMs (S maxRetries) 0 request (now w)
        initialLocals w in
    match returned with
    | Some result => (result, w')
    | None =>
        ({| success := false;
            data := None;
            error := Some (FailedAfterRetries maxRetries (l_lastError locals));
            httpStatusCode := l_httpStatusCode locals;
            responseTime := now w' - now w;
            retryCount := l_retryCount locals;
            bureauReferenceId := None |}, w')
    end.
Proof.
  unfold checkCredit, initialLocals. run_M.
  destruct (attempts oracle retryDelayMs (S maxRetries) 0 request (now w) _ w)
    as [[[result|] locals] w']; reflexivity.
Qed.

End ClientFacts.

(** C4.  A run of [checkCredit] never makes more than [maxRetries + 1]
    attempts, 4 with the default of 3 retries.  When the first [k]
    attempts, [k <= maxRetries], fail with transient outcomes and the next
    one succeeds, the result is a success with [retryCount = k], reached
    after exactly [k + 1] attempts. *)
Theorem checkCredit_retries_then_succeeds (oracle : Oracle)
  (maxRetries : nat) (retryDelayMs : Q) (request : BureauApiRequest)
  (w : World) :
  let run := checkCredit oracle maxRetries retryDelayMs request w in
  (attemptsMade w run.2 <= maxRetries + 1)%nat
  /\ (maxRetries = 3%nat -> (attemptsMade w run.2 <= 4)%nat)
  /\ forall k : nat,
       (k <= maxRetries)%nat ->
       (forall i : nat,
           (i < k)%nat -> transientFailure (post oracle (posts w + i))) ->
       succeeded (post oracle (posts w + k)) = true ->
       success run.1 = true /\ retryCount run.1 = k
       /\ attemptsMade w run.2 = (k + 1)%nat.
Proof.
  cbv zeta. rewrite checkCredit_unfold. unfold attemptsMade.
  pose proof (attempts_bound oracle retryDelayMs (S maxRetries) 0 request
                (now w) initialLocals w eq_refl) as Hbound.
  cbv zeta in Hbound.
  assert (posts
            (let '(returned, locals, w') :=
               attempts oracle retryDelayMs (S maxRetries) 0 request (now w)
                 initialLocals w in
             match returned with
             | Some result => (result, w')
             | None =>
                 ({| success := false; data := None;
                     error :=
                       Some (FailedAfterRetries maxRetries
                               (l_lastError locals));
                     httpStatusCode := l_httpStatusCode locals;
                     responseTime := now w' - now w;
                     retryCount := l_retryCount locals;
                     bureauReferenceId := None |}, w')
             end).2
          = posts
              (attempts oracle retryDelayMs (S maxRetries) 0 request (now w)
                 initialLocals w).2) as Hposts.
  { destruct (attempts oracle retryDelayMs (S maxRetries) 0 request (now w)
                initialLocals w) as [[[result|] locals] w']; reflexivity. }
  split; [rewrite Hposts; lia|]. split; [intros ->; rewrite Hposts; lia|].
  intros k Hk Htransient Hsuccess.
  destruct (attempts_stops oracle retryDelayMs k (S maxRetries) 0 request
              (now w) initialLocals w)
    as (r & locals' & w' & Hrun & Hs & _ & Hrc & Hp).
  - lia.
  - done.
  - intros i Hi. apply transientFailure_retried. by apply Htransient.
  - by left.
  - rewrite Hrun. simpl. rewrite Hs, Hsuccess, Hrc, Hp.
    repeat split; lia.
Qed.

(** The theorem at three 500s followed by a success, with three
    retries allowed. *)
Lemma checkCredit_retries_then_succeeds_witness :
  let run := checkCredit threeFailures 3 1000 sampleRequest freshWorld in
  success run.1 = true /\ retryCount run.1 = 3%nat
  /\ attemptsMade freshWorld run.2 = 4%nat.
Proof.
  apply (proj2 (proj2 (checkCredit_retries_then_succeeds threeFailures 3 1000
                         sampleRequest freshWorld)) 3%nat).
  - lia.
  - intros i Hi. simpl.
    destruct i as [|[|[|i]]]; simpl; try lia;
      right; exists 500%Z; (split; [reflexivity|]);
      rewrite !elem_of_cons; tauto.
  - reflexivity.
Defined.

Example checkCredit_threeFailures_delays :
  List.map Qred
    (slept (checkCredit threeFailures 3 1000 sampleRequest freshWorld).2)
  = [1150; 2300; 4600].
Proof. vm_compute. reflexivity. Qed.

(** C5.  When an attempt of a run fails with a permanent status (400,
    401, 403 or 404), that attempt is the last one: the call returns a
    failure with that status and with [retryCount] equal to the number
    of retries made before it.  On the first attempt that is
    [retryCount = 0] after a single attempt. *)
Theorem checkCredit_permanent_failure (oracle : Oracle) (maxRetries : nat)
  (retryDelayMs : Q) (request : BureauApiRequest) (w : World) :
  let run := checkCredit oracle maxRetries retryDelayMs request w in
  (forall (j : nat) (status : Z),
      (j < attemptsMade w run.2)%nat ->
      permanentFailure (post oracle (posts w + j)) status ->
      success run.1 = false /\ httpStatusCode run.1 = status
      /\ retryCount run.1 = j /\ attemptsMade w run.2 = (j + 1)%nat)
  /\ (forall status : Z,
         permanentFailure (post oracle (posts w)) status ->
         success run.1 = false /\ httpStatusCode run.1 = status
         /\ retryCount run.1 = 0%nat /\ attemptsMade w run.2 = 1%nat).
Proof.
  cbv zeta. rewrite checkCredit_unfold. unfold attemptsMade.
  pose proof (attempts_bound oracle retryDelayMs (S maxRetries) 0 request
                (now w) initialLocals w eq_refl) as Hbound.
  pose proof (fun i => attempts_continued oracle retryDelayMs (S maxRetries) 0
                         request (now w) initialLocals w i eq_refl) as Hcont.
  cbv zeta in Hbound, Hcont.
  assert (forall (j : nat) (status : Z),
             (j < S maxRetries)%nat ->
             (forall i : nat,
                 (i < j)%nat -> retried (post oracle (posts w + i))) ->
             permanentFailure (post oracle (posts w + j)) status ->
             exists (r : BureauRequestResult) (locals' : Locals) (w' : World),
               attempts oracle retryDelayMs (S maxRetries) 0 request (now w)
                 initialLocals w = (Some r, locals', w')
               /\ success r = false /\ httpStatusCode r = status
               /\ retryCount r = j /\ posts w' = (posts w + j + 1)%nat)
    as Hstops.
  { intros j status Hj Hbefore Hperm.
    apply permanentFailure_stops in Hperm as (Hfail & Hstatus & Hnot).
    destruct (attempts_stops oracle retryDelayMs j (S maxRetries) 0 request
                (now w) initialLocals w)
      as (r & locals' & w' & Hrun & Hs & Hst & Hrc & Hp);
      [lia | done | done | right; by rewrite Hstatus |].
    exists r, locals', w'. rewrite Hs, Hst, Hrc. done. }
  split.
  - intros j status Hmade Hperm.
    destruct (attempts oracle retryDelayMs (S maxRetries) 0 request (now w)
                initialLocals w) as [[returned locals] w'] eqn:Hrun.
    assert (posts (match returned with
                   | Some result => (result, w')
                   | None =>
                       ({| success := false; data := None;
                           error :=
                             Some (FailedAfterRetries maxRetries
                                     (l_lastError locals));
                           httpStatusCode := l_httpStatusCode locals;
                           responseTime := now w' - now w;
                           retryCount := l_retryCount locals;
                           bureauReferenceId := None |}, w')
                   end).2 = posts w') as Hposts
      by (destruct returned; reflexivity).
    rewrite Hposts in Hmade |- *. simpl in Hbound, Hcont.
    destruct (Hstops j status) as (r & l2 & w2 & Heq & Hs & Hst & Hrc & Hp).
    + lia.
    + intros i Hi. apply Hcont. lia.
    + done.
    + injection Heq as -> -> ->. simpl. repeat split; try done; lia.
  - intros status Hperm.
    destruct (Hstops 0%nat status) as (r & l2 & w2 & Heq & Hs & Hst & Hrc & Hp).
    + lia.
    + intros i Hi. lia.
    + by rewrite Nat.add_0_r.
    + rewrite Heq. simpl. repeat split; try done; lia.
Qed.

(** The theorem at a 504 followed by a 404: the second attempt is the
    last, after one retry. *)
Lemma checkCredit_permanent_failure_witness :
  let run := checkCredit retryThenNotFound 3 1000 sampleRequest freshWorld in
  success run.1 = false /\ httpStatusCode run.1 = 404%Z
  /\ retryCount run.1 = 1%nat /\ attemptsMade freshWorld run.2 = 2%nat.
Proof.
  apply (proj1 (checkCredit_permanent_failure retryThenNotFound 3 1000
                  sampleRequest freshWorld) 1%nat 404%Z).
  - vm_compute. lia.
  - exists (statusError 404). split; [reflexivity|]. split; [reflexivity|].
    rewrite !elem_of_cons. tauto.
Defined.

Example checkCredit_badRequest :
  let run := checkCredit badRequest 3 1000 sampleRequest freshWorld in
  success run.1 = false /\ httpStatusCode run.1 = 400%Z
  /\ retryCount run.1 = 0%nat /\ attemptsMade freshWorld run.2 = 1%nat
  /\ slept run.2 = [].
Proof. vm_compute. repeat split; reflexivity. Qed.

(** All attempts used up: the failure carries the last status and the
    retries made. *)
Example checkCredit_exhausted :
  let always500 :=
    {| post := fun _ => RejectedAxios (statusError 500);
       latency := fun _ => 20; random := fun _ => 0 |} in
  let run := checkCredit always500 3 1000 sampleRequest freshWorld in
  success run.1 = false /\ httpStatusCode run.1 = 500%Z
  /\ retryCount run.1 = 3%nat /\ attemptsMade freshWorld run.2 = 4%nat
  /\ error run.1
     = Some (FailedAfterRetries 3 (Text (lit "Bureau service internal error"))).
Proof. vm_compute. repeat split; reflexivity. Qed.

(** * Further properties of the code *)

(** ** What [parseRow] returns *)









Lemma Math_abs_geZero (x : number) :
  isNaN x = false ->
  isNaN (Math_abs x) = false /\ geZero (Math_abs x) = true.
Proof.
  destruct x as [|negative|q]; simpl; [done|done|].
  intros _. split; [done|]. apply Qle_bool_iff, Qabs_nonneg.
Qed.




(** ** The range of the categorizer *)

Section CategorizerRange.

Context `{Host}.

Lemma matchKeywords_Some (l : jsstring) (category : TransactionCategory)
  (keywords : list jsstring) (r : CategoryResult) :
  matchKeywords l category keywords = Some r ->
  cr_category r = category
  /\ exists keyword : jsstring,
       keyword ∈ keywords
       /\ includes l (toLowerCase keyword) = true
       /\ cr_confidence r
          = (if bool_decide (l = toLowerCase keyword) then 1 else 8 # 10).
Proof.
  induction keywords as [|k keywords IH]; simpl; [done|].
  destruct (includes l (toLowerCase k)) eqn:Hk.
  - intros [= <-]. simpl. split; [done|]. exists k.
    split; [apply list_elem_of_here|]. done.
  - intros Hr. destruct (IH Hr) as (Hc & keyword & Hin & Hhit & Hconf).
    split; [done|]. exists keyword. split; [by apply list_elem_of_further|].
    done.
Qed.

Lemma matchCategories_Some (l : jsstring)
  (entries : list (TransactionCategory * list jsstring)) (r : CategoryResult) :
  matchCategories l entries = Some r ->
  exists (keywords : list jsstring) (keyword : jsstring),
    (cr_category r, keywords) ∈ entries
    /\ keyword ∈ keywords
    /\ includes l (toLowerCase keyword) = true
    /\ cr_confidence r
       = (if bool_decide (l = toLowerCase keyword) then 1 else 8 # 10).
Proof.
  induction entries as [|[category keywords] entries IH]; simpl; [done|].
  destruct (matchKeywords l category keywords) as [r'|] eqn:Hr'.
  - intros [= <-].
    apply matchKeywords_Some in Hr' as (<- & keyword & Hin & Hhit & Hconf).
    exists keywords, keyword. split; [apply list_elem_of_here|]. done.
  - intros Hr. destruct (IH Hr) as (ks & keyword & Hentry & Hin & Hrest).
    exists ks, keyword. split; [by apply list_elem_of_further|]. done.
Qed.

(** X2.  The categorizer returns either OTHER with confidence 0.1, or a
    category of the keyword table, one of whose keywords occurs in the
    lower-cased description, with confidence 1.0 or 0.8, and 1.0 only when
    the lower-cased description is that keyword.  It never returns INCOME
    or TRANSFER, and never OTHER with another confidence than 0.1. *)
Theorem categorizeTransaction_range (description : jsstring) :
  let r := categorizeTransaction description in
  ((cr_category r = OTHER /\ cr_confidence r = 1 # 10)
   \/ exists (keywords : list jsstring) (keyword : jsstring),
        (cr_category r, keywords) ∈ categoryKeywords
        /\ keyword ∈ keywords
        /\ includes (toLowerCase description) (toLowerCase keyword) = true
        /\ (cr_confidence r = 8 # 10
            \/ cr_confidence r = 1
               /\ toLowerCase description = toLowerCase keyword))
  /\ cr_category r <> INCOME
  /\ cr_category r <> TRANSFER
  /\ (cr_category r = OTHER -> cr_confidence r = 1 # 10).
Proof.
  cbv zeta. unfold categorizeTransaction.
  destruct (matchCategories (toLowerCase description) categoryKeywords)
    as [r|] eqn:Hr.
  - apply matchCategories_Some in Hr
      as (keywords & keyword & Hentry & Hin & Hhit & Hconf).
    assert (cr_category r <> INCOME /\ cr_category r <> TRANSFER
            /\ cr_category r <> OTHER) as (Hi & Ht & Ho).
    { unfold categoryKeywords in Hentry.
      rewrite !elem_of_cons, elem_of_nil in Hentry.
      repeat (destruct Hentry as [Hentry|Hentry];
              [injection Hentry as -> _; done|]).
      done. }
    split; [|done]. right. exists keywords, keyword.
    repeat (split; [done|]). rewrite Hconf.
    destruct (bool_decide_reflect
                (toLowerCase description = toLowerCase keyword));
      [by right | by left].
  - simpl. split; [by left|done].
Qed.

End CategorizerRange.

(** ** The batch loop *)

Section BatchFacts.

Context `{Host}.

(** The row number plays no part in parsing a row. *)
Lemma parseRow_rowNumber (row : Row) (n m : nat) :
  parseRow row n = parseRow row m.
Proof. reflexivity. Qed.

Lemma appendResults_empty_r (r : ParseResult) :
  appendResults r emptyResult = r.
Proof.
  destruct r. unfold appendResults, emptyResult. simpl.
  rewrite !app_nil_r, !Nat.add_0_r. done.
Qed.

Lemma appendResults_assoc (r1 r2 r3 : ParseResult) :
  appendResults (appendResults r1 r2) r3
  = appendResults r1 (appendResults r2 r3).
Proof.
  unfold appendResults. simpl. f_equal; try lia.
  - by rewrite app_assoc.
  - rewrite <- app_assoc. f_equal. rewrite List.map_app. f_equal.
    rewrite List.map_map. apply List.map_ext. intros [n f]. simpl.
    f_equal. lia.
Qed.

Lemma onData_appendResults (acc : ParseResult) (row : Row) :
  onData acc row = appendResults acc (onData emptyResult row).
Proof.
  unfold onData, appendResults.
  rewrite (parseRow_rowNumber row (S (totalRows acc))
             (S (totalRows emptyResult))).
  destruct (parseRow row (S (totalRows emptyResult))) as [[t|]|e]; simpl;
    rewrite ?app_nil_r, ?Nat.add_0_r, ?Nat.add_1_r; reflexivity.
Qed.

Lemma fold_onData_appendResults (rows : list Row) (acc : ParseResult) :
  fold_left onData rows acc = appendResults acc (parseCSV rows).
Proof.
  unfold parseCSV. fold emptyResult. revert acc.
  induction rows as [|row rows IH]; intros acc; simpl.
  - by rewrite appendResults_empty_r.
  - rewrite (IH (onData acc row)), (IH (onData emptyResult row)).
    rewrite (onData_appendResults acc row). apply appendResults_assoc.
Qed.

Lemma parseCSV_app_result (rows1 rows2 : list Row) :
  parseCSV (rows1 ++ rows2)
  = appendResults (parseCSV rows1) (parseCSV rows2).
Proof.
  unfold parseCSV at 1. rewrite fold_left_app.
  apply fold_onData_appendResults.
Qed.

Lemma parseCSV_totalRows (rows : list Row) :
  totalRows (parseCSV rows) = length rows.
Proof.
  induction rows as [|row rows IH] using rev_ind; [done|].
  rewrite parseCSV_app_result, length_app. simpl. rewrite IH. f_equal.
  unfold parseCSV. simpl. unfold onData.
  destruct (parseRow row _) as [[t|]|e]; reflexivity.
Qed.

(** X3.  The counts of a batch add up: every row is counted once, as
    successful or as failed; there is one transaction per successful row
    and one error message per failed row. *)
Theorem parseCSV_accounting (rows : list Row) :
  totalRows (parseCSV rows) = length rows
  /\ (successfulRows (parseCSV rows) + failedRows (parseCSV rows))%nat
     = length rows
  /\ length (transactions (parseCSV rows)) = successfulRows (parseCSV rows)
  /\ length (errors (parseCSV rows)) = failedRows (parseCSV rows).
Proof.
  destruct (parseCSV_consistent rows) as (Hs & Hf & Ht).
  pose proof (parseCSV_totalRows rows) as Hrows.
  repeat split; lia.
Qed.

(** X4.  A row that fails does not disturb the rows around it: parsing
    two batches one after the other is parsing them apart and putting the
    results together, the transactions in order, the counts added, and
    the error messages of the second batch numbered on from the length of
    the first. *)
Theorem parseCSV_app (rows1 rows2 : list Row) :
  let r1 := parseCSV rows1 in
  let r2 := parseCSV rows2 in
  let r := parseCSV (rows1 ++ rows2) in
  transactions r = transactions r1 ++ transactions r2
  /\ successfulRows r = (successfulRows r1 + successfulRows r2)%nat
  /\ failedRows r = (failedRows r1 + failedRows r2)%nat
  /\ errors r
     = errors r1
       ++ List.map (fun e => ((length rows1 + e.1)%nat, e.2)) (errors r2).
Proof.
  cbv zeta. rewrite parseCSV_app_result. unfold appendResults. simpl.
  rewrite parseCSV_totalRows. done.
Qed.

Lemma parseCSV_singleton (row : Row) :
  transactions (parseCSV [row]) = option_list (parsedOf row)
  /\ errors (parseCSV [row])
     = match rowFailure (parseRow row 1) with
       | Some f => [(1%nat, f)]
       | None => []
       end.
Proof.
  unfold parseCSV, parsedOf. simpl. unfold onData. simpl.
  destruct (parseRow row 1) as [[t|]|e]; done.
Qed.

(** X5.  The transactions of a batch are those of its rows that parse,
    in the order of the file; and an error message numbered [n] is in the
    list exactly when the [n]-th row of the file, counted from 1, fails
    with that message. *)
Theorem parseCSV_rows (rows : list Row) :
  transactions (parseCSV rows) = omap parsedOf rows
  /\ forall (n : nat) (f : RowFailure),
       (n, f) ∈ errors (parseCSV rows)
       <-> (1 <= n)%nat
           /\ exists row : Row,
                rows !! (n - 1)%nat = Some row
                /\ rowFailure (parseRow row n) = Some f.
Proof.
  induction rows as [|row rows [IHt IHe]] using rev_ind.
  - split; [done|]. intros n f. split.
    + intros Hin. by apply elem_of_nil in Hin.
    + intros (_ & row & Hrow & _). done.
  - rewrite parseCSV_app_result. unfold appendResults. simpl.
    rewrite parseCSV_totalRows.
    destruct (parseCSV_singleton row) as [-> ->].
    split.
    { rewrite omap_app, IHt. simpl. by destruct (parsedOf row). }
    intros n f. rewrite elem_of_app, IHe. split.
    + intros [(Hn & r & Hr & Hf) | Hlast].
      * split; [done|]. exists r. split; [|done].
        by apply lookup_app_l_Some.
      * destruct (rowFailure (parseRow row 1)) as [f'|] eqn:Hf';
          simpl in Hlast; [|by apply elem_of_nil in Hlast].
        apply list_elem_of_singleton in Hlast. injection Hlast as -> ->.
        split; [lia|]. exists row. split; [|done].
        replace (length rows + 1 - 1)%nat with (length rows) by lia.
        by rewrite lookup_app_r, Nat.sub_diag.
    + intros (Hn & r & Hr & Hf).
      destruct (decide (n - 1 < length rows)%nat) as [Hlt|Hge].
      * left. split; [done|]. exists r. split; [|done].
        by rewrite lookup_app_l in Hr.
      * right. rewrite lookup_app_r in Hr by lia.
        destruct (n - 1 - length rows)%nat as [|k] eqn:Hk; [|done].
        injection Hr as <-.
        rewrite (parseRow_rowNumber row n 1) in Hf. rewrite Hf. simpl.
        apply list_elem_of_singleton. f_equal. lia.
Qed.

End BatchFacts.

(** ** Header validation *)

Lemma getFieldValue_Some_key (row : Row) (fields : list jsstring)
  (v : jsstring) :
  getFieldValue row fields = Some v ->
  exists f : jsstring, f ∈ fields /\ is_Some (row !! f).
Proof.
  induction fields as [|g fields IH]; simpl; [done|].
  destruct (usable (row !! g)) as [s|] eqn:Hg.
  - intros _. exists g. split; [apply list_elem_of_here|].
    apply usable_Some in Hg as [Hg _]. by eexists.
  - intros Hv. destruct (IH Hv) as (f & Hf & Hsome).
    exists f. split; [by apply list_elem_of_further|done].
Qed.

Lemma aliases_pass_validation :
  Forall (fun f => testIgnoreCase (lit "date") f = true) dateFields
  /\ Forall (fun f => testIgnoreCase (lit "description") f
                      || testIgnoreCase (lit "memo") f
                      || testIgnoreCase (lit "details") f = true)
       descriptionFields
  /\ Forall (fun f => testIgnoreCase (lit "amount") f
                      || testIgnoreCase (lit "value") f = true) amountFields.
Proof. repeat split; repeat constructor. Qed.

(** X6.  Header validation never turns away a file that the parser could
    read: when [parseRow] gets past its null guard on a row, a header row
    that has the columns of that row is accepted by
    [validateCSVFormat]. *)
Theorem validateCSVFormat_accepts_parsable `{Host} (row : Row)
  (rowNumber : nat) (headers : list jsstring) :
  (forall k : jsstring, is_Some (row !! k) -> k ∈ headers) ->
  parseRow row rowNumber <> Returned None ->
  validateCSVFormat (Headers headers) = Some true.
Proof.
  intros Hheaders Hparsed.
  assert (forall fields : list jsstring,
             (getFieldValue row fields = None ->
              parseRow row rowNumber = Returned None) ->
             exists f : jsstring, f ∈ fields /\ f ∈ headers) as Hfield.
  { intros fields Hnone.
    destruct (getFieldValue row fields) as [v|] eqn:Hv;
      [|by destruct Hparsed; apply Hnone].
    apply getFieldValue_Some_key in Hv as (f & Hf & Hsome).
    exists f. split; [done|]. by apply Hheaders. }
  destruct aliases_pass_validation as (Hdate & Hdescription & Hamount).
  destruct (Hfield dateFields) as (f1 & Hf1 & Hh1).
  { intros Hnone. apply parseRow_unresolved. left.
    apply not_resolved. by left. }
  destruct (Hfield descriptionFields) as (f2 & Hf2 & Hh2).
  { intros Hnone. apply parseRow_unresolved. right. left.
    apply not_resolved. by left. }
  destruct (Hfield amountFields) as (f3 & Hf3 & Hh3).
  { intros Hnone. apply parseRow_unresolved. right. right.
    apply not_resolved. by left. }
  simpl. f_equal. rewrite !andb_true_iff. repeat split.
  - apply existsb_exists. exists f1. split; [by apply list_elem_of_In|].
    rewrite Forall_forall in Hdate. by apply Hdate.
  - apply existsb_exists. exists f2. split; [by apply list_elem_of_In|].
    rewrite Forall_forall in Hdescription. by apply Hdescription.
  - apply existsb_exists. exists f3. split; [by apply list_elem_of_In|].
    rewrite Forall_forall in Hamount. by apply Hamount.
Qed.

(** The theorem at [secondAliasRow] and its four columns. *)
Lemma validateCSVFormat_accepts_parsable_witness :
  validateCSVFormat
    (Headers (List.map lit ["date"; "Date"; "memo"; "value"]%string))
  = Some true.
Proof.
  apply (validateCSVFormat_accepts_parsable (H := asciiHost)
           secondAliasRow 1).
  - intros k Hk. apply elem_of_dom in Hk.
    assert (dom secondAliasRow
            ⊆ list_to_set
                (List.map lit ["date"; "Date"; "memo"; "value"]%string))
      as Hdom by (apply (bool_decide_unpack _); vm_compute; exact I).
    apply Hdom in Hk. by apply elem_of_list_to_set in Hk.
  - vm_compute. discriminate.
Defined.

(** Validation is not resolution, though: a header that merely contains
    [date] passes, and no alias list knows it. *)
Example validateCSVFormat_loose :
  validateCSVFormat
    (Headers (List.map lit ["update"; "memory"; "valuer"]%string))
  = Some true
  /\ parseRow (H := asciiHost)
       (mkRow [("update", "2025-01-01"); ("memory", "Coffee");
               ("valuer", "-3.20")]%string) 1
     = Returned None.
Proof. split; vm_compute; reflexivity. Qed.

(** ** Saving in chunks *)

Lemma saveChunk_app (sid : jsstring) (a b : list ParsedTransaction) :
  saveChunk sid (a ++ b)
  = match saveChunk sid a, saveChunk sid b with
    | Some x, Some y => Some (x ++ y)
    | _, _ => None
    end.
Proof.
  induction a as [|p a IH]; simpl.
  - by destruct (saveChunk sid b).
  - rewrite IH. destruct (toEntity sid p); [|done].
    destruct (saveChunk sid a); [|done]. by destruct (saveChunk sid b).
Qed.

Lemma saveInChunks_all (fuel chunkSize : nat) (sid : jsstring)
  (transactions : list ParsedTransaction) (table saved : list Transaction) :
  (0 < chunkSize)%nat -> (length transactions <= fuel)%nat ->
  saveChunk sid transactions = Some saved ->
  saveInChunks fuel chunkSize sid transactions table
  = Some (true, table ++ saved).
Proof.
  intros Hsize. revert transactions table saved.
  induction fuel as [|fuel IH]; intros transactions table saved Hlen Hsaved;
    destruct transactions as [|p ps]; simpl in Hlen; try lia.
  - injection Hsaved as <-. simpl. by rewrite app_nil_r.
  - injection Hsaved as <-. simpl. by rewrite app_nil_r.
  - rewrite <- (take_drop chunkSize (p :: ps)) in Hsaved.
    rewrite saveChunk_app in Hsaved.
    cbn [saveInChunks].
    destruct (saveChunk sid (take chunkSize (p :: ps))) as [s1|]; [|done].
    destruct (saveChunk sid (drop chunkSize (p :: ps))) as [s2|] eqn:Hs2;
      [|done].
    injection Hsaved as <-.
    rewrite (IH _ _ s2); [by rewrite app_assoc | | done].
    rewrite length_drop. simpl. lia.
Qed.

Lemma saveInChunks_partial (fuel chunkSize : nat) (sid : jsstring)
  (transactions : list ParsedTransaction) (table : list Transaction) :
  (0 < chunkSize)%nat -> (length transactions <= fuel)%nat ->
  saveChunk sid transactions = None ->
  exists kept : list Transaction,
    saveInChunks fuel chunkSize sid transactions table
    = Some (false, table ++ kept)
    /\ saveChunk sid (take (length kept) transactions) = Some kept
    /\ (length kept < length transactions)%nat.
Proof.
  intros Hsize. revert transactions table.
  induction fuel as [|fuel IH]; intros transactions table Hlen Hnone;
    destruct transactions as [|p ps]; simpl in Hlen; try lia; try done.
  cbn [saveInChunks].
  pose proof (take_drop chunkSize (p :: ps)) as Hts.
  pose proof (length_drop (p :: ps) chunkSize) as Hrest.
  remember (take chunkSize (p :: ps)) as chunk eqn:Hchunk.
  remember (drop chunkSize (p :: ps)) as rest eqn:Hdrop.
  clear Hchunk Hdrop. simpl in Hrest.
  rewrite <- Hts in Hnone. rewrite saveChunk_app in Hnone.
  destruct (saveChunk sid chunk) as [s1|] eqn:Hs1.
  - destruct (saveChunk sid rest) as [s2|] eqn:Hs2; [done|].
    destruct (IH rest (table ++ s1)) as (kept & Hrun & Hkept & Hshort);
      [lia | done |].
    exists (s1 ++ kept). rewrite Hrun, app_assoc. split; [done|].
    destruct (saveChunk_Some _ _ _ Hs1) as [Hlen1 _].
    rewrite <- Hts, !length_app. split; [|lia].
    rewrite take_app_add' by done.
    by rewrite saveChunk_app, Hs1, Hkept.
  - exists []. rewrite app_nil_r. split; [done|]. split; [done|].
    simpl. lia.
Qed.



(** ** The outcome of an ingestion *)

(** X8.  Ingestion only ever appends rows of its own statement to the
    transactions table.  It ends PROCESSED, with at least one row stored,
    one stored row per successful row, and the counts of the batch, which
    add up to the number of rows of the file; or FAILED, reporting every
    count as 0 whatever was read.  A file none of whose rows parses is
    FAILED and leaves the table as it was. *)
Theorem processStatementFromBuffer_outcome `{Host} (table : list Transaction)
  (sid : jsstring) (rows : list Row) :
  let run := processStatementFromBuffer table sid rows in
  (exists added : list Transaction,
      run.2 = table ++ added
      /\ Forall (fun t => statementId t = sid) added
      /\ (pr_status run.1 = PROCESSED ->
          length added = pr_successfulTransactions run.1))
  /\ (pr_status run.1 = PROCESSED
      /\ pr_transactionCount run.1 = length rows
      /\ (0 < pr_successfulTransactions run.1)%nat
      /\ (pr_successfulTransactions run.1 + pr_failedTransactions run.1)%nat
         = length rows
      \/ pr_status run.1 = FAILED
         /\ pr_transactionCount run.1 = 0%nat
         /\ pr_successfulTransactions run.1 = 0%nat
         /\ pr_failedTransactions run.1 = 0%nat)
  /\ (transactions (parseCSV rows) = [] ->
      pr_status run.1 = FAILED /\ run.2 = table).
Proof.
  cbv zeta. unfold processStatementFromBuffer.
  destruct (parseCSV_consistent rows) as (Hs & Hf & Ht).
  pose proof (parseCSV_totalRows rows) as Hrows.
  destruct (transactions (parseCSV rows)) as [|p ps] eqn:Hps.
  { simpl. split; [|split; [by right | done]].
    exists []. rewrite app_nil_r. done. }
  destruct (saveChunk sid (p :: ps)) as [saved|] eqn:Hsaved.
  - rewrite (saveInChunks_all _ 1000 sid (p :: ps) table saved)
      by (done || lia).
    apply saveChunk_Some in Hsaved as [Hlen Hsid]. simpl.
    split; [|split; [left | done]].
    + exists saved. split; [done|]. split; [done|]. intros _.
      rewrite Hlen, Hs. done.
    + simpl in Hs. repeat split; lia.
  - destruct (saveInChunks_partial (length (p :: ps)) 1000 sid (p :: ps)
                table) as (kept & -> & Hkept & _); [lia | done | done |].
    apply saveChunk_Some in Hkept as [_ Hsid]. simpl.
    split; [|split; [by right | done]].
    exists kept. done.
Qed.

(** ** The aggregates of the analytics engine *)

Lemma round2_whole (x : Q) : round2 x == num (Math_round (x * 100)).
Proof.
  unfold round2. rewrite orZero_eq.
  unfold num, Qeq, Qdiv, Qmult, Qinv, inject_Z. simpl. lia.
Qed.

Lemma round4_whole (x : Q) :
  round4 x == Math_round (x * 10000) # 10000.
Proof.
  unfold round4. rewrite orZero_eq.
  unfold Qeq, Qdiv, Qmult, Qinv, inject_Z. simpl. lia.
Qed.





(** X9.  Every monetary field of the insights that [computeInsights]
    returns is a whole number of hundredths, and the parsing success
    rate a whole number of ten-thousandths. *)
Theorem computeInsights_hundredths (repo : Repository) (sid : jsstring)
  (ins : ComputedInsights) :
  computeInsights repo sid = Returned ins ->
  Forall wholeHundredths (monetaryFields ins)
  /\ exists z : Z, parsingSuccessRate ins == z # 10000.
Proof.
  intros Hins. unfold computeInsights in Hins.
  destruct (find repo sid) as [|t ts]; [discriminate|].
  injection Hins as <-. split.
  - unfold monetaryFields. cbn -[round2].
    repeat (constructor; [eexists; apply round2_whole|]). constructor.
  - eexists. cbn -[round4]. apply round4_whole.
Qed.

(** The theorem at [salaryAndRent]. *)
Lemma computeInsights_hundredths_witness :
  exists ins : ComputedInsights,
    computeInsights salaryAndRent (lit "statement-1") = Returned ins
    /\ Forall wholeHundredths (monetaryFields ins)
    /\ exists z : Z, parsingSuccessRate ins == z # 10000.
Proof.
  eexists. split; [reflexivity|].
  apply (computeInsights_hundredths salaryAndRent (lit "statement-1")).
  reflexivity.
Defined.

Lemma computeInsights_Returned (repo : Repository) (sid : jsstring)
  (ins : ComputedInsights) :
  computeInsights repo sid = Returned ins -> find repo sid <> [].
Proof.
  unfold computeInsights. by destruct (find repo sid).
Qed.








(** *** The monthly average *)








Example avgMonthlyIncome_threeSalaries :
  match computeInsights threeSalaries (lit "statement-1") with
  | Returned ins =>
      totalIncome ins == 15000 /\ avgMonthlyIncome ins == 762712 # 100
  | Thrown _ => False
  end.
Proof. vm_compute. split; reflexivity. Qed.

(** *** Balances and overdrafts *)

Lemma fold_Qmin_le (xs : list Q) (acc : Q) :
  fold_left Qmin xs acc <= acc
  /\ forall x : Q, x ∈ xs -> fold_left Qmin xs acc <= x.
Proof.
  revert acc. induction xs as [|y xs IH]; intros acc; simpl.
  - split; [apply Qle_refl|]. intros x Hx. by apply elem_of_nil in Hx.
  - destruct (IH (Qmin acc y)) as [Hacc Hall]. split.
    + eapply Qle_trans; [exact Hacc | apply Q.le_min_l].
    + intros x Hx. apply elem_of_cons in Hx as [->|Hx]; [|by apply Hall].
      eapply Qle_trans; [exact Hacc | apply Q.le_min_r].
Qed.


Lemma fold_Qmin_elem (xs : list Q) (acc : Q) :
  fold_left Qmin xs acc = acc \/ fold_left Qmin xs acc ∈ xs.
Proof.
  revert acc. induction xs as [|y xs IH]; intros acc; simpl; [by left|].
  destruct (IH (Qmin acc y)) as [->|Hin].
  - unfold Qmin, GenericMinMax.gmin. destruct (acc ?= y);
      [by left | by left | right; apply list_elem_of_here].
  - right. by apply list_elem_of_further.
Qed.


Lemma Math_min_spec (xs : list Q) :
  xs <> [] ->
  Math_min xs ∈ xs /\ forall x : Q, x ∈ xs -> Math_min xs <= x.
Proof.
  destruct xs as [|y xs]; [done|]. intros _. simpl.
  destruct (fold_Qmin_le xs y) as [Hy Hall]. split.
  - destruct (fold_Qmin_elem xs y) as [->|Hin];
      [apply list_elem_of_here | by apply list_elem_of_further].
  - intros x Hx. apply elem_of_cons in Hx as [->|Hx]; [done|by apply Hall].
Qed.





Lemma balanceSeries_elem (ts : list Transaction) (x : Q) :
  x ∈ balanceSeries ts <-> exists t : Transaction, t ∈ ts /\ x = num (balance t).
Proof.
  unfold balanceSeries. rewrite list_elem_of_In, in_map_iff. split.
  - intros (t & <- & Hin). exists t. by rewrite list_elem_of_In.
  - intros (t & Hin & ->). exists t. by rewrite <- list_elem_of_In.
Qed.



Lemma countOverdrafts_cons (t : Transaction) (ts : list Transaction) :
  countOverdrafts (balanceSeries (t :: ts))
  = ((if Qlt_bool (num (balance t)) 0 then 1 else 0)
     + countOverdrafts (balanceSeries ts))%nat.
Proof.
  unfold countOverdrafts, balanceSeries. simpl.
  by destruct (Qlt_bool (num (balance t)) 0).
Qed.

Lemma countBouncedPayments_le (ts : list Transaction) :
  (countBouncedPayments ts <= countOverdrafts (balanceSeries ts))%nat.
Proof.
  induction ts as [|t ts IH]; [simpl; lia|].
  rewrite countOverdrafts_cons.
  destruct ts as [|next rest]; [simpl; lia|].
  change (countBouncedPayments (t :: next :: rest))
    with ((if looksBounced t next then 1 else 0)
          + countBouncedPayments (next :: rest))%nat.
  unfold looksBounced.
  set (bounced := countBouncedPayments (next :: rest)) in *.
  set (overdrafts := countOverdrafts (balanceSeries (next :: rest))) in *.
  clearbody bounced overdrafts.
  destruct (bool_decide (type t = DEBIT)),
    (Qlt_bool 100 (num (amount t))), (Qlt_bool (num (balance t)) 0),
    (bool_decide (category next = FEES_CHARGES)); simpl; lia.
Qed.

Lemma countOverdrafts_le (xs : list Q) :
  (countOverdrafts xs <= length xs)%nat.
Proof. unfold countOverdrafts. apply List.filter_length_le. Qed.

Lemma countOverdrafts_pos (xs : list Q) :
  (0 < countOverdrafts xs)%nat <-> exists x : Q, x ∈ xs /\ x < 0.
Proof.
  unfold countOverdrafts. induction xs as [|x xs IH]; simpl.
  - split; [lia|]. intros (x & Hx & _). by apply elem_of_nil in Hx.
  - destruct (Qlt_bool_spec x 0) as [Hlt|Hge]; simpl.
    + split; [|lia]. intros _. exists x. split; [apply list_elem_of_here|done].
    + rewrite IH. split.
      * intros (y & Hy & Hlt). exists y. split; [|done].
        by apply list_elem_of_further.
      * intros (y & Hy & Hlt). apply elem_of_cons in Hy as [->|Hy]; [done|].
        by exists y.
Qed.

(** X14.  Of a statement whose insights are computed, the bounced
    payments counted are at most the overdrafts counted, which are at
    most the transactions; and an overdraft is counted exactly when the
    lowest balance reported is negative. *)
Theorem overdrafts_counted (repo : Repository) (sid : jsstring)
  (ins : ComputedInsights) :
  computeInsights repo sid = Returned ins ->
  (bouncedPaymentCount ins <= overdraftCount ins)%nat
  /\ (overdraftCount ins <= totalTransactions ins)%nat
  /\ ((0 < overdraftCount ins)%nat <-> minBalance ins < 0).
Proof.
  intros Hins. pose proof (computeInsights_Returned _ _ _ Hins) as Hne.
  rewrite (computeInsights_returns repo sid Hne) in Hins.
  injection Hins as <-.
  cbn -[round2 Math_min countOverdrafts countBouncedPayments balanceSeries].
  assert (balanceSeries (find repo sid) <> []) as Hseries.
  { unfold balanceSeries. by destruct (find repo sid). }
  split; [apply countBouncedPayments_le|]. split.
  - etransitivity; [apply countOverdrafts_le|].
    unfold balanceSeries. by rewrite length_map.
  - destruct (Math_min_spec _ Hseries) as [Hmin_in Hmin].
    assert (round2 (Math_min (balanceSeries (find repo sid)))
            == Math_min (balanceSeries (find repo sid))) as ->.
    { apply balanceSeries_elem in Hmin_in as (t & _ & ->). apply round2_num. }
    rewrite countOverdrafts_pos. split.
    + intros (x & Hx & Hlt). eapply Qle_lt_trans; [by apply Hmin | done].
    + intros Hlt. by eexists.
Qed.

(** The theorem at [overdrawnAccount]: one bounced payment, two
    overdrafts, three transactions, and a lowest balance of -45.00. *)
Lemma overdrafts_counted_witness :
  exists ins : ComputedInsights,
    computeInsights overdrawnAccount (lit "statement-1") = Returned ins
    /\ (bouncedPaymentCount ins, overdraftCount ins, totalTransactions ins)
       = (1, 2, 3)%nat
    /\ (bouncedPaymentCount ins <= overdraftCount ins)%nat
    /\ (overdraftCount ins <= totalTransactions ins)%nat
    /\ ((0 < overdraftCount ins)%nat <-> minBalance ins < 0).
Proof.
  eexists. split; [reflexivity|]. split; [reflexivity|].
  apply (overdrafts_counted overdrawnAccount (lit "statement-1")).
  reflexivity.
Defined.

Lemma riskFlags_elem (ts : list Transaction) (flag : RiskFlag) :
  flag ∈ ra_riskFlags (computeRiskAnalysis ts)
  <-> (flag = OverdraftIncidents (countOverdrafts (balanceSeries ts))
       /\ (0 < countOverdrafts (balanceSeries ts))%nat)
      \/ (flag = BouncedPayments (countBouncedPayments ts)
          /\ (0 < countBouncedPayments ts)%nat)
      \/ (flag = HighFees (feesTotal ts) /\ 100 < feesTotal ts)
      \/ (flag = LowAverageDailyBalance
          /\ meanOf (balanceSeries ts) < 100)
      \/ (flag = VolatileSpending /\ volatileSpending ts = true).
Proof.
  cbn -[countOverdrafts countBouncedPayments balanceSeries meanOf feesTotal
        volatileSpending Nat.ltb].
  rewrite !elem_of_app.
  destruct (Nat.ltb_spec 0 (countOverdrafts (balanceSeries ts)));
    destruct (Nat.ltb_spec 0 (countBouncedPayments ts));
    destruct (Qlt_bool_spec 100 (feesTotal ts));
    destruct (Qlt_bool_spec (meanOf (balanceSeries ts)) 100);
    destruct (volatileSpending ts);
    rewrite ?elem_of_cons, ?elem_of_nil;
    intuition (try congruence; try lia).
Qed.

Lemma riskFlags_NoDup (ts : list Transaction) :
  NoDup (ra_riskFlags (computeRiskAnalysis ts)).
Proof.
  cbn -[countOverdrafts countBouncedPayments balanceSeries meanOf feesTotal
        volatileSpending Nat.ltb].
  destruct (0 <? _)%nat; destruct (0 <? _)%nat; destruct (Qlt_bool 100 _);
    destruct (Qlt_bool _ 100); destruct (volatileSpending _); simpl;
    repeat (apply NoDup_cons; split;
            [rewrite ?elem_of_cons, ?elem_of_nil; intuition congruence|]);
    apply NoDup_nil_2.
Qed.

Lemma riskLevel_HIGH_flagged (ts : list Transaction) :
  ra_riskLevel (computeRiskAnalysis ts) = HIGH ->
  exists flag : RiskFlag, flag ∈ ra_riskFlags (computeRiskAnalysis ts).
Proof.
  change (ra_riskLevel (computeRiskAnalysis ts))
    with (overallRiskLevel (countOverdrafts (balanceSeries ts))
            (countBouncedPayments ts) (meanOf (balanceSeries ts))
            (feesTotal ts)).
  unfold overallRiskLevel.
  destruct (Nat.ltb_spec 5 (countOverdrafts (balanceSeries ts)));
    [|destruct (Nat.ltb_spec 2 (countBouncedPayments ts));
      [|destruct (Qlt_bool_spec (meanOf (balanceSeries ts)) 50) as [Hlow|Hlow]]];
    cbn [orb]; try (destruct (_ || _); discriminate); intros _.
  - exists (OverdraftIncidents (countOverdrafts (balanceSeries ts))).
    apply riskFlags_elem. left. split; [done|lia].
  - exists (BouncedPayments (countBouncedPayments ts)).
    apply riskFlags_elem. right. left. split; [done|lia].
  - exists LowAverageDailyBalance.
    apply riskFlags_elem. do 3 right. left. split; [done|].
    eapply Qlt_trans; [exact Hlow | reflexivity].
Qed.

Lemma riskLevel_LOW_flags (ts : list Transaction) (flag : RiskFlag) :
  ra_riskLevel (computeRiskAnalysis ts) = LOW ->
  flag ∈ ra_riskFlags (computeRiskAnalysis ts) ->
  minorFlag flag.
Proof.
  rewrite riskFlags_elem.
  change (ra_riskLevel (computeRiskAnalysis ts))
    with (overallRiskLevel (countOverdrafts (balanceSeries ts))
            (countBouncedPayments ts) (meanOf (balanceSeries ts))
            (feesTotal ts)).
  unfold overallRiskLevel.
  destruct (Nat.ltb_spec 5 (countOverdrafts (balanceSeries ts)));
    destruct (Nat.ltb_spec 2 (countBouncedPayments ts));
    destruct (Qlt_bool_spec (meanOf (balanceSeries ts)) 50);
    cbn [orb]; try discriminate.
  destruct (Nat.ltb_spec 2 (countOverdrafts (balanceSeries ts)));
    destruct (Nat.ltb_spec 0 (countBouncedPayments ts));
    destruct (Qlt_bool_spec (meanOf (balanceSeries ts)) 200) as [Hmean|Hmean];
    destruct (Qlt_bool_spec 50 (feesTotal ts)) as [Hfees|Hfees];
    cbn [orb]; try discriminate.
  intros _ Hflag.
  destruct Hflag as [[-> _]|[[-> Hpos]|[[-> Hhigh]|[[-> Hlow]|[-> _]]]]];
    simpl; try done; try lia.
  - apply Hfees. eapply Qlt_trans; [|exact Hhigh]. reflexivity.
  - apply Hmean. eapply Qlt_trans; [exact Hlow | reflexivity].
Qed.

(** X15.  Of a statement whose insights are computed: each kind of flag
    is raised at most once and carries the count reported; a statement
    rated HIGH carries at least one flag; and a statement rated LOW
    carries no flag other than overdraft incidents, at most two of
    them, and volatile spending. *)
Theorem riskFlags_agree_with_level (repo : Repository) (sid : jsstring)
  (ins : ComputedInsights) :
  computeInsights repo sid = Returned ins ->
  NoDup (riskFlags ins)
  /\ (forall n : nat,
         OverdraftIncidents n ∈ riskFlags ins
         <-> n = overdraftCount ins /\ (0 < n)%nat)
  /\ (forall n : nat,
         BouncedPayments n ∈ riskFlags ins
         <-> n = bouncedPaymentCount ins /\ (0 < n)%nat)
  /\ (riskLevel ins = HIGH -> riskFlags ins <> [])
  /\ (riskLevel ins = LOW ->
      forall flag : RiskFlag, flag ∈ riskFlags ins -> minorFlag flag).
Proof.
  intros Hins. pose proof (computeInsights_Returned _ _ _ Hins) as Hne.
  rewrite (computeInsights_returns repo sid Hne) in Hins.
  injection Hins as <-.
  change (NoDup (ra_riskFlags (computeRiskAnalysis (find repo sid)))
    /\ (forall n : nat,
           OverdraftIncidents n
           ∈ ra_riskFlags (computeRiskAnalysis (find repo sid))
           <-> n = countOverdrafts (balanceSeries (find repo sid))
               /\ (0 < n)%nat)
    /\ (forall n : nat,
           BouncedPayments n
           ∈ ra_riskFlags (computeRiskAnalysis (find repo sid))
           <-> n = countBouncedPayments (find repo sid) /\ (0 < n)%nat)
    /\ (ra_riskLevel (computeRiskAnalysis (find repo sid)) = HIGH ->
        ra_riskFlags (computeRiskAnalysis (find repo sid)) <> [])
    /\ (ra_riskLevel (computeRiskAnalysis (find repo sid)) = LOW ->
        forall flag : RiskFlag,
          flag ∈ ra_riskFlags (computeRiskAnalysis (find repo sid)) ->
          minorFlag flag)).
  split; [apply riskFlags_NoDup|]. split; [|split; [|split]].
  - intros n. rewrite riskFlags_elem. split.
    + intros [[Heq Hpos]|[[? _]|[[? _]|[[? _]|[? _]]]]]; try discriminate.
      by injection Heq as ->.
    + intros [-> Hpos]. by left.
  - intros n. rewrite riskFlags_elem. split.
    + intros [[? _]|[[Heq Hpos]|[[? _]|[[? _]|[? _]]]]]; try discriminate.
      by injection Heq as ->.
    + intros [-> Hpos]. right. by left.
  - intros Hhigh Hnil.
    destruct (riskLevel_HIGH_flagged _ Hhigh) as [flag Hflag].
    rewrite Hnil in Hflag. by apply elem_of_nil in Hflag.
  - intros Hlow flag. by apply riskLevel_LOW_flags.
Qed.

(** The theorem at [overdrawnAccount], which is rated HIGH and carries
    three flags. *)
Lemma riskFlags_agree_with_level_witness :
  exists ins : ComputedInsights,
    computeInsights overdrawnAccount (lit "statement-1") = Returned ins
    /\ riskLevel ins = HIGH
    /\ riskFlags ins
       = [OverdraftIncidents 2; BouncedPayments 1; LowAverageDailyBalance]
    /\ NoDup (riskFlags ins)
    /\ (forall n : nat,
           OverdraftIncidents n ∈ riskFlags ins
           <-> n = overdraftCount ins /\ (0 < n)%nat)
    /\ (forall n : nat,
           BouncedPayments n ∈ riskFlags ins
           <-> n = bouncedPaymentCount ins /\ (0 < n)%nat)
    /\ (riskLevel ins = HIGH -> riskFlags ins <> [])
    /\ (riskLevel ins = LOW ->
        forall flag : RiskFlag, flag ∈ riskFlags ins -> minorFlag flag).
Proof.
  eexists. split; [reflexivity|]. split; [reflexivity|].
  split; [reflexivity|].
  apply (riskFlags_agree_with_level overdrawnAccount (lit "statement-1")).
  reflexivity.
Defined.

(** ** More of the bureau client *)

Lemma truthy_Some (s : option jsstring) (x : jsstring) :
  truthy s = Some x -> x <> [].
Proof. destruct s as [[|c s]|]; simpl; intros Heq; by inversion Heq. Qed.

(** X16.  [extractErrorMessage] never returns an empty message, so the
    fallback ['Unknown error'] of the retry loop is never used for an
    error of the HTTP library. *)
Theorem extractErrorMessage_nonempty (e : AxiosError) :
  extractErrorMessage e <> Text []
  /\ orUnknownError (Some (extractErrorMessage e)) = extractErrorMessage e.
Proof.
  assert (extractErrorMessage e <> Text []) as Hne.
  { unfold extractErrorMessage.
    destruct (response_data e) as [body|].
    - destruct (truthy (body_error body)) as [x|] eqn:Hx.
      { apply truthy_Some in Hx. congruence. }
      destruct (truthy (body_message body)) as [y|] eqn:Hy.
      { apply truthy_Some in Hy. congruence. }
      repeat case_match; try discriminate; congruence.
    - repeat case_match; try discriminate; congruence. }
  split; [done|]. unfold orUnknownError.
  destruct (extractErrorMessage e) as [[|c s]| |]; done.
Qed.

Lemma extractErrorMessage_own (e : AxiosError) (n : nat)
  (last : ErrorMessage) :
  extractErrorMessage e <> FailedAfterRetries n last.
Proof. unfold extractErrorMessage. repeat case_match; congruence. Qed.

Section ClientRuns.

Context (oracle : Oracle) (maxRetries : nat) (retryDelayMs : Q).

Local Ltac run_client :=
  unfold mbind, mret, M_bind, M_ret, Date_now, sleep, Math_random, httpPost
    in *.

(** One iteration of the loop, in full. *)
Lemma iteration_trace (attempt : nat) (request : BureauApiRequest)
  (startTime : Q) (locals : Locals) (w : World) :
  let '(_, result, w') :=
    iteration oracle retryDelayMs attempt request startTime locals w in
  error result = outcomeError (post oracle (posts w))
  /\ responseTime result = now w' - startTime
  /\ requestResult result
  /\ exists delays : list Q,
       slept w' = slept w ++ delays
       /\ Forall (fun d => d <= maxDelay) delays
       /\ length delays = (attempt - pred attempt)%nat
       /\ draws w' = (draws w + length delays)%nat.
Proof.
  unfold iteration, backOff, calculateBackoffDelay, makeRequest, requestResult.
  destruct attempt as [|attempt]; run_client; cbn [Nat.ltb Nat.leb fst snd].
  - cbn [posts now slept draws].
    destruct (post oracle (posts w)) as [status body|e|m];
      cbn [success data error responseTime bureauReferenceId outcomeError];
      (split; [done|]); (split; [done|]); split;
      try (exists []; rewrite app_nil_r; simpl;
           repeat split; [apply Forall_nil_2 | lia]).
    + by split.
    + split; [done|]. split; [done|]. eexists. split; [done|].
      apply extractErrorMessage_own.
    + split; [done|]. split; [done|]. eexists. split; [done|]. done.
  - cbn [posts now slept draws].
    destruct (post oracle (posts w)) as [status body|e|m];
      cbn [success data error responseTime bureauReferenceId outcomeError];
      (split; [done|]); (split; [done|]); split;
      try (eexists [_]; split; [reflexivity|];
           split; [apply Forall_singleton, Q.le_min_r|];
           simpl; split; lia).
    + by split.
    + split; [done|]. split; [done|]. eexists. split; [done|].
      apply extractErrorMessage_own.
    + split; [done|]. split; [done|]. eexists. split; [done|]. done.
Qed.

(** What a run of the loop leaves behind. *)
Lemma attempts_trace (remaining : nat) :
  forall (attempt : nat) (request : BureauApiRequest) (startTime : Q)
         (locals : Locals) (w : World),
    l_retryCount locals = pred attempt ->
    let '(returned, locals', w') :=
      attempts oracle retryDelayMs remaining attempt request startTime
        locals w in
    exists delays : list Q,
      slept w' = slept w ++ delays
      /\ Forall (fun d => d <= maxDelay) delays
      /\ draws w' = (draws w + length delays)%nat
      /\ match returned with
         | Some r =>
             (attempt <= retryCount r < attempt + remaining)%nat
             /\ length delays = (retryCount r - pred attempt)%nat
             /\ (posts w' + attempt = posts w + retryCount r + 1)%nat
             /\ responseTime r = now w' - startTime
             /\ requestResult r
             /\ (success r = false ->
                 isRetryableError (httpStatusCode r) = false)
             /\ (let o := post oracle (posts w + (retryCount r - attempt)) in
                 success r = succeeded o
                 /\ httpStatusCode r = outcomeStatus o
                 /\ error r = outcomeError o)
         | None =>
             posts w' = (posts w + remaining)%nat
             /\ (forall i : nat,
                    (i < remaining)%nat ->
                    retried (post oracle (posts w + i)))
             /\ match remaining with
                | O => locals' = locals /\ delays = []
                | S n =>
                    let last := post oracle (posts w + n) in
                    l_retryCount locals' = (attempt + n)%nat
                    /\ length delays = (attempt + n - pred attempt)%nat
                    /\ l_httpStatusCode locals' = outcomeStatus last
                    /\ l_lastError locals'
                       = orUnknownError (outcomeError last)
                end
         end.
Proof.
  induction remaining as [|remaining IH];
    intros attempt request startTime locals w Hcount.
  - simpl. exists []. rewrite app_nil_r. repeat split; try done; lia.
  - rewrite attempts_unfold.
    pose proof (iteration_run oracle retryDelayMs attempt request startTime
                  locals w Hcount) as Hrun.
    pose proof (iteration_trace attempt request startTime locals w) as Htrace.
    destruct (iteration oracle retryDelayMs attempt request startTime locals w)
      as [[retryCount result] w1].
    destruct Hrun as (-> & Hposts & Hsuccess & Hstatus).
    destruct Htrace as (Herror & Htime & Hshape & delays1 & Hslept & Hcap
                        & Hlen & Hdraws).
    destruct (success result) eqn:Hs.
    { exists delays1. simpl. rewrite Nat.sub_diag, Nat.add_0_r.
      repeat split; try done; simpl; try lia; congruence. }
    destruct (isRetryableError (httpStatusCode result)) eqn:Hr; simpl.
    2: { exists delays1. simpl. rewrite Nat.sub_diag, Nat.add_0_r.
         repeat split; try done; simpl; try lia; congruence. }
    specialize (IH (S attempt) request startTime
                  {| l_retryCount := attempt;
                     l_lastError := orUnknownError (error result);
                     l_httpStatusCode := httpStatusCode result |} w1 eq_refl).
    destruct (attempts oracle retryDelayMs remaining (S attempt) request
                startTime _ w1) as [[returned locals'] w'].
    destruct IH as (delays2 & Hslept2 & Hcap2 & Hdraws2 & Hrest).
    exists (delays1 ++ delays2).
    split; [by rewrite Hslept2, Hslept, app_assoc|].
    split; [by apply Forall_app|].
    split; [rewrite length_app; lia|].
    destruct returned as [r|].
    + destruct Hrest as (Hrc & Hlen2 & Hposts2 & Htime2 & Hshape2 & Hfail
                         & Hlast).
      simpl in Hlen2. rewrite length_app. cbv zeta in Hlast |- *.
      replace (posts w + (retryCount r - attempt))%nat
        with (posts w1 + (retryCount r - S attempt))%nat by lia.
      repeat split; try tauto; lia.
    + destruct Hrest as (Hposts2 & Hretried & Hlast). split; [lia|]. split.
      * intros [|i] Hi.
        -- rewrite Nat.add_0_r. split; congruence.
        -- replace (posts w + S i)%nat with (posts w1 + i)%nat by lia.
           apply Hretried. lia.
      * destruct remaining as [|n].
        -- destruct Hlast as [-> ->]. simpl.
           rewrite app_nil_r, !Nat.add_0_r, Herror, Hstatus.
           by repeat split.
        -- cbv zeta in Hlast |- *.
           replace (posts w + S n)%nat with (posts w1 + n)%nat by lia.
           destruct Hlast as (Hrc & Hlen2 & Hst & Herr). simpl in Hlen2.
           rewrite length_app. repeat split; try done; lia.
Qed.

End ClientRuns.

(** X17.  Whatever the bureau answers, a run of [checkCredit] makes one
    attempt more than the retries it reports, and never more than
    [maxRetries] retries; it sleeps once before each retry, drawing one
    random number each time, and never longer than 30 seconds; and the
    response time it reports is the time the whole run took, the sleeps
    included. *)
Theorem checkCredit_accounting (oracle : Oracle) (maxRetries : nat)
  (retryDelayMs : Q) (request : BureauApiRequest) (w : World) :
  let run := checkCredit oracle maxRetries retryDelayMs request w in
  attemptsMade w run.2 = (retryCount run.1 + 1)%nat
  /\ (retryCount run.1 <= maxRetries)%nat
  /\ (exists delays : list Q,
         slept run.2 = slept w ++ delays
         /\ length delays = retryCount run.1
         /\ Forall (fun d => d <= maxDelay) delays)
  /\ draws run.2 = (draws w + retryCount run.1)%nat
  /\ responseTime run.1 = now run.2 - now w.
Proof.
  cbv zeta. rewrite checkCredit_unfold. unfold attemptsMade.
  pose proof (attempts_trace oracle retryDelayMs (S maxRetries) 0 request
                (now w) initialLocals w eq_refl) as Htrace.
  destruct (attempts oracle retryDelayMs (S maxRetries) 0 request (now w)
              initialLocals w) as [[[r|] locals] w'];
    destruct Htrace as (delays & Hslept & Hcap & Hdraws & Hrest); simpl.
  - destruct Hrest as (Hrc & Hlen & Hposts & Htime & _).
    simpl in Hlen. rewrite Nat.sub_0_r in Hlen.
    split; [lia|]. split; [lia|]. split; [by exists delays|].
    split; [lia|done].
  - destruct Hrest as (Hposts & _ & Hrc & Hlen & _ & _).
    simpl in Hrc, Hlen. rewrite Nat.sub_0_r in Hlen.
    split; [lia|]. split; [lia|]. split; [exists delays; by rewrite Hrc|].
    split; [lia|done].
Qed.


(** X19.  When every one of the [maxRetries + 1] attempts fails in a way
    the client retries, [checkCredit] gives up: it reports a failure
    with [retryCount = maxRetries], the status of the last attempt, and
    the message of the last attempt wrapped in "Failed after
    [maxRetries] retries". *)
Theorem checkCredit_gives_up (oracle : Oracle) (maxRetries : nat)
  (retryDelayMs : Q) (request : BureauApiRequest) (w : World) :
  (forall i : nat,
      (i <= maxRetries)%nat -> retried (post oracle (posts w + i))) ->
  let run := checkCredit oracle maxRetries retryDelayMs request w in
  let last := post oracle (posts w + maxRetries) in
  success run.1 = false
  /\ retryCount run.1 = maxRetries
  /\ attemptsMade w run.2 = (maxRetries + 1)%nat
  /\ httpStatusCode run.1 = outcomeStatus last
  /\ error run.1
     = Some (FailedAfterRetries maxRetries
               (orUnknownError (outcomeError last))).
Proof.
  intros Hall. cbv zeta. rewrite checkCredit_unfold. unfold attemptsMade.
  pose proof (attempts_trace oracle retryDelayMs (S maxRetries) 0 request
                (now w) initialLocals w eq_refl) as Htrace.
  destruct (attempts oracle retryDelayMs (S maxRetries) 0 request (now w)
              initialLocals w) as [[[r|] locals] w'];
    destruct Htrace as (delays & _ & _ & _ & Hrest); simpl.
  - exfalso.
    destruct Hrest as (Hrc & _ & _ & _ & _ & Hfail & Hs & Hst & _).
    rewrite Nat.sub_0_r in Hs, Hst.
    destruct (Hall (retryCount r)) as [Hf Hretry]; [lia|].
    rewrite <- Hs in Hf. rewrite <- Hst in Hretry.
    rewrite (Hfail Hf) in Hretry. discriminate.
  - destruct Hrest as (Hposts & _ & Hrc & _ & Hst & Herr).
    simpl in Hrc. cbv zeta in Hst, Herr.
    rewrite Hrc, Hst, Herr. repeat split; try done; lia.
Qed.

(** The theorem at a bureau that answers 503 every time, with the
    default of 3 retries. *)
Lemma checkCredit_gives_up_witness :
  let run := checkCredit alwaysUnavailable 3 1000 sampleRequest freshWorld in
  let last := post alwaysUnavailable (posts freshWorld + 3) in
  success run.1 = false
  /\ retryCount run.1 = 3%nat
  /\ attemptsMade freshWorld run.2 = (3 + 1)%nat
  /\ httpStatusCode run.1 = outcomeStatus last
  /\ error run.1
     = Some (FailedAfterRetries 3 (orUnknownError (outcomeError last))).
Proof.
  apply (checkCredit_gives_up alwaysUnavailable 3 1000 sampleRequest
           freshWorld).
  intros i _. split; reflexivity.
Defined.

Example checkCredit_alwaysUnavailable :
  let run := checkCredit alwaysUnavailable 3 1000 sampleRequest freshWorld in
  error run.1
  = Some (FailedAfterRetries 3
            (Text (lit "Bureau service temporarily unavailable")))
  /\ httpStatusCode run.1 = 503%Z
  /\ List.map Qred (slept run.2) = [1150; 2300; 4600].
Proof. vm_compute. repeat split; reflexivity. Qed.

Lemma exponentialDelay_nonneg (retryDelayMs : Q) (attempt : nat) :
  0 <= retryDelayMs -> 0 <= exponentialDelay retryDelayMs attempt.
Proof.
  intros Hbase. unfold exponentialDelay. apply Qmult_le_0_compat; [done|].
  change 0 with (inject_Z 0). rewrite <- Zle_Qle. lia.
Qed.

(** X20.  For a non-negative base delay and a random number in [0, 1),
    the delay before retry [attempt] is the doubled base delay
    [retryDelayMs * 2^(attempt - 1)] plus at most 30% of it, capped at
    30 seconds; and the doubled base delay doubles with every retry. *)
Theorem calculateBackoffDelay_bounds (oracle : Oracle) (retryDelayMs : Q)
  (attempt : nat) (w : World) :
  (0 < attempt)%nat ->
  0 <= retryDelayMs ->
  0 <= random oracle (draws w) < 1 ->
  let delay := (calculateBackoffDelay oracle retryDelayMs attempt w).1 in
  Qmin (exponentialDelay retryDelayMs attempt) maxDelay <= delay
  /\ delay <= Qmin (exponentialDelay retryDelayMs attempt * (13 # 10)) maxDelay
  /\ exponentialDelay retryDelayMs (S attempt)
     == 2 * exponentialDelay retryDelayMs attempt.
Proof.
  intros Hattempt Hbase [Hr0 Hr1].
  pose proof (exponentialDelay_nonneg retryDelayMs attempt Hbase) as He.
  unfold calculateBackoffDelay, mbind, mret, M_bind, M_ret, Math_random.
  cbn [fst snd]. fold (exponentialDelay retryDelayMs attempt).
  set (e := exponentialDelay retryDelayMs attempt) in *.
  set (r := random oracle (draws w)) in *.
  split; [|split].
  - apply Q.min_le_compat_r.
    apply Qle_trans with (e + 0); [rewrite Qplus_0_r; apply Qle_refl|].
    apply Qplus_le_compat; [apply Qle_refl|].
    apply Qmult_le_0_compat; [|done].
    by apply Qmult_le_0_compat.
  - apply Q.min_le_compat_r.
    assert (e * (13 # 10) == e + 1 * (3 # 10) * e) as -> by ring.
    apply Qplus_le_compat; [apply Qle_refl|].
    apply Qmult_le_compat_nonneg; [|split; [done|apply Qle_refl]].
    split; [by apply Qmult_le_0_compat|].
    apply Qmult_le_compat_r; [by apply Qlt_le_weak|done].
  - subst e. unfold exponentialDelay.
    replace (S attempt - 1)%nat with (S (attempt - 1)) by lia.
    rewrite Nat2Z.inj_succ, Z.pow_succ_r by lia.
    rewrite inject_Z_mult. ring.
Qed.

(** The theorem at the third retry of [threeFailures]: 4000 ms doubled
    from 1000 ms, plus a jitter of 600 ms. *)
Lemma calculateBackoffDelay_bounds_witness :
  let w := {| now := 0; posts := 3; draws := 2; slept := [] |} in
  let delay := (calculateBackoffDelay threeFailures 1000 3 w).1 in
  delay == 4600
  /\ Qmin (exponentialDelay 1000 3) maxDelay <= delay
  /\ delay <= Qmin (exponentialDelay 1000 3 * (13 # 10)) maxDelay
  /\ exponentialDelay 1000 4 == 2 * exponentialDelay 1000 3.
Proof.
  split; [reflexivity|].
  apply (calculateBackoffDelay_bounds threeFailures 1000 3
           {| now := 0; posts := 3; draws := 2; slept := [] |}).
  - lia.
  - vm_compute. discriminate.
  - split; vm_compute; [discriminate | reflexivity].
Defined.

(** ** Running the insights of a statement *)

Lemma find_app_l {A : Type} (f : A -> bool) (l1 l2 : list A) :
  List.find f (l1 ++ l2)
  = match List.find f l1 with
    | Some x => Some x
    | None => List.find f l2
    end.
Proof.
  induction l1 as [|x l1 IH]; [done|]. simpl. by destruct (f x).
Qed.

Lemma find_elem {A : Type} (f : A -> bool) (l : list A) (x : A) :
  List.find f l = Some x -> x ∈ l /\ f x = true.
Proof.
  intros Hfind. apply find_some in Hfind as [Hin Hf].
  by rewrite list_elem_of_In.
Qed.

Lemma find_none_iff {A : Type} (f : A -> bool) (l : list A) :
  List.find f l = None <-> forall x : A, x ∈ l -> f x = false.
Proof.
  split.
  - intros Hfind x Hx. apply (find_none f l Hfind). by rewrite <- list_elem_of_In.
  - intros Hall. induction l as [|y l IH]; [done|]. simpl.
    rewrite (Hall y) by apply list_elem_of_here.
    apply IH. intros x Hx. apply Hall. by apply list_elem_of_further.
Qed.

Section InsightsServiceFacts.

Import InsightsService.

Context (uuid : nat -> jsstring).

(** The cases of [runInsights]. *)
Lemma runInsights_cases (db : Database) (sid uid : jsstring) :
  (findStatement db sid uid = None
   /\ runInsights uuid db sid uid
      = (Thrown (NotFoundException (lit "Statement not found")), db))
  \/ (exists statement : Statement,
         findStatement db sid uid = Some statement
         /\ st_status statement <> PROCESSED
         /\ runInsights uuid db sid uid
            = (Thrown (BadRequestException
                 (lit "Statement must be processed before computing insights")),
               db))
  \/ (exists (statement : Statement) (insight : Insight),
         findStatement db sid uid = Some statement
         /\ st_status statement = PROCESSED
         /\ findInsight db sid = Some insight
         /\ runInsights uuid db sid uid
            = (Returned (mapToResponseDto insight), db))
  \/ (exists (statement : Statement) (error : InsightsError),
         findStatement db sid uid = Some statement
         /\ st_status statement = PROCESSED
         /\ findInsight db sid = None
         /\ computeInsights (repositoryOf (transactionTable db)) sid
            = Thrown error
         /\ runInsights uuid db sid uid
            = (Thrown (BadRequestException
                         (lit "Failed to compute insights: "
                          ++ errorMessage error)), db))
  \/ (exists (statement : Statement) (computed : ComputedInsights),
         findStatement db sid uid = Some statement
         /\ st_status statement = PROCESSED
         /\ findInsight db sid = None
         /\ computeInsights (repositoryOf (transactionTable db)) sid
            = Returned computed
         /\ runInsights uuid db sid uid
            = (Returned (mapToResponseDto (saveInsight uuid db sid computed).1),
               (saveInsight uuid db sid computed).2)).
Proof.
  unfold runInsights.
  destruct (findStatement db sid uid) as [statement|] eqn:Hfind;
    [|by left].
  right.
  destruct (decide (st_status statement = PROCESSED)) as [Hstatus|Hstatus].
  2: { left. exists statement. rewrite bool_decide_eq_false_2 by done.
       by repeat split. }
  right. rewrite bool_decide_eq_true_2 by done. cbn [negb].
  destruct (findInsight db sid) as [insight|] eqn:Hinsight.
  { left. by exists statement, insight. }
  right.
  destruct (computeInsights (repositoryOf (transactionTable db)) sid)
    as [computed|error] eqn:Hcompute.
  - right. by exists statement, computed.
  - left. by exists statement, error.
Qed.

Lemma findInsight_saved (db : Database) (sid : jsstring)
  (computed : ComputedInsights) :
  findInsight db sid = None ->
  findInsight (saveInsight uuid db sid computed).2 sid
  = Some (saveInsight uuid db sid computed).1.
Proof.
  unfold findInsight. intros Hnone. cbn [saveInsight snd fst insightTable].
  rewrite find_app_l, Hnone. simpl. by rewrite bool_decide_eq_true_2.
Qed.

End InsightsServiceFacts.

(** X21.  Insights are computed once per statement.  When [runInsights]
    has returned the insights of a statement, running it again for the
    same statement and user returns the same response and stores
    nothing, whatever has happened to the transactions in between. *)
Theorem runInsights_idempotent (uuid uuid' : nat -> jsstring)
  (db db' later : Database) (sid uid : jsstring)
  (dto : InsightsService.InsightsResponseDto) :
  InsightsService.runInsights uuid db sid uid = (Returned dto, db') ->
  sameInsights later db' ->
  InsightsService.runInsights uuid' later sid uid = (Returned dto, later).
Proof.
  intros Hrun [Hstatements Hinsights].
  assert (InsightsService.findStatement later sid uid
          = InsightsService.findStatement db sid uid
          /\ exists insight : Insight,
               InsightsService.findInsight db' sid = Some insight
               /\ dto = InsightsService.mapToResponseDto insight
               /\ exists statement : Statement,
                    InsightsService.findStatement db sid uid = Some statement
                    /\ st_status statement = PROCESSED)
    as (Hfind & insight & Hinsight & -> & statement & Hstatement & Hstatus).
  { unfold InsightsService.findStatement at 1. rewrite Hstatements.
    destruct (runInsights_cases uuid db sid uid)
      as [[_ Heq]|[(s & _ & _ & Heq)|[(s & i & Hs & Hp & Hi & Heq)
          |[(s & e & _ & _ & _ & _ & Heq)|(s & c & Hs & Hp & Hi & _ & Heq)]]]];
      rewrite Heq in Hrun; try discriminate; injection Hrun as <- <-.
    - split; [done|]. exists i. split; [done|]. split; [done|]. by exists s.
    - split; [done|]. eexists. split; [by apply findInsight_saved|].
      split; [done|]. by exists s. }
  unfold InsightsService.runInsights.
  rewrite Hfind, Hstatement, bool_decide_eq_true_2 by done. cbn [negb].
  unfold InsightsService.findInsight in *. by rewrite Hinsights, Hinsight.
Qed.

(** The theorem at the statement of [afterUpload]. *)
Lemma runInsights_idempotent_witness :
  exists (dto : InsightsService.InsightsResponseDto) (db' : Database),
    InsightsService.runInsights sampleUuid afterUpload (lit "id-0")
      (lit "user-1") = (Returned dto, db')
    /\ InsightsService.runInsights sampleUuid db' (lit "id-0") (lit "user-1")
       = (Returned dto, db').
Proof.
  eexists _, _. split; [vm_compute; reflexivity|].
  eapply (runInsights_idempotent sampleUuid sampleUuid afterUpload).
  - vm_compute. reflexivity.
  - split; reflexivity.
Defined.

(** X22.  [runInsights] never touches the statements or the
    transactions, and stores nothing when it throws.  It returns
    insights only of a PROCESSED statement that the caller owns, and
    what it returns is a row of the insights table for that statement.
    It keeps the table at one insight per statement. *)
Theorem runInsights_outcome (uuid : nat -> jsstring) (db : Database)
  (sid uid : jsstring) :
  let run := InsightsService.runInsights uuid db sid uid in
  statementTable run.2 = statementTable db
  /\ transactionTable run.2 = transactionTable db
  /\ (forall e : HttpException, run.1 = Thrown e -> run.2 = db)
  /\ (forall dto : InsightsService.InsightsResponseDto,
         run.1 = Returned dto ->
         (exists statement : Statement,
             statement ∈ statementTable db
             /\ st_id statement = sid /\ st_userId statement = uid
             /\ st_status statement = PROCESSED)
         /\ exists insight : Insight,
              insight ∈ insightTable run.2
              /\ in_statementId insight = sid
              /\ dto = InsightsService.mapToResponseDto insight)
  /\ (NoDup (in_statementId <$> insightTable db) ->
      NoDup (in_statementId <$> insightTable run.2)).
Proof.
  cbv zeta.
  assert (forall statement : Statement,
             InsightsService.findStatement db sid uid = Some statement ->
             statement ∈ statementTable db
             /\ st_id statement = sid /\ st_userId statement = uid) as Howned.
  { intros statement Hfind. apply find_elem in Hfind as [Hin Hf].
    apply andb_true_iff in Hf as [Hid Huser].
    apply bool_decide_eq_true in Hid. by apply bool_decide_eq_true in Huser. }
  destruct (runInsights_cases uuid db sid uid)
    as [[_ Heq]|[(s & _ & _ & Heq)|[(s & i & Hs & Hp & Hi & Heq)
        |[(s & e & _ & _ & _ & _ & Heq)|(s & c & Hs & Hp & Hi & _ & Heq)]]]];
    rewrite Heq; cbn [fst snd];
    (split; [done|]); (split; [done|]).
  1, 2, 4: split; [done|]; split; [intros dto Hdto; discriminate | done].
  - split; [intros e He; discriminate|]. split; [|done].
    intros dto Hdto. injection Hdto as <-.
    destruct (Howned s Hs) as (Hin & Hid & Huser).
    split; [by exists s|].
    apply find_elem in Hi as [Hi Hsid]. apply bool_decide_eq_true in Hsid.
    by exists i.
  - split; [intros e He; discriminate|]. split.
    + intros dto Hdto. injection Hdto as <-.
      destruct (Howned s Hs) as (Hin & Hid & Huser).
      split; [by exists s|].
      eexists. split; [|split; [|reflexivity]]; [|done].
      cbn [InsightsService.saveInsight snd fst insightTable].
      apply elem_of_app. right. apply list_elem_of_here.
    + cbn [InsightsService.saveInsight snd fst insightTable].
      intros Hnodup. rewrite fmap_app. apply NoDup_app.
      split; [done|]. split; [|apply NoDup_singleton].
      intros x Hx Hx'. apply list_elem_of_singleton in Hx'. subst x.
      apply list_elem_of_fmap in Hx as (i & Hsid & Hin).
      unfold InsightsService.findInsight in Hi.
      rewrite find_none_iff in Hi. specialize (Hi i Hin).
      apply bool_decide_eq_false in Hi. simpl in Hsid. congruence.
Qed.

(** ** Uploading a statement *)

Section UploadFacts.

Context `{Host}.

(** What an ingestion leaves behind, by its status. *)
Lemma processStatementFromBuffer_run (table : list Transaction)
  (sid : jsstring) (rows : list Row) :
  let run := processStatementFromBuffer table sid rows in
  exists added : list Transaction,
    run.2 = table ++ added
    /\ Forall (fun t => statementId t = sid) added
    /\ (pr_status run.1 = PROCESSED
        /\ added <> []
        /\ length added = pr_successfulTransactions run.1
        /\ pr_transactionCount run.1 = length rows
        /\ (pr_successfulTransactions run.1 + pr_failedTransactions run.1)%nat
           = length rows
        \/ run.1 = {| pr_status := FAILED; pr_transactionCount := 0;
                      pr_successfulTransactions := 0;
                      pr_failedTransactions := 0 |}).
Proof.
  cbv zeta. unfold processStatementFromBuffer.
  destruct (parseCSV_consistent rows) as (Hs & Hf & Ht).
  pose proof (parseCSV_totalRows rows) as Hrows.
  destruct (transactions (parseCSV rows)) as [|p ps] eqn:Hps.
  { exists []. rewrite app_nil_r. simpl. split; [done|]. split; [done|].
    by right. }
  destruct (saveChunk sid (p :: ps)) as [saved|] eqn:Hsaved.
  - rewrite (saveInChunks_all _ 1000 sid (p :: ps) table saved)
      by (done || lia).
    apply saveChunk_Some in Hsaved as [Hlen Hsid]. simpl.
    exists saved. split; [done|]. split; [done|]. left.
    split; [done|]. split; [by destruct saved|].
    simpl in Hs, Hlen. repeat split; lia.
  - destruct (saveInChunks_partial (length (p :: ps)) 1000 sid (p :: ps)
                table) as (kept & -> & Hkept & _); [lia | done | done |].
    apply saveChunk_Some in Hkept as [_ Hsid]. simpl.
    exists kept. split; [done|]. split; [done|]. by right.
Qed.

End UploadFacts.

(** X23.  An upload that is turned away (not a CSV file by type or
    name, larger than 10 MB, or without the required columns) throws a
    bad-request error and leaves the database as it was.  An upload that
    is accepted stores exactly one statement, owned by the caller, under
    a new key, with the status and the counts of the response: PROCESSED
    with the rows of the file counted and one transaction stored per
    successful row, or FAILED with every count 0.  It stores
    transactions of that statement only, and no insight. *)
Theorem uploadStatement_outcome `{Host} (uuid : nat -> jsstring)
  (db db' : Database) (file : StatementsService.File) (userId : jsstring)
  (result : outcome HttpException StatementsService.UploadResponseDto) :
  StatementsService.uploadStatement uuid db file userId = Some (result, db') ->
  match result with
  | Thrown e =>
      db' = db /\ exists message : jsstring, e = BadRequestException message
  | Returned dto =>
      StatementsService.id dto = uuid (generated db)
      /\ statementTable db'
         = statementTable db
           ++ [{| st_id := StatementsService.id dto;
                  st_filename := StatementsService.originalname file;
                  st_fileSize := StatementsService.size file;
                  st_status := StatementsService.status dto;
                  st_transactionCount :=
                    StatementsService.transactionCount dto;
                  st_successfulTransactions :=
                    StatementsService.successfulTransactions dto;
                  st_failedTransactions :=
                    StatementsService.failedTransactions dto;
                  st_userId := userId |}]
      /\ insightTable db' = insightTable db
      /\ exists added : list Transaction,
           transactionTable db' = transactionTable db ++ added
           /\ Forall (fun t => statementId t = StatementsService.id dto) added
           /\ (StatementsService.status dto = PROCESSED
               /\ length added = StatementsService.successfulTransactions dto
               /\ (0 < StatementsService.successfulTransactions dto)%nat
               /\ StatementsService.transactionCount dto
                  = length (StatementsService.rows file)
               /\ (StatementsService.successfulTransactions dto
                   + StatementsService.failedTransactions dto)%nat
                  = length (StatementsService.rows file)
               \/ StatementsService.status dto = FAILED
                  /\ StatementsService.transactionCount dto = 0%nat
                  /\ StatementsService.successfulTransactions dto = 0%nat
                  /\ StatementsService.failedTransactions dto = 0%nat)
  end.
Proof.
  unfold StatementsService.uploadStatement.
  destruct (negb _ && negb _).
  { intros Heq. injection Heq as <- <-. split; [done|]. by eexists. }
  destruct (StatementsService.maxSize <? StatementsService.size file)%Z.
  { intros Heq. injection Heq as <- <-. split; [done|]. by eexists. }
  destruct (validateCSVFormat (StatementsService.headerEvent file))
    as [[]|]; [| |discriminate].
  2: { intros Heq. injection Heq as <- <-. split; [done|]. by eexists. }
  pose proof (processStatementFromBuffer_run (transactionTable db)
                (uuid (generated db)) (StatementsService.rows file)) as Hrun.
  destruct (processStatementFromBuffer (transactionTable db)
              (uuid (generated db)) (StatementsService.rows file))
    as [processResult table].
  destruct Hrun as (added & Htable & Hsid & Hcases).
  intros Heq. injection Heq as <- <-. cbn in *.
  split; [done|]. split; [done|]. split; [done|].
  exists added. split; [done|]. split; [done|].
  destruct Hcases as [(Hstatus & Hne & Hlen & Hcount & Hsum) | ->].
  - left. repeat split; try done. destruct added; [done|]. simpl in Hlen. lia.
  - by right.
Qed.

(** The theorem at [sampleFile], of whose two rows one parses. *)
Lemma uploadStatement_outcome_witness :
  exists (dto : StatementsService.UploadResponseDto) (db' : Database),
    StatementsService.uploadStatement (H := asciiHost) sampleUuid
      emptyDatabase sampleFile (lit "user-1") = Some (Returned dto, db')
    /\ StatementsService.id dto = sampleUuid (generated emptyDatabase)
    /\ insightTable db' = insightTable emptyDatabase.
Proof.
  eexists _, _. split; [vm_compute; reflexivity|].
  pose proof (uploadStatement_outcome (H := asciiHost) sampleUuid
                emptyDatabase _ sampleFile (lit "user-1") (Returned _)
                eq_refl) as (Hid & _ & Hinsights & _).
  split; [exact Hid | exact Hinsights].
Defined.

Example uploadStatement_sampleFile :
  match StatementsService.uploadStatement (H := asciiHost) sampleUuid
          emptyDatabase sampleFile (lit "user-1") with
  | Some (Returned dto, db') =>
      StatementsService.status dto = PROCESSED
      /\ StatementsService.transactionCount dto = 2%nat
      /\ StatementsService.successfulTransactions dto = 1%nat
      /\ StatementsService.failedTransactions dto = 1%nat
      /\ length (transactionTable db') = 1%nat
  | _ => False
  end.
Proof. vm_compute. repeat split; reflexivity. Qed.

(** ** From the upload to the insights *)

Section UploadThenInsights.

Context `{Host} (uuid : nat -> jsstring).



End UploadThenInsights.



(** ** The mock bureaus *)

Lemma toInt32_range (z : Z) : (- 2 ^ 31 <= toInt32 z < 2 ^ 31)%Z.
Proof.
  unfold toInt32.
  pose proof (Z.mod_pos_bound (z + 2 ^ 31) (2 ^ 32) eq_refl). lia.
Qed.

Lemma toInt32_wraps (z : Z) : exists k : Z, toInt32 z = (z + k * 2 ^ 32)%Z.
Proof.
  exists (- ((z + 2 ^ 31) / 2 ^ 32))%Z. unfold toInt32.
  rewrite Z.mod_eq by done. lia.
Qed.

Lemma toInt32_add_multiple (z k : Z) :
  toInt32 (z + k * 2 ^ 32) = toInt32 z.
Proof.
  unfold toInt32.
  replace (z + k * 2 ^ 32 + 2 ^ 31)%Z with (z + 2 ^ 31 + k * 2 ^ 32)%Z by lia.
  by rewrite Z_mod_plus_full.
Qed.

Lemma hashStep_polynomial (hash : Z) (char : N) :
  hashStep (toInt32 hash) char = toInt32 (31 * hash + Z.of_N char).
Proof.
  unfold hashStep, bitwiseAnd, shiftLeft. rewrite Z.land_diag.
  destruct (toInt32_wraps hash) as [k0 Hk0].
  destruct (toInt32_wraps (toInt32 hash)) as [k1 Hk1].
  destruct (toInt32_wraps (toInt32 (toInt32 hash) * 2 ^ 5)) as [k2 Hk2].
  rewrite Hk2, Hk1, Hk0.
  rewrite <- (toInt32_add_multiple (31 * hash + Z.of_N char)
                (31 * k0 + 32 * k1 + k2)).
  f_equal. lia.
Qed.

Lemma fold_hashStep_polynomial (email : jsstring) (hash : Z) :
  fold_left hashStep email (toInt32 hash)
  = toInt32 (fold_left (fun a c => (31 * a + Z.of_N c)%Z) email hash).
Proof.
  revert hash. induction email as [|char email IH]; intros hash; [done|].
  simpl. by rewrite hashStep_polynomial, IH.
Qed.

(** X25.  The hash that both mock bureaus take of an email address is
    the magnitude of the polynomial in 31 of its code units, wrapped to
    a signed 32-bit integer: the shift and the bitwise operations lose
    nothing else.  It lies between 0 and 2^31, both included. *)
Theorem hashEmail_polynomial (email : jsstring) :
  hashEmail email = Z.abs (toInt32 (polynomial31 email))
  /\ (0 <= hashEmail email <= 2 ^ 31)%Z.
Proof.
  assert (hashEmail email = Z.abs (toInt32 (polynomial31 email))) as Heq.
  { unfold hashEmail, polynomial31. f_equal.
    apply (fold_hashStep_polynomial email 0). }
  split; [done|]. rewrite Heq.
  pose proof (toInt32_range (polynomial31 email)). lia.
Qed.

Example hashEmail_sample :
  hashEmail (lit "test@example.com") = 1405876145%Z
  /\ polynomial31 (lit "test@example.com") = 2801322827401974554822735%Z.
Proof. split; vm_compute; reflexivity. Qed.

Lemma hashEmail_nonneg (email : jsstring) : (0 <= hashEmail email)%Z.
Proof. unfold hashEmail. lia. Qed.

(** X26.  Whatever the email address, the record that the mock bureau
    server generates has a score from 300 to 850, up to 7 enquiries, up
    to 3 defaults, up to 5 open loans and 5 to 20 trade lines; and its
    risk band is one that [mapRiskBand] knows, the band of its score:
    the fallback of [mapRiskBand] is not needed for it. *)
Theorem generateMockCreditData_ranges (now : Z)
  (numberToString : Z -> jsstring) (isoString email : jsstring) :
  let d :=
    MockBureauServer.generateMockCreditData now numberToString isoString
      email in
  (300 <= score d <= 850)%Z
  /\ BureauService.mapRiskBand (risk_band d) = Some (bandOfScore (score d))
  /\ (0 <= enquiries_6m d <= 7)%Z
  /\ (0 <= defaults d <= 3)%Z
  /\ (0 <= open_loans d <= 5)%Z
  /\ (5 <= trade_lines d <= 20)%Z.
Proof.
  cbv zeta. unfold MockBureauServer.generateMockCreditData.
  cbn [score risk_band enquiries_6m defaults open_loans trade_lines].
  pose proof (hashEmail_nonneg email) as Hseed.
  pose proof (Z.rem_bound_pos (hashEmail email) 551 Hseed eq_refl).
  pose proof (Z.rem_bound_pos (hashEmail email) 8 Hseed eq_refl).
  pose proof (Z.rem_bound_pos (hashEmail email) 4 Hseed eq_refl).
  pose proof (Z.rem_bound_pos (hashEmail email) 6 Hseed eq_refl).
  pose proof (Z.rem_bound_pos (hashEmail email) 16 Hseed eq_refl).
  split; [lia|]. split; [|lia]. unfold bandOfScore.
  destruct (800 <=? _)%Z; [reflexivity|].
  destruct (740 <=? _)%Z; [reflexivity|].
  destruct (670 <=? _)%Z; [reflexivity|].
  destruct (580 <=? _)%Z; reflexivity.
Qed.

Example generateMockCreditData_sample :
  let d :=
    MockBureauServer.generateMockCreditData 0 (fun _ => []) []
      (lit "test@example.com") in
  score d = 496%Z /\ risk_band d = lit "very_poor"
  /\ BureauService.mapRiskBand (lit "Poor") = Some BureauService.VERY_POOR
  /\ BureauService.mapRiskBand (lit "constructor") = None.
Proof. vm_compute. repeat split; reflexivity. Qed.

(** X27.  At the mock bureau service the score is [300 + hash % 550]:
    it lies from 300 to 849, so that clamping it to 300..850 never
    changes it and 850 is never reached.  The risk band is always one
    of the five letters, and there are up to 10 enquiries, up to 3
    defaults, up to 8 open loans and 1 to 15 trade lines. *)
Theorem mockBureauService_ranges (email : jsstring) :
  let emailHash := hashEmail email in
  MockBureauService.generateScore emailHash = (300 + Z.rem emailHash 550)%Z
  /\ (300 <= MockBureauService.generateScore emailHash <= 849)%Z
  /\ (exists band : jsstring,
         MockBureauService.generateRiskBand emailHash = Some band
         /\ band ∈ MockBureauService.riskBands)
  /\ (0 <= MockBureauService.generateEnquiries emailHash <= 10)%Z
  /\ (0 <= MockBureauService.generateDefaults emailHash <= 3)%Z
  /\ (0 <= MockBureauService.generateOpenLoans emailHash <= 8)%Z
  /\ (1 <= MockBureauService.generateTradeLines emailHash <= 15)%Z.
Proof.
  cbv zeta. pose proof (hashEmail_nonneg email) as Hseed.
  unfold MockBureauService.generateScore, MockBureauService.generateRiskBand,
    MockBureauService.generateEnquiries, MockBureauService.generateDefaults,
    MockBureauService.generateOpenLoans, MockBureauService.generateTradeLines.
  pose proof (Z.rem_bound_pos (hashEmail email) 550 Hseed eq_refl).
  pose proof (Z.rem_bound_pos (hashEmail email) 11 Hseed eq_refl).
  pose proof (Z.rem_bound_pos (hashEmail email) 4 Hseed eq_refl).
  pose proof (Z.rem_bound_pos (hashEmail email) 9 Hseed eq_refl).
  pose proof (Z.rem_bound_pos (hashEmail email) 15 Hseed eq_refl).
  split; [lia|]. split; [lia|]. split; [|lia].
  change (Z.of_nat (length MockBureauService.riskBands)) with 5%Z.
  pose proof (Z.rem_bound_pos (hashEmail email) 5 Hseed eq_refl) as Hindex.
  destruct (Z.ltb_spec (Z.rem (hashEmail email) 5) 0) as [Hneg|_]; [lia|].
  destruct (lookup_lt_is_Some_2 MockBureauService.riskBands
              (Z.to_nat (Z.rem (hashEmail email) 5))) as [band Hband].
  { change (length MockBureauService.riskBands) with 5%nat. lia. }
  exists band. split; [done|]. by eapply list_elem_of_lookup_2.
Qed.

(** ** The credit check of the bureau service *)

Section BureauServiceFacts.

Context (oracle : Oracle) (maxRetries : nat) (retryDelayMs : Q).


End BureauServiceFacts.




(** The one case that the model of the service leaves out: the client
    has returned a response whose risk band names an inherited
    property. *)
Lemma bureauService_checkCredit_left_out (uuid : nat -> jsstring)
  (oracle : Oracle) (maxRetries : nat) (retryDelayMs : Q)
  (db : BureauService.Database) (dto : BureauService.BureauCheckDto)
  (userId : jsstring) (w : World) :
  BureauService.checkCredit uuid oracle maxRetries retryDelayMs db dto
    userId w = None ->
  exists (request : BureauApiRequest) (body : BureauApiResponse)
         (d : BureauData),
    data (checkCredit oracle maxRetries retryDelayMs request w).1 = Some body
    /\ api_data body = Some d
    /\ risk_band d ∈ BureauService.inheritedProperties.
Proof.
  unfold BureauService.checkCredit.
  destruct (negb _); [discriminate|].
  unfold BureauService.bureauHttpClient_checkCredit.
  set (request := {| email := BureauService.c_email dto;
                     user_id := _; additional_data := _ |}).
  destruct (checkCredit oracle maxRetries retryDelayMs request w)
    as [r w1] eqn:Hrun.
  destruct (if success r then data r else None) as [body|] eqn:Hbody;
    [|discriminate].
  destruct (api_data body) as [d|] eqn:Hd; [|discriminate].
  destruct (BureauService.mapRiskBand (risk_band d)) as [band|] eqn:Hband.
  { destruct (BureauService.findReport _ _); discriminate. }
  intros _. exists request, body, d. rewrite Hrun. cbn [fst].
  split; [by destruct (success r)|]. split; [done|].
  unfold BureauService.mapRiskBand in Hband.
  destruct (List.find _ BureauService.mapping); [discriminate|].
  destruct (decide (risk_band d ∈ BureauService.inheritedProperties))
    as [Hin|Hout]; [done|].
  by rewrite bool_decide_eq_false_2 in Hband.
Qed.

(** ** Amounts are magnitudes, from the parser to the engine *)

Section Magnitudes.

Context `{Host}.

Lemma parseRow_magnitude (row : Row) (rowNumber : nat)
  (t : ParsedTransaction) :
  parseRow row rowNumber = Returned (Some t) -> geZero (pt_amount t) = true.
Proof.
  intros Ht.
  destruct (getFieldValue row dateFields) as [[|c1 d]|] eqn:Hd;
    try (rewrite parseRow_unresolved in Ht;
         [discriminate
         | left; apply not_resolved; rewrite Hd; by auto]).
  destruct (getFieldValue row descriptionFields) as [[|c2 s]|] eqn:Hs;
    try (rewrite parseRow_unresolved in Ht;
         [discriminate
         | right; left; apply not_resolved; rewrite Hs; by auto]).
  destruct (getFieldValue row amountFields) as [[|c3 a]|] eqn:Ha;
    try (rewrite parseRow_unresolved in Ht;
         [discriminate
         | right; right; apply not_resolved; rewrite Ha; by auto]).
  rewrite (parseRow_resolved row rowNumber (c1 :: d) (c2 :: s) (c3 :: a))
    in Ht by done.
  destruct (Date_getTime (c1 :: d)) as [date|]; [|discriminate].
  cbv zeta in Ht.
  destruct (isNaN (parseFloat (stripCurrency (c3 :: a)))) eqn:Hnan;
    [discriminate|].
  injection Ht as <-. cbn [pt_amount]. by apply Math_abs_geZero.
Qed.

Lemma parseCSV_magnitudes (rows : list Row) :
  Forall (fun t => geZero (pt_amount t) = true) (transactions (parseCSV rows)).
Proof.
  induction rows as [|row rows IH] using rev_ind; [apply Forall_nil_2|].
  rewrite parseCSV_app_result. cbn [appendResults transactions].
  apply Forall_app. split; [done|].
  destruct (parseCSV_singleton row) as [-> _]. unfold parsedOf.
  destruct (parseRow row 1) as [[t|]|e] eqn:Ht; simpl;
    try apply Forall_nil_2.
  apply Forall_singleton. by apply (parseRow_magnitude row 1).
Qed.

End Magnitudes.

Lemma toHundredths_nonneg (x : number) (h : Z) :
  geZero x = true -> toHundredths x = Some h -> (0 <= h)%Z.
Proof.
  destruct x as [|negative|q]; [done|done|].
  unfold geZero, toHundredths. intros Hq.
  rewrite Hq. destruct (bool_decide _); [|done]. intros Heq.
  assert (Qfloor (q * 100 + (1 # 2)) = h) as <- by congruence.
  apply Qle_bool_iff in Hq.
  change 0%Z with (Qfloor 0). apply Qfloor_resp_le.
  apply Qle_trans with (q * 100); [by apply Qmult_le_0_compat|].
  apply Qle_trans with (q * 100 + 0); [rewrite Qplus_0_r; apply Qle_refl|].
  by apply Qplus_le_compat; [apply Qle_refl|].
Qed.

Lemma saveChunk_magnitudes (sid : jsstring) (chunk : list ParsedTransaction)
  (saved : list Transaction) :
  Forall (fun p => geZero (pt_amount p) = true) chunk ->
  saveChunk sid chunk = Some saved ->
  Forall (fun t => (0 <= amount t)%Z) saved.
Proof.
  revert saved. induction chunk as [|p chunk IH]; intros saved Hall; simpl.
  - intros Heq. injection Heq as <-. apply Forall_nil_2.
  - apply Forall_cons in Hall as [Hp Hall].
    destruct (toEntity sid p) as [t|] eqn:Ht; [|done].
    destruct (saveChunk sid chunk) as [ts|]; [|done].
    intros Heq. injection Heq as <-. apply Forall_cons. split; [|by apply IH].
    unfold toEntity in Ht.
    destruct (toHundredths (pt_amount p)) as [a|] eqn:Ha; [|done].
    destruct (toHundredths (pt_balance p)); [|done].
    injection Ht as <-. simpl. by apply (toHundredths_nonneg (pt_amount p)).
Qed.

Lemma totalHundredths_nonneg (ts : list Transaction) :
  Forall (fun t => (0 <= amount t)%Z) ts -> (0 <= totalHundredths ts)%Z.
Proof.
  induction 1 as [|t ts Ht _ IH]; simpl; [done|]. lia.
Qed.

Lemma Forall_List_filter {A : Type} (P : A -> Prop) (f : A -> bool)
  (l : list A) :
  Forall P l -> Forall P (List.filter f l).
Proof.
  rewrite !Forall_forall. intros Hall x Hx. apply Hall.
  rewrite list_elem_of_In in Hx. apply filter_In in Hx as [Hx _].
  by rewrite list_elem_of_In.
Qed.

(** X29.  Amounts are magnitudes from the parser to the engine: the
    ingestion stores no negative amount, and over a table of
    magnitudes the totals that [computeInsights] returns are not
    negative, the net cash flow lying between the total outflow taken
    negatively and the total inflow. *)
Theorem ingestion_stores_magnitudes `{Host} (table : list Transaction)
  (sid : jsstring) (rows : list Row) :
  Forall (fun t => (0 <= amount t)%Z) table ->
  let table' := (processStatementFromBuffer table sid rows).2 in
  Forall (fun t => (0 <= amount t)%Z) table'
  /\ forall (statement : jsstring) (ins : ComputedInsights),
       computeInsights (repositoryOf table') statement = Returned ins ->
       0 <= totalInflow ins /\ 0 <= totalOutflow ins /\ 0 <= totalIncome ins
       /\ - totalOutflow ins <= netCashFlow ins <= totalInflow ins.
Proof.
  intros Htable. cbv zeta.
  assert (Forall (fun t => (0 <= amount t)%Z)
            (processStatementFromBuffer table sid rows).2) as Hstored.
  { unfold processStatementFromBuffer.
    pose proof (parseCSV_magnitudes rows) as Hparsed.
    destruct (transactions (parseCSV rows)) as [|p ps] eqn:Hps; [done|].
    destruct (saveChunk sid (p :: ps)) as [saved|] eqn:Hsaved.
    - rewrite (saveInChunks_all _ 1000 sid (p :: ps) table saved)
        by (done || lia).
      simpl. apply Forall_app. split; [done|].
      by apply (saveChunk_magnitudes sid (p :: ps)).
    - destruct (saveInChunks_partial (length (p :: ps)) 1000 sid (p :: ps)
                  table) as (kept & -> & Hkept & _); [lia | done | done |].
      simpl. apply Forall_app. split; [done|].
      apply (saveChunk_magnitudes sid (take (length kept) (p :: ps)));
        [by apply Forall_take | done]. }
  split; [done|]. intros statement ins Hins.
  pose proof (computeInsights_Returned _ _ _ Hins) as Hne.
  rewrite (computeInsights_returns _ statement Hne) in Hins.
  injection Hins as <-. cbn -[round2 repositoryOf].
  set (ts := merge_sort dateOrder
               (List.filter
                  (fun t => bool_decide (statementId t = statement))
                  (processStatementFromBuffer table sid rows).2)).
  assert (Forall (fun t => (0 <= amount t)%Z) ts) as Hts.
  { subst ts. rewrite merge_sort_Permutation. by apply Forall_List_filter. }
  pose proof (totalHundredths_nonneg _
                (Forall_List_filter _ isCredit ts Hts)) as Hcredit.
  pose proof (totalHundredths_nonneg _
                (Forall_List_filter _ isDebit ts Hts)) as Hdebit.
  assert (round2 (sumAmounts (List.filter isCredit ts))
          == num (totalHundredths (List.filter isCredit ts))) as Hin.
  { rewrite (round2_hundredths _ _ (sumAmounts_num _)).
    apply sumAmounts_num. }
  assert (round2 (sumAmounts (List.filter isDebit ts))
          == num (totalHundredths (List.filter isDebit ts))) as Hout.
  { rewrite (round2_hundredths _ _ (sumAmounts_num _)).
    apply sumAmounts_num. }
  assert (round2 (sumAmounts (List.filter isCredit ts)
                  - sumAmounts (List.filter isDebit ts))
          == num (totalHundredths (List.filter isCredit ts)
                  - totalHundredths (List.filter isDebit ts))) as Hnet.
  { assert (sumAmounts (List.filter isCredit ts)
            - sumAmounts (List.filter isDebit ts)
            == num (totalHundredths (List.filter isCredit ts)
                    - totalHundredths (List.filter isDebit ts))) as Hdiff
      by (rewrite !sumAmounts_num; apply num_minus).
    by rewrite (round2_hundredths _ _ Hdiff). }
  rewrite Hin, Hout, Hnet.
  unfold num, Qle, Qopp. simpl. repeat split; lia.
Qed.

(** The theorem at [twoRowFile], ingested into an empty table. *)
Lemma ingestion_stores_magnitudes_witness :
  let table' :=
    (processStatementFromBuffer (H := asciiHost) [] (lit "statement-1")
       twoRowFile).2 in
  Forall (fun t => (0 <= amount t)%Z) table'
  /\ forall (statement : jsstring) (ins : ComputedInsights),
       computeInsights (repositoryOf table') statement = Returned ins ->
       0 <= totalInflow ins /\ 0 <= totalOutflow ins /\ 0 <= totalIncome ins
       /\ - totalOutflow ins <= netCashFlow ins <= totalInflow ins.
Proof.
  apply (ingestion_stores_magnitudes (H := asciiHost) [] (lit "statement-1")
           twoRowFile).
  apply Forall_nil_2.
Defined.

Example ingestion_twoRowFile :
  List.map (fun t => (amount t, type t))
    (processStatementFromBuffer (H := asciiHost) [] (lit "statement-1")
       twoRowFile).2
  = [(12050%Z, DEBIT)].
Proof. vm_compute. reflexivity. Qed.

(** ** The order of the transactions *)













(** The two orders differ in the bounced payments they count, and so
    in their risk level. *)
Example bouncedPayments_depend_on_order :
  match computeInsights chargeAfterPayment (lit "statement-1"),
        computeInsights salaryInBetween (lit "statement-1") with
  | Returned ins1, Returned ins2 =>
      (bouncedPaymentCount ins1, riskLevel ins1) = (1%nat, MEDIUM)
      /\ (bouncedPaymentCount ins2, riskLevel ins2) = (0%nat, LOW)
  | _, _ => False
  end.
Proof. vm_compute. split; reflexivity. Qed.
